(** * on-call-agent: chunking, RAG formatting, the vector store and the routes

    A shallow embedding of
      - [src/lib/embeddings.ts]          (simpleHash, generateEmbedding,
                                          generateEmbeddings, chunkText,
                                          createDocumentChunks),
      - [src/lib/document-processor.ts]  (formatDocumentForRAG; the
                                          extraction of title, alert type
                                          and metadata; the loading and
                                          the processing of the documents),
      - [src/lib/vector-store.ts]        (the client and the handle,
                                          initializeIndex, upsertDocuments,
                                          searchSimilar, the deletions),
      - [src/app/api/chat/route.ts]      (POST: the variant with the
                                          similarity threshold, and the
                                          variants without),
      - [src/app/api/index-documents/route.ts] (POST),
    followed by the properties the specification states about them, and
    by further properties of the code.

    Conventions.
      - A JavaScript string is a [string]: a sequence of code units, here
        the 8-bit ones.  Whitespace and line terminators are the members of
        the ECMAScript classes that fit in 8 bits.
      - A JavaScript number used as a count or an index is a [Z]; a 32-bit
        integer is a [Z] with its wrap-around written out ([to_int32]).
      - A similarity score is a [Q]: every finite double is a rational and
        the threshold 0.5 is one exactly, so [>=] on scores is [Qle].
      - The entries of an embedding are real numbers: [Math.sin] and the
        arithmetic around it are taken exactly, without rounding.
      - A loop that may not terminate takes fuel and returns [None] when it
        runs out.
      - What is thrown is an [Error]; a rejection carries its message.
      - The Pinecone client, the file system, the timer and the embedding
        service are outside: every call to them is recorded in the world,
        and settles as a function of the calls made before it says. *)

From Stdlib Require Import List String Ascii ZArith QArith Reals Lia Lra Bool.
From Stdlib Require Import DecimalString DecimalNat.
Import ListNotations.

Close Scope Q_scope.
Close Scope R_scope.
Local Open Scope nat_scope.
Local Open Scope list_scope.
Local Open Scope string_scope.

(* ================================================================== *)
(** ** JavaScript primitives used by the sources *)
(* ================================================================== *)

Module Js.

(** Line feed, as a character and as a one-character string. *)
Definition LF : ascii := "010"%char.
Definition nl : string := String LF "".

(** ECMAScript LineTerminator: LF, CR (U+2028 and U+2029 are beyond
    8 bits). *)
Definition is_line_terminator (c : ascii) : bool :=
  match nat_of_ascii c with
  | 10 | 13 => true
  | _ => false
  end.

(** The class [\s], which is also what [String.prototype.trim] strips:
    WhiteSpace and LineTerminator.  TAB, LF, VT, FF, CR, SP, NBSP. *)
Definition is_whitespace (c : ascii) : bool :=
  match nat_of_ascii c with
  | 9 | 10 | 11 | 12 | 13 | 32 | 160 => true
  | _ => false
  end.

(** [s.trimStart()] *)
Fixpoint trimStart (s : string) : string :=
  match s with
  | String c s' => if is_whitespace c then trimStart s' else s
  | EmptyString => EmptyString
  end.

(** [s.trimEnd()]: a whitespace character is dropped when everything
    after it has been dropped. *)
Fixpoint trimEnd (s : string) : string :=
  match s with
  | String c s' =>
      match trimEnd s' with
      | EmptyString => if is_whitespace c then EmptyString else String c EmptyString
      | t => String c t
      end
  | EmptyString => EmptyString
  end.

(** [s.trim()] *)
Definition trim (s : string) : string := trimEnd (trimStart s).

(** [s.split(sep)] for a one-character separator: the piece before the
    first separator and the pieces after it.  The result is never
    empty: [''.split(' ')] is [['']]. *)
Fixpoint split_pieces (sep : ascii) (s : string) : string * list string :=
  match s with
  | EmptyString => (EmptyString, [])
  | String c s' =>
      let (w, ws) := split_pieces sep s' in
      if Ascii.eqb c sep then (EmptyString, w :: ws) else (String c w, ws)
  end.

Definition split (sep : ascii) (s : string) : list string :=
  let (w, ws) := split_pieces sep s in w :: ws.

(** [ws.join(sep)] *)
Definition join (sep : string) (ws : list string) : string :=
  String.concat sep ws.

(** Relative index of [Array.prototype.slice]: a negative index counts
    from the end, and both are clamped to [0, len]. *)
Definition relative_index (len k : Z) : Z :=
  if (k <? 0)%Z then Z.max (len + k) 0 else Z.min k len.

(** [l.slice(start, end)] *)
Definition slice {A : Type} (l : list A) (start end_ : Z) : list A :=
  let len := Z.of_nat (List.length l) in
  let k := relative_index len start in
  let final := relative_index len end_ in
  firstn (Z.to_nat (final - k)) (skipn (Z.to_nat k) l).

(** ToInt32: reduction modulo 2^32 into [-2^31, 2^31). *)
Definition to_int32 (z : Z) : Z :=
  ((z + 2 ^ 31) mod 2 ^ 32 - 2 ^ 31)%Z.

(** [a << k] on numbers. *)
Definition shl (a k : Z) : Z := to_int32 (Z.shiftl (to_int32 a) (k mod 32)).

(** [a & b] on numbers. *)
Definition band (a b : Z) : Z := Z.land (to_int32 a) (to_int32 b).

(** [String(n)] and [`${n}`] for a non-negative integer [n]. *)
Definition string_of_nat (n : nat) : string :=
  NilEmpty.string_of_uint (Nat.to_uint n).

(** ToBoolean on a string: only the empty string is falsy. *)
Definition truthy (s : string) : bool :=
  match s with
  | EmptyString => false
  | String _ _ => true
  end.

(** ToBoolean on an optional string ([undefined] is falsy). *)
Definition truthy_opt (o : option string) : bool :=
  match o with
  | Some s => truthy s
  | None => false
  end.

(** [s.startsWith(p)] *)
Fixpoint startsWith (p s : string) : bool :=
  match p, s with
  | EmptyString, _ => true
  | String a p', String b s' => Ascii.eqb a b && startsWith p' s'
  | String _ _, EmptyString => false
  end.

(** [s.endsWith(p)]: some suffix of [s] is [p]. *)
Fixpoint endsWith (p s : string) : bool :=
  String.eqb s p
  || match s with
     | EmptyString => false
     | String _ s' => endsWith p s'
     end.

(** [s.includes(p)] *)
Fixpoint string_includes (p s : string) : bool :=
  startsWith p s
  || match s with
     | EmptyString => false
     | String _ s' => string_includes p s'
     end.

End Js.

(* ================================================================== *)
(** ** src/lib/embeddings.ts *)
(* ================================================================== *)

Module Embeddings.
Import Js.

(** [text.split(' ')] *)
Definition words (text : string) : list string := split " "%char text.

(** The [for] loop of [chunkText], entered with loop variable [i] and the
    chunks pushed so far.  One unit of fuel per evaluation of the loop
    condition. *)
Fixpoint chunkLoop (fuel : nat) (ws : list string) (chunkSize overlap : Z)
         (i : Z) (chunks : list string) : option (list string) :=
  match fuel with
  | O => None
  | S fuel' =>
      let len := Z.of_nat (List.length ws) in
      if (i <? len)%Z then
        let chunk := join " " (slice ws i (i + chunkSize)) in
        let chunks := (chunks ++ [chunk])%list in
        if (i + chunkSize >=? len)%Z then Some chunks
        else chunkLoop fuel' ws chunkSize overlap (i + (chunkSize - overlap)) chunks
      else Some chunks
  end.

Definition chunkText_fuel (fuel : nat) (text : string) (chunkSize overlap : Z)
  : option (list string) :=
  let ws := words text in
  if (Z.of_nat (List.length ws) <=? chunkSize)%Z then Some [text]
  else chunkLoop fuel ws chunkSize overlap 0 [].

(** [chunkText(text, chunkSize, overlap)].  The loop variable starts at 0
    and the loop is left once it reaches the number of words, so a loop
    that advances evaluates its condition at most that many times plus
    one; [None] stands for a loop that never ends
    ([chunkText_diverges_iff] below). *)
Definition chunkText (text : string) (chunkSize overlap : Z)
  : option (list string) :=
  chunkText_fuel (S (List.length (words text))) text chunkSize overlap.


(** *** simpleHash and the hash-based generateEmbedding *)

(** [str.charCodeAt(i)] *)
Definition charCode (c : ascii) : Z := Z.of_nat (nat_of_ascii c).

(** One round of the loop of [simpleHash]:
    [hash = ((hash << 5) - hash) + char; hash = hash & hash]. *)
Definition hash_round (hash : Z) (c : ascii) : Z :=
  let hash := (shl hash 5 - hash + charCode c)%Z in
  band hash hash.

Fixpoint hash_loop (str : string) (hash : Z) : Z :=
  match str with
  | EmptyString => hash
  | String c str' => hash_loop str' (hash_round hash c)
  end.

Definition simpleHash (str : string) : Z := Z.abs (hash_loop str 0).

(** The loop [for (let i = 0; i < 384; i++)] of [generateEmbedding],
    with [n] rounds left. *)
Fixpoint embedding_loop (hash : Z) (n : nat) (i : Z) (embedding : list R)
  : list R :=
  match n with
  | O => embedding
  | S n' =>
      let seed := (hash + i)%Z in
      embedding_loop hash n' (i + 1)
        (embedding ++ [((sin (IZR seed) + 1) / 2)%R])
  end.

(** [generateEmbedding(text)], hash-based variant.  Nothing in its [try]
    block throws. *)
Definition generateEmbedding (text : string) : list R :=
  let hash := simpleHash text in
  embedding_loop hash 384 0 [].

(** *** createDocumentChunks *)

Record ChunkMetadata := {
  filename : string;
  title : string;
  section : option string;
  chunkIndex : nat;
  totalChunks : nat
}.

Record DocumentChunk := {
  id : string;
  content : string;
  metadata : ChunkMetadata
}.

(** Regular expressions, as backtracking matchers in continuation
    style: every matcher takes what follows it in the pattern. *)
Section Regex.
Context {A : Type}.

(** Up to [n] more [#], greedy, then [k]. *)
Fixpoint hashes_upto (n : nat) (k : string -> option A) (s : string)
  : option A :=
  match n, s with
  | S n', String "#"%char s' =>
      match hashes_upto n' k s' with
      | Some r => Some r
      | None => k s
      end
  | _, _ => k s
  end.

(** [#{1,3}] then [k]. *)
Definition hashes_1_3 (k : string -> option A) (s : string) : option A :=
  match s with
  | String "#"%char s' => hashes_upto 2 k s'
  | _ => None
  end.

(** [\s*], greedy, then [k]. *)
Fixpoint spaces_star (k : string -> option A) (s : string) : option A :=
  match s with
  | String c s' =>
      if is_whitespace c then
        match spaces_star k s' with
        | Some r => Some r
        | None => k s
        end
      else k s
  | EmptyString => k s
  end.

(** [\s+], greedy, then [k]. *)
Definition spaces_plus (k : string -> option A) (s : string) : option A :=
  match s with
  | String c s' => if is_whitespace c then spaces_star k s' else None
  | EmptyString => None
  end.
End Regex.

(** [\s] *)
Definition one_space (s : string) : option unit :=
  match s with
  | String c _ => if is_whitespace c then Some tt else None
  | EmptyString => None
  end.

(** The longest run of characters [.] matches. *)
Fixpoint dots (s : string) : string :=
  match s with
  | String c s' => if is_line_terminator c then EmptyString else String c (dots s')
  | EmptyString => EmptyString
  end.

(** [(.+)] at the end of a pattern: the captured text. *)
Definition dots_plus (s : string) : option string :=
  match s with
  | String c s' =>
      if is_line_terminator c then None else Some (String c (dots s'))
  | EmptyString => None
  end.

(** The lookahead [(?=^#{1,3}\s)] without its [^]. *)
Definition header_ahead (s : string) : bool :=
  match hashes_1_3 one_space s with
  | Some _ => true
  | None => false
  end.

(** [content.split(/(?=^#{1,3}\s)/m)] from the second character on:
    [prev] is the character before [s]; the result is the rest of the
    current piece and the pieces after it.  A piece ends where the
    lookahead holds; with [m], [^] holds after a line terminator. *)
Fixpoint split_sections_from (prev : ascii) (s : string)
  : string * list string :=
  match s with
  | EmptyString => (EmptyString, [])
  | String c s' =>
      let (w, ws) := split_sections_from c s' in
      if is_line_terminator prev && header_ahead s
      then (EmptyString, String c w :: ws)
      else (String c w, ws)
  end.

(** [content.split(/(?=^#{1,3}\s)/m)].  An empty match at the start of a
    piece does not split, so nothing is split off at index 0; the empty
    string, which the pattern does not match, gives one empty piece. *)
Definition split_sections (content : string) : list string :=
  match content with
  | EmptyString => [EmptyString]
  | String c s' => let (w, ws) := split_sections_from c s' in String c w :: ws
  end.

(** [/^(#{1,3})\s+(.+)/m] tried at the head of [s], itself at the start
    of a line: capture group 2. *)
Definition header_here (s : string) : option string :=
  hashes_1_3 (spaces_plus dots_plus) s.

(** [section.match(/^(#{1,3})\s+(.+)/m)]: capture group 2 of the leftmost
    match; [line_start] tells whether [^] holds at the head of [s]. *)
Fixpoint header_search (line_start : bool) (s : string) : option string :=
  match (if line_start then header_here s else None) with
  | Some t => Some t
  | None =>
      match s with
      | String c s' => header_search (is_line_terminator c) s'
      | EmptyString => None
      end
  end.

(** [sectionMatch ? sectionMatch[2].trim() : undefined] *)
Definition sectionTitle_of (section : string) : option string :=
  match header_search true section with
  | Some group2 => Some (trim group2)
  | None => None
  end.

(** [`${filename}_${sectionIndex}_${chunkIndex}`] *)
Definition chunk_id (filename : string) (sectionIndex chunkIndex : nat)
  : string :=
  filename ++ "_" ++ string_of_nat sectionIndex ++ "_" ++ string_of_nat chunkIndex.

(** [textChunks.forEach((chunk, chunkIndex) => ...)], from index
    [chunkIndex] on; [chunks] is the array shared by all sections. *)
Fixpoint forEach_textChunk (filename title : string)
         (sectionTitle : option string) (sectionIndex : nat)
         (textChunks : list string) (chunkIndex : nat)
         (chunks : list DocumentChunk) : list DocumentChunk :=
  match textChunks with
  | [] => chunks
  | chunk :: rest =>
      let chunks :=
        if (0 <? String.length (trim chunk))%nat then
          (chunks ++ [{| id := chunk_id filename sectionIndex chunkIndex;
                         content := chunk;
                         metadata := {| filename := filename;
                                        title := title;
                                        section := sectionTitle;
                                        chunkIndex := List.length chunks;
                                        totalChunks := 0 |} |}])%list
        else chunks in
      forEach_textChunk filename title sectionTitle sectionIndex
                        rest (S chunkIndex) chunks
  end.

(** [sections.forEach((section, sectionIndex) => ...)], from index
    [sectionIndex] on. *)
Fixpoint forEach_section (filename title : string)
         (sections : list string) (sectionIndex : nat)
         (chunks : list DocumentChunk) : option (list DocumentChunk) :=
  match sections with
  | [] => Some chunks
  | section :: rest =>
      let sectionTitle := sectionTitle_of section in
      match chunkText (trim section) 500 50 with
      | None => None
      | Some textChunks =>
          forEach_section filename title rest (S sectionIndex)
            (forEach_textChunk filename title sectionTitle sectionIndex
                               textChunks 0 chunks)
      end
  end.

(** [chunk.metadata.totalChunks = n] *)
Definition set_totalChunks (n : nat) (chunk : DocumentChunk) : DocumentChunk :=
  {| id := id chunk;
     content := content chunk;
     metadata := {| filename := filename (metadata chunk);
                    title := title (metadata chunk);
                    section := section (metadata chunk);
                    chunkIndex := chunkIndex (metadata chunk);
                    totalChunks := n |} |}.

(** [createDocumentChunks(content, filename, title)]: the chunks are
    pushed with [totalChunks: 0], then every one is given the final
    length of the array.  Each pushed chunk owns its metadata object. *)
Definition createDocumentChunks (content filename title : string)
  : option (list DocumentChunk) :=
  let sections := split_sections content in
  match forEach_section filename title sections 0 [] with
  | None => None
  | Some chunks => Some (map (set_totalChunks (List.length chunks)) chunks)
  end.

(** *** generateEmbeddings *)

(** The loop [for (const text of texts)] of [generateEmbeddings]. *)
Fixpoint generateEmbeddings_loop (texts : list string)
         (embeddings : list (list R)) : list (list R) :=
  match texts with
  | [] => embeddings
  | text :: rest =>
      let embedding := generateEmbedding text in
      generateEmbeddings_loop rest (embeddings ++ [embedding])
  end.

(** [generateEmbeddings(texts)] *)
Definition generateEmbeddings (texts : list string) : list (list R) :=
  generateEmbeddings_loop texts [].

End Embeddings.

(* ================================================================== *)
(** ** src/lib/vector-store.ts: the result type of a search *)
(* ================================================================== *)

Module VectorStore.

Record ResultMetadata := {
  filename : string;
  title : string;
  content : string;
  section : option string;
  chunkIndex : nat;
  totalChunks : nat
}.

Record SearchResult := {
  id : string;
  score : Q;
  metadata : ResultMetadata
}.

End VectorStore.

(* ================================================================== *)
(** ** src/lib/document-processor.ts *)
(* ================================================================== *)

Module DocumentProcessor.
Import Js VectorStore.

Definition preamble : string :=
  "Based on the following incident response documentation:" ++ nl ++ nl.

(** [searchResults.forEach((result, index) => ...)], from index [index]
    on, appending to [formattedContext]. *)
Fixpoint forEach_result (searchResults : list SearchResult) (index : nat)
         (formattedContext : string) : string :=
  match searchResults with
  | [] => formattedContext
  | result :: rest =>
      let metadata := metadata result in
      let formattedContext :=
        formattedContext
        ++ ("## Document " ++ string_of_nat (index + 1) ++ ": "
            ++ title metadata ++ nl) in
      let formattedContext :=
        match section metadata with
        | Some s =>
            if truthy s
            then formattedContext ++ ("### " ++ s ++ nl)
            else formattedContext
        | None => formattedContext
        end in
      let formattedContext :=
        formattedContext ++ (content metadata ++ nl ++ nl) in
      let formattedContext :=
        formattedContext ++ ("*Source: " ++ filename metadata ++ "*" ++ nl ++ nl) in
      forEach_result rest (S index) formattedContext
  end.

(** [formatDocumentForRAG(searchResults)] *)
Definition formatDocumentForRAG (searchResults : list SearchResult) : string :=
  if (List.length searchResults =? 0)%nat then ""
  else forEach_result searchResults 0 preamble.

End DocumentProcessor.

(* ================================================================== *)
(** ** src/app/api/chat/prompt.ts *)
(* ================================================================== *)

Module Prompt.
Import Js.

Definition SYSTEM_PROMPT : string :=
  "You are an on-call incident response assistant with access to a knowledge base of incident response procedures (KMAs - Knowledge Management Articles). Your role is to help engineers resolve system incidents by providing accurate, step-by-step guidance based on documented procedures."
  ++ nl ++ nl
  ++ "When responding to incident-related queries:" ++ nl
  ++ "1. Always search your knowledge base first for relevant incident response procedures" ++ nl
  ++ "2. Provide specific, actionable steps from the documented procedures" ++ nl
  ++ "3. Include relevant system information (severity levels, alert thresholds, etc.)" ++ nl
  ++ "4. Reference the source documents for verification" ++ nl
  ++ "5. If no relevant documentation is found, clearly state this and provide general guidance"
  ++ nl ++ nl
  ++ "Be concise, accurate, and focus on getting incidents resolved quickly. Always prioritize safety and following established procedures.".

Definition RAG_INSTRUCTIONS : string :=
  "Please provide a helpful response based on the above documentation. If the documentation is relevant, reference it in your answer. If not relevant, provide general assistance but mention that no specific incident procedures were found.".

End Prompt.

(* ================================================================== *)
(** ** src/app/api/chat/route.ts (the variant with the threshold) *)
(* ================================================================== *)

Module ChatRoute.
Import Js Prompt.

(** *** What the handler talks to *)

(** The result of an [await]ed call: a value, or an exception. *)
Inductive outcome (A : Type) : Type :=
| Returns (a : A)
| Throws (error : string).
Arguments Returns {A} a.
Arguments Throws {A} error.

(** The two services behind [searchSimilar] and [generateText]. *)
Record Services := {
  searchSimilar : string -> Z -> outcome (list VectorStore.SearchResult);
  generateText : string -> string -> outcome string
}.

(** A request: what [const { message } = await request.json()] does.
    It gives the property [message] of the body, a string as the route
    documents it, [None] when the body has none; or it throws, when the
    body is not JSON, and when it is the JSON value [null], which cannot
    be destructured. *)
Record NextRequest := {
  json : outcome (option string)
}.




(** A call made to a service, as recorded in the trace. *)
Inductive Call : Type :=
| CallSearchSimilar (query : string) (topK : Z)
| CallGenerateText (model prompt : string).

Record Source := {
  filename : string;
  title : string;
  section : option string
}.

(** The object given to [NextResponse.json].  A property whose value is
    [undefined] is not serialised: [sources = None] is a body without
    the field. *)
Inductive Body : Type :=
| ErrorBody (error : string)
| ChatBody (response : string) (sources : option (list Source)).

Record NextResponse := {
  body : Body;
  status : Z
}.

(** *** A monad for the handler: exceptions and the trace of calls *)

Definition M (A : Type) : Type := list Call -> outcome A * list Call.

Definition ret {A} (a : A) : M A := fun tr => (Returns a, tr).

Definition throw {A} (e : string) : M A := fun tr => (Throws e, tr).

Definition bind {A B} (m : M A) (k : A -> M B) : M B :=
  fun tr =>
    match m tr with
    | (Returns a, tr') => k a tr'
    | (Throws e, tr') => (Throws e, tr')
    end.

(** [try { m } catch (e) { h e }] *)
Definition try_catch {A} (m : M A) (h : string -> M A) : M A :=
  fun tr =>
    match m tr with
    | (Returns a, tr') => (Returns a, tr')
    | (Throws e, tr') => h e tr'
    end.

(** [await f(...)]: the call is recorded, its outcome returned or
    thrown. *)
Definition await {A} (c : Call) (o : outcome A) : M A :=
  fun tr => (o, (tr ++ [c])%list).

Notation "x <- m ;; k" := (bind m (fun x => k))
  (at level 61, m at next level, right associativity).

(** *** The handler *)

Definition SIMILARITY_THRESHOLD : Q := 0.5%Q.

Definition MODEL : string := "claude-3-5-sonnet-20241022".

Definition createPromptWithContext (context message : string) : string :=
  let userQuestionPrefix := "User Question:" in
  join nl [SYSTEM_PROMPT;
           "";
           context;
           "";
           userQuestionPrefix ++ " " ++ message;
           "";
           RAG_INSTRUCTIONS]%string.

Definition createPromptWithoutContext (message : string) : string :=
  let userQuestionPrefix := "User Question:" in
  let instructions := "Note: No relevant incident response procedures were found in the knowledge base. Please provide general assistance." in
  join nl [SYSTEM_PROMPT;
           "";
           userQuestionPrefix ++ " " ++ message;
           "";
           instructions]%string.

(** [result => ({filename: ..., title: ..., section: ...})] *)
Definition source_of (result : VectorStore.SearchResult) : Source :=
  {| filename := VectorStore.filename (VectorStore.metadata result);
     title := VectorStore.title (VectorStore.metadata result);
     section := VectorStore.section (VectorStore.metadata result) |}.

(** [result.score >= SIMILARITY_THRESHOLD] *)
Definition relevant (result : VectorStore.SearchResult) : bool :=
  Qle_bool SIMILARITY_THRESHOLD (VectorStore.score result).

(** The inner [try] block: the values of [context] and [sources] after
    it.  Both are assigned only after the search has returned, and
    nothing after the search throws. *)
Definition search_context (svc : Services) (message : string)
  : M (string * list Source) :=
  searchResults <- await (CallSearchSimilar message 2)
                         (searchSimilar svc message 2) ;;
  let relevantResults := filter relevant searchResults in
  if (0 <? List.length relevantResults)%nat then
    ret (DocumentProcessor.formatDocumentForRAG relevantResults,
         map source_of relevantResults)
  else ret ("", []).

(** [POST(request)]; [console] output is not part of the model. *)
Definition POST (svc : Services) (request : NextRequest) : M NextResponse :=
  try_catch
    (message <- (fun tr => (json request, tr)) ;;
     if negb (truthy_opt message) then
       ret {| body := ErrorBody "Message is required"; status := 400 |}
     else
       let message := match message with Some m => m | None => "" end in
       cs <- try_catch (search_context svc message)
                       (fun searchError => ret ("", [])) ;;
       let (context, sources) := cs : string * list Source in
       let enhancedPrompt :=
         if truthy context
         then createPromptWithContext context message
         else createPromptWithoutContext message in
       text <- await (CallGenerateText MODEL enhancedPrompt)
                     (generateText svc MODEL enhancedPrompt) ;;
       ret {| body := ChatBody text
                        (if (0 <? List.length sources)%nat
                         then Some sources else None);
              status := 200 |})
    (fun error =>
       ret {| body := ErrorBody "Failed to generate response"; status := 500 |}).

(** Running the handler from an empty trace: the response and the
    calls made, in order. *)
Definition handle (svc : Services) (request : NextRequest)
  : outcome NextResponse * list Call :=
  POST svc request [].

(** Whether the serialised body has a [sources] field. *)
Definition has_sources (r : NextResponse) : bool :=
  match body r with
  | ChatBody _ (Some _) => true
  | _ => false
  end.

End ChatRoute.

(* ================================================================== *)
(** ** src/app/api/chat/route.ts (the variants without a threshold) *)
(* ================================================================== *)

Module ChatRouteUnfiltered.
Import Js ChatRoute.

(** The constant the variant that asks for 5 candidates declares for
    itself. *)
Definition SYSTEM_PROMPT : string :=
  "You are an on-call incident response assistant with access to a knowledge base of incident response procedures (KMAs - Knowledge Management Articles). Your role is to help engineers resolve system incidents by providing accurate, step-by-step guidance based on documented procedures."
  ++ nl ++ nl
  ++ "When responding to incident-related queries:" ++ nl
  ++ "1. Always search your knowledge base first for relevant incident response procedures" ++ nl
  ++ "2. Provide specific, actionable steps from the documented procedures" ++ nl
  ++ "3. Include relevant system information (severity levels, alert thresholds, etc.)" ++ nl
  ++ "4. Reference the source documents for verification" ++ nl
  ++ "5. If no relevant documentation is found, clearly state this and provide general guidance"
  ++ nl ++ nl
  ++ "Be concise, accurate, and focus on getting incidents resolved quickly. Always prioritize safety and following established procedures.".

(** The inner [try] block of both variants: every search result is
    kept. *)
Definition search_context (topK : Z) (svc : Services) (message : string)
  : M (string * list Source) :=
  searchResults <- await (CallSearchSimilar message topK)
                         (searchSimilar svc message topK) ;;
  if (0 <? List.length searchResults)%nat then
    ret (DocumentProcessor.formatDocumentForRAG searchResults,
         map source_of searchResults)
  else ret ("", []).

(** [POST(request)] of the variant that asks for 5 candidates and writes
    its prompts as template literals. *)
Definition POST_top5 (svc : Services) (request : NextRequest) : M NextResponse :=
  try_catch
    (message <- (fun tr => (json request, tr)) ;;
     if negb (truthy_opt message) then
       ret {| body := ErrorBody "Message is required"; status := 400 |}
     else
       let message := match message with Some m => m | None => "" end in
       cs <- try_catch (search_context 5 svc message)
                       (fun searchError => ret ("", [])) ;;
       let (context, sources) := cs : string * list Source in
       let enhancedPrompt :=
         if truthy context
         then SYSTEM_PROMPT ++ nl ++ nl
              ++ context ++ nl ++ nl
              ++ "User Question: " ++ message ++ nl ++ nl
              ++ "Please provide a helpful response based on the above documentation. If the documentation is relevant, reference it in your answer. If not relevant, provide general assistance but mention that no specific incident procedures were found."
         else SYSTEM_PROMPT ++ nl ++ nl
              ++ "User Question: " ++ message ++ nl ++ nl
              ++ "Note: No relevant incident response procedures were found in the knowledge base. Please provide general assistance." in
       text <- await (CallGenerateText MODEL enhancedPrompt)
                     (generateText svc MODEL enhancedPrompt) ;;
       ret {| body := ChatBody text
                        (if (0 <? List.length sources)%nat
                         then Some sources else None);
              status := 200 |})
    (fun error =>
       ret {| body := ErrorBody "Failed to generate response"; status := 500 |}).

(** [POST(request)] of the variant that asks for 1 candidate. *)
Definition POST_top1 (svc : Services) (request : NextRequest) : M NextResponse :=
  try_catch
    (message <- (fun tr => (json request, tr)) ;;
     if negb (truthy_opt message) then
       ret {| body := ErrorBody "Message is required"; status := 400 |}
     else
       let message := match message with Some m => m | None => "" end in
       cs <- try_catch (search_context 1 svc message)
                       (fun searchError => ret ("", [])) ;;
       let (context, sources) := cs : string * list Source in
       let enhancedPrompt :=
         if truthy context
         then createPromptWithContext context message
         else createPromptWithoutContext message in
       text <- await (CallGenerateText MODEL enhancedPrompt)
                     (generateText svc MODEL enhancedPrompt) ;;
       ret {| body := ChatBody text
                        (if (0 <? List.length sources)%nat
                         then Some sources else None);
              status := 200 |})
    (fun error =>
       ret {| body := ErrorBody "Failed to generate response"; status := 500 |}).

End ChatRouteUnfiltered.

(* ================================================================== *)
(** ** Promises, exceptions, and the world outside *)
(* ================================================================== *)

Module Async.

(** How an [await]ed promise settles: with a value, or with the message
    of the [Error] thrown. *)
Inductive promise (A : Type) : Type :=
| Resolved (a : A)
| Rejected (error : string).
Arguments Resolved {A} a.
Arguments Rejected {A} error.

(** A computation over a world [W]: how it settles and the world it
    leaves, or [None] when a loop of it has not ended within its fuel. *)
Definition M (W A : Type) : Type := W -> option (promise A * W).

Definition ret {W A : Type} (a : A) : M W A := fun w => Some (Resolved a, w).

Definition throw {W A : Type} (e : string) : M W A :=
  fun w => Some (Rejected e, w).

Definition bind {W A B : Type} (m : M W A) (k : A -> M W B) : M W B :=
  fun w =>
    match m w with
    | Some (Resolved a, w') => k a w'
    | Some (Rejected e, w') => Some (Rejected e, w')
    | None => None
    end.

(** [try { m } catch (e) { h e }] *)
Definition try_catch {W A : Type} (m : M W A) (h : string -> M W A) : M W A :=
  fun w =>
    match m w with
    | Some (Resolved a, w') => Some (Resolved a, w')
    | Some (Rejected e, w') => h e w'
    | None => None
    end.

(** [try { m } catch (error) { console.error(...); throw error }] *)
Definition rethrowing {W A : Type} (m : M W A) : M W A :=
  try_catch m (fun error => throw error).

Notation "x <~ m ;; k" := (bind m (fun x => k))
  (at level 61, m at next level, right associativity).

End Async.

(* ================================================================== *)
(** ** src/lib/vector-store.ts
       (in this tree its text follows that of document-processor.ts) *)
(* ================================================================== *)

(** The records given to [idx.upsert]. *)
Module Vector.
Record Metadata := {
  filename : string;
  title : string;
  content : string;
  section : string;
  chunkIndex : nat;
  totalChunks : nat
}.
Record t := {
  id : string;
  values : list R;
  metadata : Metadata
}.
End Vector.

(** The entries of [searchResponse.matches]; every property may be
    missing. *)
Module Match.
Record Metadata := {
  filename : option string;
  title : option string;
  content : option string;
  section : option string;
  chunkIndex : option nat;
  totalChunks : option nat
}.
Record t := {
  id : option string;
  score : option Q;
  metadata : option Metadata
}.
End Match.

Module VectorStoreClient.
Import Js Async.

Record VectorDocument := {
  id : string;
  values : list R;
  metadata : VectorStore.ResultMetadata
}.

(** A call that leaves the process: to the Pinecone client, to the
    embedding function, to the file system, to the timer. *)
Inductive Call : Type :=
| NewPinecone (apiKey : string)
| PcIndex (name : string)
| PcListIndexes
| PcCreateIndex (name : string) (dimension : Z) (metric cloud region : string)
| PcDescribeIndex (name : string)
| PcDeleteIndex (name : string)
| IdxUpsert (batch : list Vector.t)
| IdxQuery (vector : list R) (topK : Z) (filter : option string)
| IdxDescribeIndexStats
| IdxDeleteAll
| IdxDeleteMany (filename : string)
| SetTimeout (ms : Z)
| GenerateEmbedding (text : string)
| FsReadFile (path : string)
| FsReaddir (dir : string).

(** What is outside: the environment variable, and how each call
    settles given the calls made before it. *)
Record Services := {
  PINECONE_API_KEY : option string;
  listIndexes : list Call -> promise (option (list string));
  createIndex : list Call -> promise unit;
  describeIndex : list Call -> promise bool;
  deleteIndex_ : list Call -> promise unit;
  upsert : list Call -> list Vector.t -> promise unit;
  query : list Call -> list R -> Z -> option string
          -> promise (option (list Match.t));
  describeIndexStats : list Call -> promise (option Z);
  deleteAll : list Call -> promise unit;
  deleteMany : list Call -> string -> promise unit;
  generateEmbedding : list Call -> string -> promise (list R);
  readFile : list Call -> string -> promise string;
  readdir : list Call -> string -> promise (list string);
  path_join : string -> string -> string;
  path_basename : string -> string
}.

(** The module variables [pinecone] and [index] (set or [null]) and the
    calls made so far. *)
Record World := {
  pinecone : bool;
  index : bool;
  calls : list Call
}.

(** [await] of a call: the call is recorded, and settles as the
    services say. *)
Definition call {A : Type} (c : Call) (settle : list Call -> promise A)
  : M World A :=
  fun w => Some (settle (calls w),
                 {| pinecone := pinecone w; index := index w;
                    calls := (calls w ++ [c])%list |}).

Definition INDEX_NAME : string := "kma-documents".

Section Client.
Variable svc : Services.

(** [getPinecone()] *)
Definition getPinecone : M World unit :=
  fun w =>
    if negb (pinecone w) then
      let apiKey := PINECONE_API_KEY svc in
      if negb (truthy_opt apiKey) then
        throw "PINECONE_API_KEY environment variable is not set" w
      else
        let apiKey := match apiKey with Some k => k | None => "" end in
        Some (Resolved tt,
              {| pinecone := true; index := index w;
                 calls := (calls w ++ [NewPinecone apiKey])%list |})
    else ret tt w.

(** [getIndex()] *)
Definition getIndex : M World unit :=
  fun w =>
    if negb (index w) then
      (_ <~ getPinecone ;;
       fun w' => Some (Resolved tt,
                       {| pinecone := pinecone w'; index := true;
                          calls := (calls w' ++ [PcIndex INDEX_NAME])%list |})) w
    else ret tt w.

(** [indexList.indexes?.some(idx => idx.name === INDEX_NAME)], as the
    condition [!indexExists] reads it. *)
Definition index_exists (indexes : option (list string)) : bool :=
  match indexes with
  | Some names => existsb (String.eqb INDEX_NAME) names
  | None => false
  end.

(** The loop [while (!ready)] of [initializeIndex]. *)
Fixpoint wait_until_ready (fuel : nat) : M World unit :=
  match fuel with
  | O => fun _ => None
  | S fuel' =>
      ready <~ try_catch
                 (ready <~ call (PcDescribeIndex INDEX_NAME) (describeIndex svc) ;;
                  if negb ready then
                    _ <~ call (SetTimeout 1000) (fun _ => Resolved tt) ;;
                    ret ready
                  else ret ready)
                 (fun error =>
                    _ <~ call (SetTimeout 2000) (fun _ => Resolved tt) ;;
                    ret false) ;;
      if negb ready then wait_until_ready fuel' else ret tt
  end.

(** [initializeIndex()] *)
Definition initializeIndex (fuel : nat) : M World unit :=
  rethrowing
    (_ <~ getPinecone ;;
     indexList <~ call PcListIndexes (listIndexes svc) ;;
     let indexExists := index_exists indexList in
     _ <~ (if negb indexExists then
             _ <~ call (PcCreateIndex INDEX_NAME 1536 "cosine" "aws" "us-east-1")
                       (createIndex svc) ;;
             wait_until_ready fuel
           else ret tt) ;;
     getIndex).

(** [doc => ({id: ..., values: ..., metadata: {...}})] of
    [upsertDocuments]. *)
Definition to_vector (doc : VectorDocument) : Vector.t :=
  {| Vector.id := id doc;
     Vector.values := values doc;
     Vector.metadata :=
       {| Vector.filename := VectorStore.filename (metadata doc);
          Vector.title := VectorStore.title (metadata doc);
          Vector.content := VectorStore.content (metadata doc);
          Vector.section :=
            match VectorStore.section (metadata doc) with
            | Some s => if truthy s then s else ""
            | None => ""
            end;
          Vector.chunkIndex := VectorStore.chunkIndex (metadata doc);
          Vector.totalChunks := VectorStore.totalChunks (metadata doc) |} |}.

(** The loop [for (let i = 0; i < vectors.length; i += batchSize)] of
    [upsertDocuments]. *)
Fixpoint upsert_batches (fuel : nat) (vectors : list Vector.t)
         (batchSize i : Z) : M World unit :=
  match fuel with
  | O => fun _ => None
  | S fuel' =>
      if (i <? Z.of_nat (List.length vectors))%Z then
        let batch := slice vectors i (i + batchSize) in
        _ <~ call (IdxUpsert batch) (fun h => upsert svc h batch) ;;
        upsert_batches fuel' vectors batchSize (i + batchSize)
      else ret tt
  end.

(** [upsertDocuments(documents)] *)
Definition upsertDocuments (documents : list VectorDocument) : M World unit :=
  rethrowing
    (_ <~ getIndex ;;
     let vectors := map to_vector documents in
     let batchSize := 100%Z in
     upsert_batches (S (List.length vectors)) vectors batchSize 0).

(** [x || ''] and [x || 0] on a property that may be missing. *)
Definition or_empty (x : option string) : string :=
  match x with
  | Some s => s
  | None => ""
  end.

Definition or_zero (x : option nat) : nat :=
  match x with
  | Some n => n
  | None => 0
  end.

(** [match => ({id: ..., score: ..., metadata: {...}})] of
    [searchSimilar]; [m.metadata?.p] is [undefined] when [m.metadata]
    is. *)
Definition to_result (m : Match.t) : VectorStore.SearchResult :=
  let field {A : Type} (p : Match.Metadata -> option A) : option A :=
    match Match.metadata m with
    | Some md => p md
    | None => None
    end in
  {| VectorStore.id := or_empty (Match.id m);
     VectorStore.score := match Match.score m with
                          | Some s => s
                          | None => 0%Q
                          end;
     VectorStore.metadata :=
       {| VectorStore.filename := or_empty (field Match.filename);
          VectorStore.title := or_empty (field Match.title);
          VectorStore.content := or_empty (field Match.content);
          VectorStore.section :=
            match field Match.section with
            | Some s => if truthy s then Some s else None
            | None => None
            end;
          VectorStore.chunkIndex := or_zero (field Match.chunkIndex);
          VectorStore.totalChunks := or_zero (field Match.totalChunks) |} |}.

(** [searchSimilar(query, topK, filter)] *)
Definition searchSimilar (query_ : string) (topK : Z) (filter : option string)
  : M World (list VectorStore.SearchResult) :=
  rethrowing
    (queryEmbedding <~ call (GenerateEmbedding query_)
                            (fun h => generateEmbedding svc h query_) ;;
     _ <~ getIndex ;;
     matches <~ call (IdxQuery queryEmbedding topK filter)
                     (fun h => query svc h queryEmbedding topK filter) ;;
     let results := match matches with
                    | Some ms => map to_result ms
                    | None => []
                    end in
     ret results).

(** [deleteAllDocuments()] *)
Definition deleteAllDocuments : M World unit :=
  try_catch
    (_ <~ getIndex ;;
     stats <~ call IdxDescribeIndexStats (describeIndexStats svc) ;;
     let totalVectorCount := match stats with Some n => n | None => 0%Z end in
     if (totalVectorCount >? 0)%Z then call IdxDeleteAll (deleteAll svc)
     else ret tt)
    (fun error =>
       if string_includes "404" error then ret tt
       else throw error).

(** [deleteDocumentsByFilename(filename)] *)
Definition deleteDocumentsByFilename (filename : string) : M World unit :=
  rethrowing
    (_ <~ getIndex ;;
     call (IdxDeleteMany filename) (fun h => deleteMany svc h filename)).

(** [deleteIndex()] *)
Definition deleteIndex : M World unit :=
  rethrowing
    (_ <~ getPinecone ;;
     indexList <~ call PcListIndexes (listIndexes svc) ;;
     let indexExists := index_exists indexList in
     if indexExists then
       _ <~ call (PcDeleteIndex INDEX_NAME) (deleteIndex_ svc) ;;
       fun w => Some (Resolved tt,
                      {| pinecone := pinecone w; index := false;
                         calls := calls w |})
     else ret tt).

End Client.
End VectorStoreClient.

(* ================================================================== *)
(** ** src/lib/document-processor.ts (loading and processing) *)
(* ================================================================== *)

Module KMA.
Import Js Async.

Record Metadata := {
  alertType : option string;
  severity : option string;
  system : option string;
  alertDuration : option string;
  scope : option string
}.

Record KMADocument := {
  filename : string;
  title : string;
  content : string;
  metadata : Metadata
}.

Record ProcessedDocument := {
  document : KMADocument;
  chunks : list VectorStoreClient.VectorDocument
}.

(** The characters of [lit], then [k]. *)
Fixpoint literal {A : Type} (lit : string) (k : string -> option A) (s : string)
  : option A :=
  match lit with
  | EmptyString => k s
  | String a lit' =>
      match s with
      | String b s' => if Ascii.eqb a b then literal lit' k s' else None
      | EmptyString => None
      end
  end.

(** The leftmost match of a pattern without anchor. *)
Fixpoint search_anywhere {A : Type} (m : string -> option A) (s : string)
  : option A :=
  match m s with
  | Some r => Some r
  | None =>
      match s with
      | String _ s' => search_anywhere m s'
      | EmptyString => None
      end
  end.

(** [content.match(/label\s*(.+)/)], then [match[1].trim()] when there
    is a match. *)
Definition labelled (label content : string) : option string :=
  match search_anywhere
          (literal label (Embeddings.spaces_star Embeddings.dots_plus)) content with
  | Some group1 => Some (trim group1)
  | None => None
  end.

(** [extractMetadataFromContent(content)] *)
Definition extractMetadataFromContent (content : string) : Metadata :=
  {| alertType := None;
     severity := labelled "**Severity**:" content;
     system := labelled "**System**:" content;
     alertDuration := labelled "**Alert Duration**:" content;
     scope := labelled "**Scope**:" content |}.

(** [/^#\s+(.+)/m] tried at the head of [s], itself at the start of a
    line: capture group 1. *)
Definition h1_here (s : string) : option string :=
  match s with
  | String "#"%char s' => Embeddings.spaces_plus Embeddings.dots_plus s'
  | _ => None
  end.

(** [content.match(/^#\s+(.+)/m)]: capture group 1 of the leftmost
    match. *)
Fixpoint h1_search (line_start : bool) (s : string) : option string :=
  match (if line_start then h1_here s else None) with
  | Some t => Some t
  | None =>
      match s with
      | String c s' => h1_search (is_line_terminator c) s'
      | EmptyString => None
      end
  end.

(** [s.replace(/\.md$/, '')] *)
Fixpoint strip_md (s : string) : string :=
  match s with
  | EmptyString => EmptyString
  | String c s' => if String.eqb s ".md" then EmptyString else String c (strip_md s')
  end.

(** [s.replace(/_/g, ' ')] *)
Fixpoint underscores_to_spaces (s : string) : string :=
  match s with
  | EmptyString => EmptyString
  | String c s' =>
      String (if Ascii.eqb c "_" then " "%char else c) (underscores_to_spaces s')
  end.

(** The class [\w]. *)
Definition is_word (c : ascii) : bool :=
  let n := nat_of_ascii c in
  (((48 <=? n) && (n <=? 57)) || ((65 <=? n) && (n <=? 90))
   || (n =? 95) || ((97 <=? n) && (n <=? 122)))%nat.

(** [l.toUpperCase()] for a character of [\w]. *)
Definition toUpperCase (c : ascii) : ascii :=
  let n := nat_of_ascii c in
  if ((97 <=? n) && (n <=? 122))%nat then ascii_of_nat (n - 32) else c.

(** [s.replace(/\b\w/g, l => l.toUpperCase())]: a word character is
    replaced when the character before it is not one; [prev_word] tells
    whether the character before [s] is a word character. *)
Fixpoint capitalize_from (prev_word : bool) (s : string) : string :=
  match s with
  | EmptyString => EmptyString
  | String c s' =>
      String (if is_word c && negb prev_word then toUpperCase c else c)
             (capitalize_from (is_word c) s')
  end.

Definition capitalize (s : string) : string := capitalize_from false s.

(** [extractTitleFromContent(content, filename)] *)
Definition extractTitleFromContent (content filename : string) : string :=
  match h1_search true content with
  | Some group1 => trim group1
  | None => capitalize (underscores_to_spaces (strip_md filename))
  end.

(** [extractAlertType(filename, content)] *)
Definition extractAlertType (filename content : string) : string :=
  let filenameParts := split "_"%char (strip_md filename) in
  if (2 <? List.length filenameParts)%nat then
    capitalize (join " " (slice filenameParts 1 (Z.of_nat (List.length filenameParts))))
  else
    match h1_search true content with
    | Some group1 => trim group1
    | None => "Unknown Alert Type"
    end.

Section Loading.
Variable svc : VectorStoreClient.Services.

(** [loadKMADocument(filePath)] *)
Definition loadKMADocument (filePath : string)
  : M VectorStoreClient.World KMADocument :=
  rethrowing
    (content <~ VectorStoreClient.call
                  (VectorStoreClient.FsReadFile filePath)
                  (fun h => VectorStoreClient.readFile svc h filePath) ;;
     let filename := VectorStoreClient.path_basename svc filePath in
     let title := extractTitleFromContent content filename in
     let alertType := extractAlertType filename content in
     let metadata := extractMetadataFromContent content in
     let metadata := {| alertType := Some alertType;
                        severity := severity metadata;
                        system := system metadata;
                        alertDuration := alertDuration metadata;
                        scope := scope metadata |} in
     ret {| filename := filename;
            title := title;
            content := content;
            metadata := metadata |}).

(** The loop [for (const chunk of documentChunks)] of
    [processKMADocument]. *)
Fixpoint embed_chunks (documentChunks : list Embeddings.DocumentChunk)
         (vectorDocuments : list VectorStoreClient.VectorDocument)
  : M VectorStoreClient.World (list VectorStoreClient.VectorDocument) :=
  match documentChunks with
  | [] => ret vectorDocuments
  | chunk :: rest =>
      embedding <~ VectorStoreClient.call
                     (VectorStoreClient.GenerateEmbedding (Embeddings.content chunk))
                     (fun h => VectorStoreClient.generateEmbedding
                                 svc h (Embeddings.content chunk)) ;;
      embed_chunks rest
        (vectorDocuments
           ++ [{| VectorStoreClient.id := Embeddings.id chunk;
                  VectorStoreClient.values := embedding;
                  VectorStoreClient.metadata :=
                    {| VectorStore.filename :=
                         Embeddings.filename (Embeddings.metadata chunk);
                       VectorStore.title :=
                         Embeddings.title (Embeddings.metadata chunk);
                       VectorStore.content := Embeddings.content chunk;
                       VectorStore.section :=
                         Embeddings.section (Embeddings.metadata chunk);
                       VectorStore.chunkIndex :=
                         Embeddings.chunkIndex (Embeddings.metadata chunk);
                       VectorStore.totalChunks :=
                         Embeddings.totalChunks (Embeddings.metadata chunk) |} |}])%list
  end.

(** [processKMADocument(document)] *)
Definition processKMADocument (document : KMADocument)
  : M VectorStoreClient.World ProcessedDocument :=
  rethrowing
    (match Embeddings.createDocumentChunks
             (content document) (filename document) (title document) with
     | None => fun _ => None
     | Some documentChunks =>
         vectorDocuments <~ embed_chunks documentChunks [] ;;
         ret {| document := document; chunks := vectorDocuments |}
     end).

(** The loop [for (const file of files)] of [loadAllKMADocuments]. *)
Fixpoint load_files (kmaDir : string) (files : list string)
         (documents : list KMADocument)
  : M VectorStoreClient.World (list KMADocument) :=
  match files with
  | [] => ret documents
  | file :: rest =>
      if endsWith ".md" file then
        let filePath := VectorStoreClient.path_join svc kmaDir file in
        document <~ loadKMADocument filePath ;;
        load_files kmaDir rest (documents ++ [document])%list
      else load_files kmaDir rest documents
  end.

(** [loadAllKMADocuments(kmaDir)] *)
Definition loadAllKMADocuments (kmaDir : string)
  : M VectorStoreClient.World (list KMADocument) :=
  rethrowing
    (files <~ VectorStoreClient.call
                (VectorStoreClient.FsReaddir kmaDir)
                (fun h => VectorStoreClient.readdir svc h kmaDir) ;;
     load_files kmaDir files []).

(** The loop [for (const document of documents)] of
    [processAllKMADocuments]. *)
Fixpoint process_documents (documents : list KMADocument)
         (processedDocuments : list ProcessedDocument)
  : M VectorStoreClient.World (list ProcessedDocument) :=
  match documents with
  | [] => ret processedDocuments
  | document :: rest =>
      processed <~ processKMADocument document ;;
      process_documents rest (processedDocuments ++ [processed])%list
  end.

(** [processAllKMADocuments(kmaDir)] *)
Definition processAllKMADocuments (kmaDir : string)
  : M VectorStoreClient.World (list ProcessedDocument) :=
  rethrowing
    (documents <~ loadAllKMADocuments kmaDir ;;
     process_documents documents []).

End Loading.
End KMA.

(* ================================================================== *)
(** ** src/app/api/index-documents/route.ts *)
(* ================================================================== *)

Module IndexRoute.
Import Js Async.

(** The body [{reindex?, forceRecreate?}]; a body that cannot be read
    or, as [null], cannot be destructured, is a rejected [json]. *)
Record RequestBody := {
  reindex : option bool;
  forceRecreate : option bool
}.

Record NextRequest := {
  json : promise RequestBody
}.

Record DocumentStat := {
  filename : string;
  title : string;
  alertType : option string;
  chunks : nat
}.

Record Stats := {
  totalDocuments : nat;
  totalChunks : nat;
  documents : list DocumentStat
}.

Inductive Body : Type :=
| Success (message : string) (stats : Stats)
| Failure (error details : string).

Record NextResponse := {
  body : Body;
  status : Z
}.

(** The functions of the library the handler calls, in the log of the
    handler. *)
Inductive Invocation : Type :=
| DeleteIndex
| InitializeIndex
| DeleteAllDocuments
| ProcessAllKMADocuments
| UpsertDocuments (documents : list VectorStoreClient.VectorDocument).

Section Route.
Context {W : Type}.

(** The imported functions, whatever they do to their world. *)
Variables deleteIndex initializeIndex deleteAllDocuments : M W unit.
Variable processAllKMADocuments : M W (list KMA.ProcessedDocument).
Variable upsertDocuments : list VectorStoreClient.VectorDocument -> M W unit.

(** [await f(...)]: the invocation is logged, and [f] runs. *)
Definition invoke {A : Type} (i : Invocation) (m : M W A)
  : M (list Invocation * W) A :=
  fun lw =>
    match m (snd lw) with
    | Some (r, w') => Some (r, ((fst lw ++ [i])%list, w'))
    | None => None
    end.

(** [x = false] as a default of the destructuring. *)
Definition or_false (x : option bool) : bool :=
  match x with
  | Some b => b
  | None => false
  end.

(** [POST(request)] *)
Definition POST (request : NextRequest) : M (list Invocation * W) NextResponse :=
  try_catch
    (parsed <~ (fun lw => Some (json request, lw)) ;;
     let reindex := or_false (reindex parsed) in
     let forceRecreate := or_false (forceRecreate parsed) in
     _ <~ (if forceRecreate then invoke DeleteIndex deleteIndex else ret tt) ;;
     _ <~ invoke InitializeIndex initializeIndex ;;
     _ <~ (if reindex && negb forceRecreate
           then invoke DeleteAllDocuments deleteAllDocuments
           else ret tt) ;;
     processedDocuments <~ invoke ProcessAllKMADocuments processAllKMADocuments ;;
     let allChunks := flat_map KMA.chunks processedDocuments in
     _ <~ invoke (UpsertDocuments allChunks) (upsertDocuments allChunks) ;;
     let documentStats :=
       {| totalDocuments := List.length processedDocuments;
          totalChunks := List.length allChunks;
          documents :=
            map (fun doc =>
                   {| filename := KMA.filename (KMA.document doc);
                      title := KMA.title (KMA.document doc);
                      alertType := KMA.alertType (KMA.metadata (KMA.document doc));
                      chunks := List.length (KMA.chunks doc) |})
                processedDocuments |} in
     ret {| body := Success "Documents indexed successfully" documentStats;
            status := 200 |})
    (fun error =>
       ret {| body := Failure "Failed to index documents" error;
              status := 500 |}).

End Route.

(** The handler with the functions it imports from the library;
    [processAllKMADocuments()] takes its default directory. *)
Definition POST_with_library (svc : VectorStoreClient.Services) (fuel : nat)
           (request : NextRequest)
  : M (list Invocation * VectorStoreClient.World) NextResponse :=
  POST (VectorStoreClient.deleteIndex svc)
       (VectorStoreClient.initializeIndex svc fuel)
       (VectorStoreClient.deleteAllDocuments svc)
       (KMA.processAllKMADocuments svc "public/docs/kma")
       (VectorStoreClient.upsertDocuments svc)
       request.

End IndexRoute.

Import Js.

(* ================================================================== *)
(** ** Vocabulary of the statements *)
(* ================================================================== *)

Import Embeddings.


(** No character of [s] is [c]. *)
Fixpoint free_of (c : ascii) (s : string) : Prop :=
  match s with
  | EmptyString => True
  | String d s' => d <> c /\ free_of c s'
  end.

(** [text] is text chunk number [c] of section number [s]: what
    [chunkText] returns at index [c] for the trimmed section at index [s]. *)
Definition text_chunk_at (sections : list string) (s c : nat) (text : string)
  : Prop :=
  exists section textChunks,
    nth_error sections s = Some section
    /\ chunkText (trim section) 500 50 = Some textChunks
    /\ nth_error textChunks c = Some text.

(** A chunk and its pair of ordinals [t]: the id is made of the file name
    and the pair, and [Q] holds of the pair and the content. *)
Definition placed (filename : string) (Q : nat -> nat -> string -> Prop)
           (chunk : DocumentChunk) (t : nat * nat) : Prop :=
  id chunk = chunk_id filename (fst t) (snd t)
  /\ Q (fst t) (snd t) (content chunk).

(** The window of [chunkSize] words of [ws] that starts at word [start]. *)
Definition window (ws : list string) (chunkSize start : nat) : list string :=
  firstn chunkSize (skipn start ws).

(** [needles] occur in [hay] one after the other, without overlapping. *)
Fixpoint occurs_in_order (needles : list string) (hay : string) : Prop :=
  match needles with
  | [] => True
  | n :: rest =>
      exists before after : string,
        hay = before ++ n ++ after /\ occurs_in_order rest after
  end.

(** [p] is a prefix of [s]. *)
Fixpoint starts_with (p s : string) : bool :=
  match p, s with
  | EmptyString, _ => true
  | String a p', String b s' => Ascii.eqb a b && starts_with p' s'
  | String _ _, EmptyString => false
  end.

(** [hay.includes(needle)] *)
Fixpoint includes (needle hay : string) : bool :=
  starts_with needle hay
  || match hay with
     | EmptyString => false
     | String _ hay' => includes needle hay'
     end.

(** The heading line of a result's section, marker and line end left
    out: there is one when [section] is a string that is not empty. *)
Definition section_heading (result : VectorStore.SearchResult) : list string :=
  match VectorStore.section (VectorStore.metadata result) with
  | Some s => if truthy s then [("### " ++ s)%string] else []
  | None => []
  end.

(** What the formatted context must show of one result, in this order:
    title, section heading if any, content, source marker. *)
Definition shown (result : VectorStore.SearchResult) : list string :=
  ([VectorStore.title (VectorStore.metadata result)]
   ++ section_heading result
   ++ [VectorStore.content (VectorStore.metadata result);
       ("*Source: " ++ VectorStore.filename (VectorStore.metadata result)
                    ++ "*")%string])%list.

(** A search result whose [section] field is present and empty. *)
Definition result_with_empty_section : VectorStore.SearchResult :=
  {| VectorStore.id := "f.md_0_0";
     VectorStore.score := 0.9%Q;
     VectorStore.metadata :=
       {| VectorStore.filename := "f.md";
          VectorStore.title := "T";
          VectorStore.content := "c";
          VectorStore.section := Some "";
          VectorStore.chunkIndex := 0;
          VectorStore.totalChunks := 1 |} |}.

(** Services of which the search finds [result_with_empty_section], whose
    score is 0.9, and the language model fails. *)
Definition services_model_down : ChatRoute.Services :=
  {| ChatRoute.searchSimilar := fun _ _ => ChatRoute.Returns [result_with_empty_section];
     ChatRoute.generateText := fun _ _ => ChatRoute.Throws "model down" |}.

(** Services of which both the search and the language model fail. *)
Definition services_all_down : ChatRoute.Services :=
  {| ChatRoute.searchSimilar := fun _ _ => ChatRoute.Throws "index down";
     ChatRoute.generateText := fun _ _ => ChatRoute.Throws "model down" |}.

(** Services of which the search fails and the language model answers. *)
Definition services_search_down : ChatRoute.Services :=
  {| ChatRoute.searchSimilar := fun _ _ => ChatRoute.Throws "index down";
     ChatRoute.generateText := fun _ _ => ChatRoute.Returns "Restart the consumer." |}.

(** Services of which the search finds [result_with_empty_section] and the
    language model answers. *)
Definition services_up : ChatRoute.Services :=
  {| ChatRoute.searchSimilar := fun _ _ => ChatRoute.Returns [result_with_empty_section];
     ChatRoute.generateText := fun _ _ => ChatRoute.Returns "Restart the consumer." |}.

(** The request whose body is [{message: m}]. *)
Definition request_with (m : string) : ChatRoute.NextRequest :=
  {| ChatRoute.json := ChatRoute.Returns (Some m) |}.

(** [piece] occurs in [whole], character for character. *)
Definition occurs_in (piece whole : string) : Prop :=
  exists before after : string, whole = before ++ piece ++ after.

(** The chunk [forEach_textChunk] pushes for the text chunk [chunk], when
    [index] chunks have been pushed before it. *)
Definition pushed_chunk (filename title : string) (sectionTitle : option string)
           (sectionIndex chunkIndex : nat) (chunk : string) (index : nat)
  : DocumentChunk :=
  {| id := chunk_id filename sectionIndex chunkIndex;
     content := chunk;
     metadata := {| filename := filename;
                    title := title;
                    section := sectionTitle;
                    chunkIndex := index;
                    totalChunks := 0 |} |}.

(** Every character of [s] is whitespace. *)
Fixpoint blank (s : string) : Prop :=
  match s with
  | EmptyString => True
  | String c s' => is_whitespace c = true /\ blank s'
  end.

(** The heading lines of the results, numbered from [index + 1]. *)
Fixpoint numbered_headings (index : nat)
         (results : list VectorStore.SearchResult) : list string :=
  match results with
  | [] => []
  | result :: rest =>
      ("## Document " ++ string_of_nat (index + 1) ++ ": "
       ++ VectorStore.title (VectorStore.metadata result) ++ nl)%string
      :: numbered_headings (S index) rest
  end.

(** A search result that scores 0.2. *)
Definition result_scoring_low : VectorStore.SearchResult :=
  {| VectorStore.id := "g.md_0_0";
     VectorStore.score := 0.2%Q;
     VectorStore.metadata :=
       {| VectorStore.filename := "g.md";
          VectorStore.title := "G";
          VectorStore.content := "unrelated";
          VectorStore.section := Some "Intro";
          VectorStore.chunkIndex := 0;
          VectorStore.totalChunks := 1 |} |}.

(** Services of which the search finds [result_scoring_low] only and the
    language model answers. *)
Definition services_low_score : ChatRoute.Services :=
  {| ChatRoute.searchSimilar := fun _ _ => ChatRoute.Returns [result_scoring_low];
     ChatRoute.generateText := fun _ _ => ChatRoute.Returns "Restart the consumer." |}.

(** The match the store returns for a vector it holds: the id and the
    metadata as they were upserted, with the score [score]. *)
Definition stored_match (v : Vector.t) (score : Q) : Match.t :=
  {| Match.id := Some (Vector.id v);
     Match.score := Some score;
     Match.metadata :=
       Some {| Match.filename := Some (Vector.filename (Vector.metadata v));
               Match.title := Some (Vector.title (Vector.metadata v));
               Match.content := Some (Vector.content (Vector.metadata v));
               Match.section := Some (Vector.section (Vector.metadata v));
               Match.chunkIndex := Some (Vector.chunkIndex (Vector.metadata v));
               Match.totalChunks := Some (Vector.totalChunks (Vector.metadata v)) |} |}.

(** A section, the empty string read as a missing one. *)
Definition section_or_missing (section : option string) : option string :=
  match section with
  | Some s => if truthy s then Some s else None
  | None => None
  end.

(** [l] is made of the first elements of [l']. *)
Definition prefix_of {A : Type} (l l' : list A) : Prop :=
  exists rest : list A, l' = (l ++ rest)%list.


(** The calls that make the client or the handle of the index. *)
Definition connects (c : VectorStoreClient.Call) : bool :=
  match c with
  | VectorStoreClient.NewPinecone _ | VectorStoreClient.PcIndex _ => true
  | _ => false
  end.

(** The calls that change what the store holds. *)
Definition writes (c : VectorStoreClient.Call) : bool :=
  match c with
  | VectorStoreClient.PcCreateIndex _ _ _ _ _
  | VectorStoreClient.PcDeleteIndex _
  | VectorStoreClient.IdxUpsert _
  | VectorStoreClient.IdxDeleteAll
  | VectorStoreClient.IdxDeleteMany _ => true
  | _ => false
  end.

(** How many times [describeIndex] was called in a history. *)
Fixpoint polls (h : list VectorStoreClient.Call) : nat :=
  match h with
  | [] => 0
  | VectorStoreClient.PcDescribeIndex _ :: h' => S (polls h')
  | _ :: h' => polls h'
  end.

(** Rounds of the wait for the index: a poll, then a pause of so many
    milliseconds. *)
Definition waits (delays : list Z) : list VectorStoreClient.Call :=
  flat_map (fun ms => [VectorStoreClient.PcDescribeIndex VectorStoreClient.INDEX_NAME;
                       VectorStoreClient.SetTimeout ms])
           delays.

(** A store with an API key and no index yet, whose [describeIndex]
    fails on the first poll, reports the index as not ready on the
    second, and as ready from the third on; every other call
    succeeds. *)
Definition store_getting_ready : VectorStoreClient.Services :=
  {| VectorStoreClient.PINECONE_API_KEY := Some "key";
     VectorStoreClient.listIndexes := fun _ => Async.Resolved (Some []);
     VectorStoreClient.createIndex := fun _ => Async.Resolved tt;
     VectorStoreClient.describeIndex :=
       fun h => match polls h with
                | 0 => Async.Rejected "index not found"
                | 1 => Async.Resolved false
                | _ => Async.Resolved true
                end;
     VectorStoreClient.deleteIndex_ := fun _ => Async.Resolved tt;
     VectorStoreClient.upsert := fun _ _ => Async.Resolved tt;
     VectorStoreClient.query := fun _ _ _ _ => Async.Resolved None;
     VectorStoreClient.describeIndexStats := fun _ => Async.Resolved (Some 0%Z);
     VectorStoreClient.deleteAll := fun _ => Async.Resolved tt;
     VectorStoreClient.deleteMany := fun _ _ => Async.Resolved tt;
     VectorStoreClient.generateEmbedding := fun _ _ => Async.Resolved [];
     VectorStoreClient.readFile := fun _ _ => Async.Resolved "";
     VectorStoreClient.readdir := fun _ _ => Async.Resolved [];
     VectorStoreClient.path_join := fun dir file => (dir ++ "/" ++ file)%string;
     VectorStoreClient.path_basename := fun path => path |}.

(** The world of a process that has made no call yet. *)
Definition fresh_world : VectorStoreClient.World :=
  {| VectorStoreClient.pinecone := false;
     VectorStoreClient.index := false;
     VectorStoreClient.calls := [] |}.

(** The vector document [processKMADocument] makes of a chunk carries the
    chunk: its id, its content and its metadata. *)
Definition carries (vectorDocument : VectorStoreClient.VectorDocument)
           (chunk : DocumentChunk) : Prop :=
  VectorStoreClient.id vectorDocument = id chunk
  /\ VectorStore.content (VectorStoreClient.metadata vectorDocument) = content chunk
  /\ VectorStore.filename (VectorStoreClient.metadata vectorDocument)
     = filename (metadata chunk)
  /\ VectorStore.title (VectorStoreClient.metadata vectorDocument)
     = title (metadata chunk)
  /\ VectorStore.section (VectorStoreClient.metadata vectorDocument)
     = section (metadata chunk)
  /\ VectorStore.chunkIndex (VectorStoreClient.metadata vectorDocument)
     = chunkIndex (metadata chunk)
  /\ VectorStore.totalChunks (VectorStoreClient.metadata vectorDocument)
     = totalChunks (metadata chunk).

(** The document [loadKMADocument] makes of the file at [filePath],
    whose text is [content]. *)
Definition loaded_from (svc : VectorStoreClient.Services)
           (document : KMA.KMADocument) (filePath content : string) : Prop :=
  KMA.filename document = VectorStoreClient.path_basename svc filePath
  /\ KMA.content document = content
  /\ KMA.title document
     = KMA.extractTitleFromContent content (KMA.filename document)
  /\ KMA.alertType (KMA.metadata document)
     = Some (KMA.extractAlertType (KMA.filename document) content).

(** The values of a vector document are an embedding the service gave
    for its content. *)
Definition embedded_by (svc : VectorStoreClient.Services)
           (vectorDocument : VectorStoreClient.VectorDocument) : Prop :=
  exists h : list VectorStoreClient.Call,
    VectorStoreClient.generateEmbedding svc h
      (VectorStore.content (VectorStoreClient.metadata vectorDocument))
    = Async.Resolved (VectorStoreClient.values vectorDocument).

(** A store whose embedding service is [generateEmbedding] of
    [embeddings.ts]; every other call succeeds, and nothing is stored. *)
Definition store_hashing : VectorStoreClient.Services :=
  {| VectorStoreClient.PINECONE_API_KEY := Some "key";
     VectorStoreClient.listIndexes := fun _ => Async.Resolved (Some []);
     VectorStoreClient.createIndex := fun _ => Async.Resolved tt;
     VectorStoreClient.describeIndex := fun _ => Async.Resolved true;
     VectorStoreClient.deleteIndex_ := fun _ => Async.Resolved tt;
     VectorStoreClient.upsert := fun _ _ => Async.Resolved tt;
     VectorStoreClient.query := fun _ _ _ _ => Async.Resolved None;
     VectorStoreClient.describeIndexStats := fun _ => Async.Resolved None;
     VectorStoreClient.deleteAll := fun _ => Async.Resolved tt;
     VectorStoreClient.deleteMany := fun _ _ => Async.Resolved tt;
     VectorStoreClient.generateEmbedding :=
       fun _ text => Async.Resolved (generateEmbedding text);
     VectorStoreClient.readFile := fun _ _ => Async.Resolved "";
     VectorStoreClient.readdir := fun _ _ => Async.Resolved [];
     VectorStoreClient.path_join := fun dir file => (dir ++ "/" ++ file)%string;
     VectorStoreClient.path_basename := fun path => path |}.

(** No character of [s] is a line terminator. *)
Fixpoint single_line (s : string) : Prop :=
  match s with
  | EmptyString => True
  | String c s' => is_line_terminator c = false /\ single_line s'
  end.

(** Some occurrence of [label] in [content] is followed, after
    whitespace if any, by a character that is not a line terminator. *)
Definition label_followed (label content : string) : Prop :=
  exists (before skipped : string) (c : ascii) (rest : string),
    content = before ++ label ++ skipped ++ String c rest
    /\ blank skipped /\ is_line_terminator c = false.

(** What [extractMetadataFromContent] puts in the field of [label]:
    nothing exactly when no occurrence of the label is followed by text,
    and otherwise a trimmed piece of one line of what follows an
    occurrence of the label in [content]. *)
Definition field_of (label content : string) (field : option string) : Prop :=
  (field = None <-> ~ label_followed label content)
  /\ forall value : string,
       field = Some value ->
       trim value = value /\ single_line value
       /\ exists before after : string,
            content = before ++ label ++ after /\ occurs_in value after.

(** Whether the position after [before] starts a line, when the position
    before it does as [line_start] says. *)
Fixpoint line_start_after (line_start : bool) (before : string) : bool :=
  match before with
  | EmptyString => line_start
  | String c before' => line_start_after (is_line_terminator c) before'
  end.

(** Some line of [content] starts with [#], then whitespace (line ends
    included), then a character that is not a line terminator. *)
Definition has_h1 (content : string) : Prop :=
  exists (before skipped : string) (c : ascii) (rest : string),
    content = before ++ "#" ++ skipped ++ String c rest
    /\ line_start_after true before = true
    /\ skipped <> "" /\ blank skipped /\ is_line_terminator c = false.

(** The documents are those [loadKMADocument] makes of the files at
    [paths], read one after the other from the history [h] on: each
    has as content the text [readFile] resolved with for its path. *)
Fixpoint loaded_in_turn (svc : VectorStoreClient.Services)
         (h : list VectorStoreClient.Call)
         (documents : list KMA.KMADocument) (paths : list string) : Prop :=
  match documents, paths with
  | [], [] => True
  | document :: documents', filePath :: paths' =>
      (exists content : string,
          VectorStoreClient.readFile svc h filePath = Async.Resolved content
          /\ loaded_from svc document filePath content)
      /\ loaded_in_turn svc (h ++ [VectorStoreClient.FsReadFile filePath])%list
                        documents' paths'
  | _, _ => False
  end.

(** The pauses of the wait for the index, from the history [h] on: 1000
    ms after a poll that resolved with an index that is not ready, 2000
    ms after a poll that was rejected. *)
Fixpoint waited (svc : VectorStoreClient.Services)
         (h : list VectorStoreClient.Call) (delays : list Z) : Prop :=
  match delays with
  | [] => True
  | ms :: delays' =>
      ((VectorStoreClient.describeIndex svc h = Async.Resolved false
        /\ ms = 1000%Z)
       \/ (exists e : string,
              VectorStoreClient.describeIndex svc h = Async.Rejected e
              /\ ms = 2000%Z))
      /\ waited svc
                (h ++ [VectorStoreClient.PcDescribeIndex VectorStoreClient.INDEX_NAME;
                       VectorStoreClient.SetTimeout ms])%list
                delays'
  end.



(** Functions of the library that succeed without doing anything, over a
    world that holds nothing; [processAllKMADocuments] finds the
    documents [processed]. *)
Definition idle : Async.M unit unit := Async.ret tt.

Definition finds (processed : list KMA.ProcessedDocument)
  : Async.M unit (list KMA.ProcessedDocument) :=
  Async.ret processed.

(** A processed document of two chunks. *)
Definition processed_example : KMA.ProcessedDocument :=
  let chunk (i : nat) :=
    {| VectorStoreClient.id := "f.md_0_" ++ string_of_nat i;
       VectorStoreClient.values := [];
       VectorStoreClient.metadata :=
         {| VectorStore.filename := "f.md";
            VectorStore.title := "T";
            VectorStore.content := "c";
            VectorStore.section := None;
            VectorStore.chunkIndex := i;
            VectorStore.totalChunks := 2 |} |} in
  {| KMA.document :=
       {| KMA.filename := "f.md";
          KMA.title := "T";
          KMA.content := "c";
          KMA.metadata := {| KMA.alertType := Some "T";
                             KMA.severity := None;
                             KMA.system := None;
                             KMA.alertDuration := None;
                             KMA.scope := None |} |};
     KMA.chunks := [chunk 0; chunk 1] |}.

(** The request whose body is [{reindex: true}]. *)
Definition request_reindex : IndexRoute.NextRequest :=
  {| IndexRoute.json :=
       Async.Resolved {| IndexRoute.reindex := Some true;
                         IndexRoute.forceRecreate := None |} |}.

(** A store that holds three vectors in an index that exists, and a
    file system on which the directory of the documents cannot be
    read. *)
Definition store_without_documents : VectorStoreClient.Services :=
  {| VectorStoreClient.PINECONE_API_KEY := Some "key";
     VectorStoreClient.listIndexes :=
       fun _ => Async.Resolved (Some [VectorStoreClient.INDEX_NAME]);
     VectorStoreClient.createIndex := fun _ => Async.Resolved tt;
     VectorStoreClient.describeIndex := fun _ => Async.Resolved true;
     VectorStoreClient.deleteIndex_ := fun _ => Async.Resolved tt;
     VectorStoreClient.upsert := fun _ _ => Async.Resolved tt;
     VectorStoreClient.query := fun _ _ _ _ => Async.Resolved None;
     VectorStoreClient.describeIndexStats := fun _ => Async.Resolved (Some 3%Z);
     VectorStoreClient.deleteAll := fun _ => Async.Resolved tt;
     VectorStoreClient.deleteMany := fun _ _ => Async.Resolved tt;
     VectorStoreClient.generateEmbedding := fun _ _ => Async.Resolved [];
     VectorStoreClient.readFile := fun _ _ => Async.Rejected "ENOENT";
     VectorStoreClient.readdir := fun _ _ => Async.Rejected "ENOENT";
     VectorStoreClient.path_join := fun dir file => (dir ++ "/" ++ file)%string;
     VectorStoreClient.path_basename := fun path => path |}.

(* ================================================================== *)
(** ** The sources on small inputs *)
(* ================================================================== *)

Example chunkText_example :
  Embeddings.chunkText "one two three four five" 3 1
  = Some ["one two three"; "three four five"].
Proof. reflexivity. Qed.

Example split_sections_example :
  Embeddings.split_sections ("intro" ++ nl ++ "# A" ++ nl ++ "text" ++ nl ++ "#### no" ++ nl ++ "## B c" ++ nl ++ "#x")
  = ["intro" ++ nl; "# A" ++ nl ++ "text" ++ nl ++ "#### no" ++ nl; "## B c" ++ nl ++ "#x"]%string.
Proof. reflexivity. Qed.

Example sectionTitle_example :
  map Embeddings.sectionTitle_of ["intro" ++ nl; "# A  " ++ nl ++ "text"; "## B c" ++ nl ++ "#x"; "#  "; "# " ++ nl ++ "x y" ++ nl; "# "]%string
  = [None; Some "A"; Some "B c"; Some ""; Some "x y"; None].
Proof. reflexivity. Qed.

Example cdc_example :
  option_map (map Embeddings.id) (Embeddings.createDocumentChunks ("intro" ++ nl ++ "# A" ++ nl ++ nl ++ "# B") "f.md" "T")
  = Some ["f.md_0_0"; "f.md_1_0"; "f.md_2_0"].
Proof. vm_compute. reflexivity. Qed.

Example formatDocumentForRAG_example :
  DocumentProcessor.formatDocumentForRAG
    [{| VectorStore.id := "f.md_1_0";
        VectorStore.score := 0.75%Q;
        VectorStore.metadata :=
          {| VectorStore.filename := "f.md";
             VectorStore.title := "T";
             VectorStore.content := "c";
             VectorStore.section := Some "S";
             VectorStore.chunkIndex := 1;
             VectorStore.totalChunks := 2 |} |}]
  = "Based on the following incident response documentation:" ++ nl ++ nl
    ++ "## Document 1: T" ++ nl
    ++ "### S" ++ nl
    ++ "c" ++ nl ++ nl
    ++ "*Source: f.md*" ++ nl ++ nl.
Proof. reflexivity. Qed.

Example simpleHash_example :
  map Embeddings.simpleHash [""; "a"; "abc"; "zzzzzzz"]
  = [0; 97; 96354; 215481018]%Z.
Proof. reflexivity. Qed.

Example handle_example :
  fst (ChatRoute.handle services_up (request_with "disk full"))
  = ChatRoute.Returns
      {| ChatRoute.body :=
           ChatRoute.ChatBody
             "Restart the consumer."
             (Some [{| ChatRoute.filename := "f.md";
                       ChatRoute.title := "T";
                       ChatRoute.section := Some "" |}]);
         ChatRoute.status := 200 |}.
Proof. vm_compute. reflexivity. Qed.

Example extractTitleFromContent_example :
  (KMA.extractTitleFromContent ("intro" ++ nl ++ "#  Disk Full  " ++ nl ++ "text")
                               "01_disk_full.md",
   KMA.extractTitleFromContent ("## not a title" ++ nl ++ "text")
                               "lvds_message-backlog_2.md")
  = ("Disk Full", "Lvds Message-Backlog 2").
Proof. reflexivity. Qed.

Example extractAlertType_example :
  map (fun p => KMA.extractAlertType (fst p) (snd p))
      [("01_disk_full.md", "# Title");
       ("disk_full.md", "# Title");
       ("disk_full.md", "no header");
       ("a_b_c.txt", "")]
  = ["Disk Full"; "Title"; "Unknown Alert Type"; "B C.Txt"].
Proof. reflexivity. Qed.

Example extractMetadataFromContent_example :
  KMA.extractMetadataFromContent
    ("# T" ++ nl ++ "**System**:  LVDS  " ++ nl ++ "**Severity**:" ++ nl
     ++ "**Scope**: all" ++ nl)
  = {| KMA.alertType := None;
       KMA.severity := Some "**Scope**: all";
       KMA.system := Some "LVDS";
       KMA.alertDuration := None;
       KMA.scope := Some "all" |}.
Proof. reflexivity. Qed.

(* ================================================================== *)
(** ** Strings and arrays *)
(* ================================================================== *)

Section SplitJoin.
Variable sep : ascii.

Lemma split_pieces_free (s : string) :
  free_of sep (fst (split_pieces sep s))
  /\ Forall (free_of sep) (snd (split_pieces sep s)).
Proof.
  induction s as [|c s IH]; simpl.
  - split; [exact I | constructor].
  - destruct (split_pieces sep s) as [w ws]; simpl in IH.
    destruct IH as [Hw Hws].
    destruct (Ascii.eqb_spec c sep) as [->|Hne]; simpl.
    + split; [exact I | constructor; assumption].
    + split; [split; assumption | assumption].
Qed.

Lemma split_free (s : string) : Forall (free_of sep) (split sep s).
Proof.
  unfold split. pose proof (split_pieces_free s) as [Hw Hws].
  destruct (split_pieces sep s) as [w ws]. constructor; assumption.
Qed.

Lemma split_nonempty (s : string) : split sep s <> [].
Proof. unfold split. destruct (split_pieces sep s). discriminate. Qed.

Lemma split_pieces_app (w rest : string) :
  free_of sep w ->
  split_pieces sep (w ++ String sep rest)
  = (w, fst (split_pieces sep rest) :: snd (split_pieces sep rest)).
Proof.
  induction w as [|c w IH]; simpl; intros Hw.
  - rewrite Ascii.eqb_refl. destruct (split_pieces sep rest); reflexivity.
  - destruct Hw as [Hc Hw]. rewrite (IH Hw).
    destruct (Ascii.eqb_spec c sep); [contradiction | reflexivity].
Qed.

Lemma split_pieces_free_id (w : string) :
  free_of sep w -> split_pieces sep w = (w, []).
Proof.
  induction w as [|c w IH]; simpl; intros Hw; [reflexivity|].
  destruct Hw as [Hc Hw]. rewrite (IH Hw).
  destruct (Ascii.eqb_spec c sep); [contradiction | reflexivity].
Qed.

(** Splitting what was joined gives the pieces back. *)
Lemma split_join (ws : list string) :
  ws <> [] -> Forall (free_of sep) ws ->
  split sep (join (String sep "") ws) = ws.
Proof.
  intros Hne Hfree. unfold split, join.
  induction Hfree as [|w ws Hw Hws IH]; [congruence|].
  destruct ws as [|w' ws'].
  - simpl. rewrite (split_pieces_free_id w Hw). reflexivity.
  - change (concat (String sep "") (w :: w' :: ws'))
      with (w ++ String sep (concat (String sep "") (w' :: ws'))).
    rewrite (split_pieces_app _ _ Hw).
    assert (Hne' : w' :: ws' <> []) by discriminate.
    specialize (IH Hne').
    destruct (split_pieces sep (concat (String sep "") (w' :: ws'))) as [u us].
    simpl. congruence.
Qed.
End SplitJoin.

Lemma Forall_window {A} (P : A -> Prop) (l : list A) (n i : nat) :
  Forall P l -> Forall P (firstn n (skipn i l)).
Proof.
  intros H.
  rewrite <- (firstn_skipn i l) in H. apply Forall_app in H as [_ H].
  rewrite <- (firstn_skipn n (skipn i l)) in H. apply Forall_app in H as [H _].
  exact H.
Qed.

(** On indices inside the non-negative range, [slice] is [firstn] of
    [skipn]. *)
Lemma slice_window {A} (l : list A) (i n : nat) :
  slice l (Z.of_nat i) (Z.of_nat i + Z.of_nat n) = firstn n (skipn i l).
Proof.
  unfold slice, relative_index.
  destruct (Z.ltb_spec (Z.of_nat i) 0); [lia|].
  destruct (Z.ltb_spec (Z.of_nat i + Z.of_nat n) 0); [lia|].
  destruct (Nat.le_gt_cases (List.length l) i) as [Hi|Hi].
  - rewrite (skipn_all2 l Hi). rewrite firstn_nil.
    replace (Z.to_nat (Z.min (Z.of_nat i) (Z.of_nat (List.length l))))
      with (List.length l) by lia.
    rewrite skipn_all. apply firstn_nil.
  - replace (Z.to_nat (Z.min (Z.of_nat i) (Z.of_nat (List.length l))))
      with i by lia.
    destruct (Nat.le_gt_cases (i + n) (List.length l)) as [Hn|Hn].
    + f_equal. lia.
    + rewrite !firstn_all2; [reflexivity | |]; rewrite length_skipn; lia.
Qed.

(* ================================================================== *)
(** ** chunkText *)
(* ================================================================== *)

Lemma words_nonempty (text : string) : words text <> [].
Proof. apply split_nonempty. Qed.

Lemma words_join (ws : list string) :
  ws <> [] -> Forall (free_of " "%char) ws -> words (join " " ws) = ws.
Proof. apply (split_join " "%char). Qed.

(** More fuel does not change a result. *)
Lemma chunkLoop_fuel_mono (ws : list string) (chunkSize overlap : Z) :
  forall (fuel fuel' : nat) (i : Z) (acc r : list string),
    fuel <= fuel' ->
    chunkLoop fuel ws chunkSize overlap i acc = Some r ->
    chunkLoop fuel' ws chunkSize overlap i acc = Some r.
Proof.
  induction fuel as [|fuel IH]; intros fuel' i acc r Hle H; [discriminate|].
  destruct fuel' as [|fuel']; [lia|].
  simpl in *.
  destruct (i <? Z.of_nat (List.length ws))%Z; [|exact H].
  destruct (i + chunkSize >=? Z.of_nat (List.length ws))%Z; [exact H|].
  apply (IH fuel'); [lia | exact H].
Qed.

(** When the overlap is not below the chunk size the loop variable never
    grows, and the loop never ends: no amount of fuel gives a result. *)
Lemma chunkLoop_diverges (ws : list string) (chunkSize overlap : Z) :
  ws <> [] ->
  (chunkSize <= overlap)%Z ->
  (chunkSize < Z.of_nat (List.length ws))%Z ->
  forall (fuel : nat) (i : Z) (acc : list string),
    (i <= 0)%Z -> chunkLoop fuel ws chunkSize overlap i acc = None.
Proof.
  intros Hne Hov Hlen.
  assert (0 < List.length ws) by (destruct ws; [congruence | simpl; lia]).
  induction fuel as [|fuel IH]; intros i acc Hi; [reflexivity|].
  simpl.
  destruct (Z.ltb_spec i (Z.of_nat (List.length ws))); [|lia].
  rewrite Z.geb_leb.
  destruct (Z.leb_spec (Z.of_nat (List.length ws)) (i + chunkSize)); [lia|].
  apply IH. lia.
Qed.

(** When the overlap is below the chunk size the loop variable grows at
    every round, and the loop ends within the fuel [chunkText] gives it. *)
Lemma chunkLoop_terminates (ws : list string) (chunkSize overlap : Z) :
  (overlap < chunkSize)%Z ->
  forall (fuel : nat) (i : Z) (acc : list string),
    (0 <= i)%Z ->
    0 < fuel ->
    (Z.of_nat (List.length ws) - i < Z.of_nat fuel)%Z ->
    exists r, chunkLoop fuel ws chunkSize overlap i acc = Some r.
Proof.
  intros Hov. induction fuel as [|fuel IH]; intros i acc Hi Hpos Hfuel; [lia|].
  simpl.
  destruct (Z.ltb_spec i (Z.of_nat (List.length ws))); [|eexists; reflexivity].
  rewrite Z.geb_leb.
  destruct (Z.leb_spec (Z.of_nat (List.length ws)) (i + chunkSize));
    [eexists; reflexivity|].
  apply IH; lia.
Qed.

(** [chunkText] fails to return exactly when the text has more than
    [chunkSize] words and the overlap is not below the chunk size. *)
Lemma chunkText_diverges_iff (text : string) (chunkSize overlap : Z) :
  chunkText text chunkSize overlap = None
  <-> (chunkSize < Z.of_nat (List.length (words text)))%Z
      /\ (chunkSize <= overlap)%Z.
Proof.
  unfold chunkText, chunkText_fuel.
  destruct (Z.leb_spec (Z.of_nat (List.length (words text))) chunkSize) as [Hle|Hgt].
  - split; [discriminate | lia].
  - destruct (Z.le_gt_cases chunkSize overlap) as [Hov|Hov].
    + split; [intros _; split; assumption|]. intros _.
      apply chunkLoop_diverges;
        [apply words_nonempty | assumption | assumption | lia].
    + destruct (chunkLoop_terminates (words text) chunkSize overlap Hov
                  (S (List.length (words text))) 0 [])
        as [r Hr]; [lia | lia | lia |].
      rewrite Hr. split; [discriminate | lia].
Qed.

Section ChunkWindows.
Variable ws : list string.
Variables chunkSize overlap : nat.
Hypothesis overlap_lt : overlap < chunkSize.

Let step := chunkSize - overlap.

(** The loop entered at word [i] pushes the windows that start at [i],
    [i + step], ..., [i + m * step]: all but the last end before the
    last word, and the last one holds the last word. *)
Lemma chunkLoop_windows :
  forall (fuel i : nat) (acc : list string),
    i < List.length ws -> List.length ws - i <= fuel ->
    exists m : nat,
      chunkLoop fuel ws (Z.of_nat chunkSize) (Z.of_nat overlap) (Z.of_nat i) acc
      = Some (acc ++ map (fun k => join " " (window ws chunkSize (i + k * step)))
                         (seq 0 (S m)))%list
      /\ (forall k, k < m -> i + k * step + chunkSize < List.length ws)
      /\ i + m * step < List.length ws
      /\ List.length ws <= i + m * step + chunkSize.
Proof.
  induction fuel as [|fuel IH]; intros i acc Hi Hfuel; [lia|].
  simpl chunkLoop.
  destruct (Z.ltb_spec (Z.of_nat i) (Z.of_nat (List.length ws))); [|lia].
  rewrite Z.geb_leb, slice_window.
  destruct (Z.leb_spec (Z.of_nat (List.length ws))
                       (Z.of_nat i + Z.of_nat chunkSize)) as [Hend|Hmore].
  - exists 0. simpl. rewrite Nat.add_0_r.
    repeat split; [intros k Hk; lia | lia | lia].
  - replace (Z.of_nat i + (Z.of_nat chunkSize - Z.of_nat overlap))%Z
      with (Z.of_nat (i + step)) by (unfold step; lia).
    destruct (IH (i + step)
                 (acc ++ [join " " (window ws chunkSize i)])%list)
      as (m & Heq & Hin & Hlast & Hreach); [unfold step; lia | unfold step; lia |].
    exists (S m). split; [|split; [|split]].
    + unfold window in *. rewrite Heq. f_equal. rewrite <- app_assoc. f_equal.
      change (seq 0 (S (S m))) with (0 :: seq 1 (S m)).
      rewrite <- seq_shift, map_cons, map_map. cbn [app].
      f_equal.
      * replace (i + 0 * step) with i by lia. reflexivity.
      * apply map_ext. intros k.
        replace (i + S k * step) with (i + step + k * step) by lia.
        reflexivity.
    + intros [|k] Hk; [lia|]. specialize (Hin k). simpl. lia.
    + simpl. lia.
    + simpl. lia.
Qed.
End ChunkWindows.



Lemma window_nonempty {A} (l : list A) (n i : nat) :
  0 < n -> i < List.length l -> firstn n (skipn i l) <> [].
Proof.
  intros Hn Hi Heq. apply (f_equal (@List.length A)) in Heq.
  rewrite length_firstn, length_skipn in Heq. simpl in Heq. lia.
Qed.

(** The words of a joined window of words of a text are that window. *)
Lemma words_window (text : string) (n i : nat) :
  0 < n -> i < List.length (words text) ->
  words (join " " (window (words text) n i)) = window (words text) n i.
Proof.
  intros Hn Hi. apply words_join.
  - apply window_nonempty; assumption.
  - apply Forall_window, split_free.
Qed.


(** The short branch: at most [chunkSize] words. *)
Lemma chunkText_whole (text : string) (chunkSize overlap : Z) :
  (Z.of_nat (List.length (words text)) <= chunkSize)%Z ->
  chunkText text chunkSize overlap = Some [text].
Proof.
  intros H. unfold chunkText, chunkText_fuel.
  destruct (Z.leb_spec (Z.of_nat (List.length (words text))) chunkSize);
    [reflexivity | lia].
Qed.

(** The long branch: more than [chunkSize] words, and the loop advances. *)
Lemma chunkText_windows (text : string) (chunkSize overlap : nat) :
  chunkSize < List.length (words text) ->
  overlap < chunkSize ->
  exists m : nat,
    chunkText text (Z.of_nat chunkSize) (Z.of_nat overlap)
    = Some (map (fun k => join " " (window (words text) chunkSize
                                           (k * (chunkSize - overlap))))
                (seq 0 (S m)))
    /\ (forall k, k < m ->
                  k * (chunkSize - overlap) + chunkSize < List.length (words text))
    /\ m * (chunkSize - overlap) < List.length (words text)
    /\ List.length (words text) <= m * (chunkSize - overlap) + chunkSize.
Proof.
  intros Hlong Hov. unfold chunkText, chunkText_fuel.
  destruct (Z.leb_spec (Z.of_nat (List.length (words text))) (Z.of_nat chunkSize));
    [lia|].
  destruct (chunkLoop_windows (words text) chunkSize overlap Hov
              (S (List.length (words text))) 0 [])
    as (m & Heq & Hin & Hlast & Hreach); [lia | lia |].
  exists m. simpl in Heq, Hin, Hlast, Hreach. simpl.
  repeat split; assumption.
Qed.

(** With the sizes [createDocumentChunks] uses, [chunkText] returns. *)
Lemma chunkText_500_50_returns (text : string) :
  exists textChunks, chunkText text 500 50 = Some textChunks.
Proof.
  destruct (Nat.le_gt_cases (List.length (words text)) 500) as [Hle|Hgt].
  - exists [text]. apply chunkText_whole. lia.
  - destruct (chunkText_windows text 500 50 Hgt) as (m & Heq & _); [lia|].
    change (Z.of_nat 500) with 500%Z in Heq. change (Z.of_nat 50) with 50%Z in Heq.
    eexists. exact Heq.
Qed.



(** C3, as stated, fails: [chunkText] hands a short text back as it is,
    leading and trailing whitespace included. *)
Lemma chunkText_short_text_not_trimmed :
  (Z.of_nat (List.length (words " a")) <= 500)%Z
  /\ chunkText " a" 500 50 = Some [" a"]
  /\ trim " a" = "a"
  /\ chunkText " a" 500 50 <> Some [trim " a"].
Proof.
  split; [simpl; lia|]. split; [reflexivity|]. split; [reflexivity|].
  discriminate.
Qed.

(** C3, amended.  A text of at most [chunkSize] words is returned as the
    only chunk, unchanged, whatever the overlap; [createDocumentChunks]
    passes the trimmed section, and so gets the trimmed section back. *)
Theorem chunkText_short_text (text : string) (chunkSize overlap : Z) :
  (Z.of_nat (List.length (words text)) <= chunkSize)%Z ->
  chunkText text chunkSize overlap = Some [text].
Proof.
  intros Hshort. unfold chunkText, chunkText_fuel.
  destruct (Z.leb_spec (Z.of_nat (List.length (words text))) chunkSize)
    as [_|Hlong].
  - reflexivity.
  - lia.
Qed.

Lemma chunkText_short_text_witness :
  (Z.of_nat (List.length (words " a")) <= 500)%Z
  /\ chunkText " a" 500 50 = Some [" a"].
Proof.
  assert (H : (Z.of_nat (List.length (words " a")) <= 500)%Z) by (simpl; lia).
  split; [exact H | exact (chunkText_short_text " a" 500 50 H)].
Defined.

(* ================================================================== *)
(** ** Chunk ids *)
(* ================================================================== *)

Lemma append_inj_l (p a b : string) : p ++ a = p ++ b -> a = b.
Proof.
  induction p as [|c p IH]; simpl; intros H; [exact H|].
  injection H as H. exact (IH H).
Qed.

(** Two strings without [sep], each followed by [sep] and more: equal
    wholes have equal parts. *)
Lemma append_sep_inj (sep : ascii) (a a' b b' : string) :
  free_of sep a -> free_of sep a' ->
  a ++ String sep b = a' ++ String sep b' -> a = a' /\ b = b'.
Proof.
  revert a'. induction a as [|c a IH]; intros [|c' a'] Ha Ha' H; simpl in *.
  - injection H as H. split; [reflexivity | exact H].
  - injection H as Hc _. destruct Ha' as [Hne _]. congruence.
  - injection H as Hc _. destruct Ha as [Hne _]. congruence.
  - injection H as Hc H. destruct Ha as [_ Ha]. destruct Ha' as [_ Ha'].
    destruct (IH a' Ha Ha' H) as [-> ->]. subst. split; reflexivity.
Qed.

Lemma string_of_uint_free (d : Decimal.uint) :
  free_of "_"%char (NilEmpty.string_of_uint d).
Proof.
  induction d; simpl; try exact I; (split; [discriminate | assumption]).
Qed.

Lemma string_of_nat_free (n : nat) : free_of "_"%char (string_of_nat n).
Proof. apply string_of_uint_free. Qed.

Lemma string_of_nat_inj (n n' : nat) :
  string_of_nat n = string_of_nat n' -> n = n'.
Proof.
  unfold string_of_nat. intros H.
  apply (f_equal NilEmpty.uint_of_string) in H.
  rewrite !NilEmpty.usu in H. injection H as H.
  apply (f_equal Nat.of_uint) in H. rewrite !Unsigned.of_to in H. exact H.
Qed.

(** For one file name, the id tells the two ordinals. *)
Lemma chunk_id_inj (filename : string) (s c s' c' : nat) :
  chunk_id filename s c = chunk_id filename s' c' -> s = s' /\ c = c'.
Proof.
  unfold chunk_id. intros H.
  apply append_inj_l in H. simpl in H. injection H as H.
  apply append_sep_inj in H; try apply string_of_nat_free.
  destruct H as [Hs Hc].
  split; apply string_of_nat_inj; assumption.
Qed.

(* ================================================================== *)
(** ** createDocumentChunks *)
(* ================================================================== *)

Lemma Forall2_In_l {A B} (R : A -> B -> Prop) (l : list A) (l' : list B) (x : A) :
  Forall2 R l l' -> In x l -> exists y, In y l' /\ R x y.
Proof.
  induction 1 as [|a b l l' Hab _ IH]; intros Hin; [destruct Hin|].
  destruct Hin as [->|Hin].
  - exists b. split; [left; reflexivity | exact Hab].
  - destruct (IH Hin) as (y & Hy & HR). exists y. split; [right|]; assumption.
Qed.

Section FirstPass.
Variables filename title : string.

(** [Q s c text]: what is known of the text at ordinals [s] and [c]. *)
Variable Q : nat -> nat -> string -> Prop.

Let placed := placed filename Q.

(** The inner loop pushes chunks of section [si] with increasing
    ordinals, none below the one it starts at. *)
Lemma forEach_textChunk_placed (sectionTitle : option string) (si : nat) :
  forall (textChunks : list string) (ci : nat)
         (chunks : list DocumentChunk) (tags : list (nat * nat)),
    (forall k chunk, nth_error textChunks k = Some chunk -> Q si (ci + k) chunk) ->
    Forall2 placed chunks tags ->
    exists tags',
      Forall2 placed
        (forEach_textChunk filename title sectionTitle si textChunks ci chunks)
        (tags ++ tags')%list
      /\ Forall (fun t => fst t = si /\ ci <= snd t) tags'
      /\ NoDup tags'.
Proof.
  induction textChunks as [|chunk rest IH]; intros ci chunks tags HQ Hpl.
  - exists []. rewrite app_nil_r. simpl.
    split; [assumption|]. split; constructor.
  - assert (HQ' : forall k c, nth_error rest k = Some c -> Q si (S ci + k) c).
    { intros k c Hk. specialize (HQ (S k) c Hk).
      replace (S ci + k) with (ci + S k) by lia. exact HQ. }
    simpl forEach_textChunk.
    destruct (0 <? String.length (trim chunk))%nat.
    + match goal with
      | |- context [forEach_textChunk _ _ _ _ rest (S ci) ?cs] =>
          destruct (IH (S ci) cs (tags ++ [(si, ci)])%list HQ')
            as (tags' & Hpl' & Hbound & Hnd)
      end.
      { apply Forall2_app; [exact Hpl|]. constructor; [|constructor].
        split; simpl; [reflexivity|].
        specialize (HQ 0 chunk eq_refl).
        rewrite Nat.add_0_r in HQ. exact HQ. }
      exists ((si, ci) :: tags'). rewrite <- app_assoc in Hpl'.
      split; [exact Hpl'|]. split.
      * constructor; [simpl; lia|].
        eapply Forall_impl; [|exact Hbound]. simpl. intros t Ht. lia.
      * constructor; [|exact Hnd]. intros Hin.
        apply (proj1 (Forall_forall _ _) Hbound) in Hin. simpl in Hin. lia.
    + destruct (IH (S ci) chunks tags HQ' Hpl) as (tags' & Hpl' & Hbound & Hnd).
      exists tags'. split; [exact Hpl'|]. split; [|exact Hnd].
      eapply Forall_impl; [|exact Hbound]. simpl. intros t Ht. lia.
Qed.

(** Chunks with pairwise different ordinals have pairwise different
    ids. *)
Lemma placed_NoDup (chunks : list DocumentChunk) (tags : list (nat * nat)) :
  Forall2 placed chunks tags -> NoDup tags -> NoDup (map id chunks).
Proof.
  induction 1 as [|chunk t chunks tags Hpl Hrest IH]; intros Hnd; simpl.
  - constructor.
  - inversion Hnd as [|? ? Hnotin Hnd']; subst.
    constructor; [|exact (IH Hnd')].
    intros Hin. apply in_map_iff in Hin as (chunk' & Hid & Hin).
    destruct (Forall2_In_l _ _ _ _ Hrest Hin) as (t' & Hin' & Hpl').
    destruct Hpl as [Hid1 _]. destruct Hpl' as [Hid2 _].
    rewrite Hid1, Hid2 in Hid. apply chunk_id_inj in Hid as [Hs Hc].
    apply Hnotin. destruct t, t'. simpl in *. subst. exact Hin'.
Qed.
End FirstPass.

Section Sections.
Variables filename title : string.
Variable sections : list string.

Let placed := placed filename (text_chunk_at sections).

(** The outer loop returns, and every chunk it has pushed is at its own
    pair of ordinals. *)
Lemma forEach_section_placed :
  forall (todo done : list string)
         (chunks : list DocumentChunk) (tags : list (nat * nat)),
    sections = (done ++ todo)%list ->
    Forall2 placed chunks tags ->
    NoDup tags ->
    Forall (fun t => fst t < List.length done) tags ->
    exists r tags',
      forEach_section filename title todo (List.length done) chunks = Some r
      /\ Forall2 placed r tags'
      /\ NoDup tags'.
Proof.
  induction todo as [|section rest IH]; intros done chunks tags Hsec Hpl Hnd Hlt.
  - exists chunks, tags. simpl. repeat split; assumption.
  - destruct (chunkText_500_50_returns (trim section)) as [textChunks Htc].
    simpl forEach_section. rewrite Htc.
    destruct (forEach_textChunk_placed filename title (text_chunk_at sections)
                (sectionTitle_of section) (List.length done)
                textChunks 0 chunks tags)
      as (tags1 & Hpl1 & Hbound & Hnd1); [|exact Hpl|].
    { intros k chunk Hk. exists section, textChunks.
      split; [|split; [exact Htc | exact Hk]].
      rewrite Hsec, nth_error_app2 by lia.
      rewrite Nat.sub_diag. reflexivity. }
    destruct (IH (done ++ [section])%list
                 (forEach_textChunk filename title (sectionTitle_of section)
                                    (List.length done) textChunks 0 chunks)
                 (tags ++ tags1)%list)
      as (r & tags' & Hr & Hpl' & Hnd').
    + rewrite <- app_assoc. exact Hsec.
    + exact Hpl1.
    + apply NoDup_app; [exact Hnd | exact Hnd1 |].
      intros t Ht Ht1.
      apply (proj1 (Forall_forall _ _) Hlt) in Ht.
      apply (proj1 (Forall_forall _ _) Hbound) in Ht1. lia.
    + rewrite length_app. simpl. apply Forall_app. split.
      * eapply Forall_impl; [|exact Hlt]. simpl. intros t Ht. lia.
      * eapply Forall_impl; [|exact Hbound]. simpl. intros t Ht. lia.
    + exists r, tags'. rewrite length_app, Nat.add_1_r in Hr.
      repeat split; assumption.
Qed.
End Sections.

(** The ids of the first pass do not depend on the title. *)
Lemma forEach_textChunk_ids (filename title title' : string)
      (sectionTitle : option string) (si : nat) :
  forall (textChunks : list string) (ci : nat) (chunks chunks' : list DocumentChunk),
    map id chunks = map id chunks' ->
    map id (forEach_textChunk filename title sectionTitle si textChunks ci chunks)
    = map id (forEach_textChunk filename title' sectionTitle si textChunks ci chunks').
Proof.
  induction textChunks as [|chunk rest IH]; intros ci chunks chunks' H; [exact H|].
  simpl. destruct (0 <? String.length (trim chunk))%nat; apply IH; [|exact H].
  rewrite !map_app, H. reflexivity.
Qed.

Lemma forEach_section_ids (filename title title' : string) :
  forall (sections : list string) (si : nat) (chunks chunks' : list DocumentChunk),
    map id chunks = map id chunks' ->
    option_map (map id) (forEach_section filename title sections si chunks)
    = option_map (map id) (forEach_section filename title' sections si chunks').
Proof.
  induction sections as [|section rest IH]; intros si chunks chunks' H.
  - simpl. rewrite H. reflexivity.
  - simpl. destruct (chunkText (trim section) 500 50); [|reflexivity].
    apply IH, forEach_textChunk_ids, H.
Qed.

Lemma map_id_set_totalChunks (n : nat) (chunks : list DocumentChunk) :
  map id (map (set_totalChunks n) chunks) = map id chunks.
Proof. rewrite map_map. apply map_ext. reflexivity. Qed.

Lemma placed_set_totalChunks (filename : string) (Q : nat -> nat -> string -> Prop)
      (n : nat) (chunks : list DocumentChunk) (tags : list (nat * nat)) :
  Forall2 (placed filename Q) chunks tags ->
  Forall2 (placed filename Q) (map (set_totalChunks n) chunks) tags.
Proof. induction 1; simpl; constructor; assumption. Qed.

(** [createDocumentChunks] returns; its result is the first pass with the
    count filled in, and every chunk is at its own pair of ordinals. *)
Lemma createDocumentChunks_placed (content filename title : string) :
  exists first tags,
    forEach_section filename title (split_sections content) 0 [] = Some first
    /\ createDocumentChunks content filename title
       = Some (map (set_totalChunks (List.length first)) first)
    /\ Forall2 (placed filename (text_chunk_at (split_sections content)))
               (map (set_totalChunks (List.length first)) first) tags
    /\ NoDup tags.
Proof.
  destruct (forEach_section_placed filename title (split_sections content)
              (split_sections content) [] [] [])
    as (first & tags & Hfirst & Hpl & Hnd);
    [reflexivity | constructor | constructor | constructor |].
  simpl in Hfirst. exists first, tags.
  split; [exact Hfirst|]. unfold createDocumentChunks. rewrite Hfirst.
  split; [reflexivity|]. split; [|exact Hnd].
  apply placed_set_totalChunks, Hpl.
Qed.

(** C4.  [createDocumentChunks] returns, and every chunk of the list it
    returns has [metadata.totalChunks] equal to the length of that list;
    no returned chunk keeps the provisional 0. *)
Theorem createDocumentChunks_totalChunks (content filename title : string) :
  exists chunks : list DocumentChunk,
    createDocumentChunks content filename title = Some chunks
    /\ Forall (fun chunk =>
                 totalChunks (metadata chunk) = List.length chunks
                 /\ totalChunks (metadata chunk) <> 0)
              chunks.
Proof.
  destruct (createDocumentChunks_placed content filename title)
    as (first & tags & _ & Heq & _).
  eexists. split; [exact Heq|].
  apply Forall_forall. intros chunk Hin.
  assert (Hlen : 0 < List.length (map (set_totalChunks (List.length first)) first)).
  { destruct (map (set_totalChunks (List.length first)) first);
      [destruct Hin | simpl; lia]. }
  apply in_map_iff in Hin as (chunk0 & <- & _).
  rewrite length_map in *. simpl. split; [reflexivity | lia].
Qed.

(** C5.  Two invocations of [createDocumentChunks] with the same arguments
    return the same list, and they do return one.  Its sequence of ids is
    the same for every title, and every id in it is made of the file name,
    the ordinal of a section and the ordinal of the chunk among the text
    chunks of that section. *)
Theorem createDocumentChunks_deterministic
        (content filename title : string)
        (first second : option (list DocumentChunk)) :
  createDocumentChunks content filename title = first ->
  createDocumentChunks content filename title = second ->
  first = second
  /\ exists chunks : list DocumentChunk,
      first = Some chunks
      /\ (forall title' : string,
             option_map (map id) (createDocumentChunks content filename title')
             = Some (map id chunks))
      /\ Forall (fun chunk =>
                   exists sectionIndex chunkIndex : nat,
                     id chunk = chunk_id filename sectionIndex chunkIndex
                     /\ text_chunk_at (split_sections content)
                                      sectionIndex chunkIndex
                                      (Embeddings.content chunk))
                chunks.
Proof.
  intros <- <-. split; [reflexivity|].
  destruct (createDocumentChunks_placed content filename title)
    as (first & tags & Hfirst & Heq & Hpl & _).
  eexists. split; [exact Heq|]. split.
  - intros title'. unfold createDocumentChunks.
    pose proof (forEach_section_ids filename title title'
                  (split_sections content) 0 [] [] eq_refl) as Hids.
    rewrite Hfirst in Hids.
    destruct (forEach_section filename title' (split_sections content) 0 [])
      as [first'|]; [|discriminate].
    simpl in Hids. injection Hids as Hids.
    simpl. rewrite !map_id_set_totalChunks. congruence.
  - apply Forall_forall. intros chunk Hin.
    destruct (Forall2_In_l _ _ _ _ Hpl Hin) as ([s c] & _ & Hid & Hat).
    exists s, c. split; assumption.
Qed.

Lemma createDocumentChunks_deterministic_witness :
  createDocumentChunks "# A" "f.md" "T"
  = Some [{| id := "f.md_0_0";
             content := "# A";
             metadata := {| filename := "f.md"; title := "T";
                            section := Some "A";
                            chunkIndex := 0; totalChunks := 1 |} |}].
Proof.
  exact (proj1 (createDocumentChunks_deterministic "# A" "f.md" "T" _ _
                  eq_refl eq_refl)).
Defined.

(** C10.  The ids of the chunks [createDocumentChunks] returns are
    pairwise distinct. *)
Theorem createDocumentChunks_ids_distinct (content filename title : string) :
  exists chunks : list DocumentChunk,
    createDocumentChunks content filename title = Some chunks
    /\ NoDup (map id chunks).
Proof.
  destruct (createDocumentChunks_placed content filename title)
    as (first & tags & _ & Heq & Hpl & Hnd).
  eexists. split; [exact Heq|].
  exact (placed_NoDup filename _ _ _ Hpl Hnd).
Qed.

(* ================================================================== *)
(** ** formatDocumentForRAG *)
(* ================================================================== *)

Lemma append_assoc (a b c : string) : (a ++ b) ++ c = a ++ (b ++ c).
Proof. induction a as [|x a IH]; simpl; [reflexivity | rewrite IH; reflexivity]. Qed.

Lemma append_nil_r (a : string) : a ++ "" = a.
Proof. induction a as [|x a IH]; simpl; [reflexivity | rewrite IH; reflexivity]. Qed.

(** Equal up to the bracketing of [++]. *)
Ltac string_eq :=
  unfold nl; repeat first [rewrite append_assoc | progress cbn [append]];
  reflexivity.

Lemma starts_with_app (p s : string) : starts_with p (p ++ s) = true.
Proof.
  induction p as [|a p IH]; simpl; [reflexivity|].
  rewrite Ascii.eqb_refl, IH. reflexivity.
Qed.

Lemma includes_app (before needle after : string) :
  includes needle (before ++ needle ++ after) = true.
Proof.
  induction before as [|a before IH]; simpl.
  - destruct (needle ++ after) eqn:E; simpl; rewrite <- E, starts_with_app;
      reflexivity.
  - rewrite IH. apply orb_true_r.
Qed.

Lemma occurs_in_order_app (ns ms : list string) (h g : string) :
  occurs_in_order ns h -> occurs_in_order ms g ->
  occurs_in_order (ns ++ ms) (h ++ g).
Proof.
  revert h. induction ns as [|n ns IH]; intros h Hn Hm; simpl.
  - destruct ms as [|m ms]; [exact I|].
    destruct Hm as (before & after & -> & Hafter).
    exists (h ++ before), after. rewrite append_assoc. split; [reflexivity | exact Hafter].
  - destruct Hn as (before & after & -> & Hafter).
    exists before, (after ++ g). rewrite !append_assoc.
    split; [reflexivity | exact (IH after Hafter Hm)].
Qed.

Lemma occurs_in_order_skip (ns : list string) (before h : string) :
  occurs_in_order ns h -> occurs_in_order ns (before ++ h).
Proof. intros H. exact (occurs_in_order_app [] ns before h I H). Qed.

Section Blocks.
Import VectorStore DocumentProcessor.

(** The text [forEach_result] appends for one result. *)
Let block (index : nat) (result : SearchResult) : string :=
  ("## Document " ++ string_of_nat (index + 1) ++ ": "
   ++ title (metadata result) ++ nl)
  ++ match section (metadata result) with
     | Some s => if truthy s then "### " ++ s ++ nl else ""
     | None => ""
     end
  ++ (content (metadata result) ++ nl ++ nl)
  ++ ("*Source: " ++ filename (metadata result) ++ "*" ++ nl ++ nl).

Lemma forEach_result_step (result : SearchResult) (rest : list SearchResult)
      (index : nat) (ctx : string) :
  forEach_result (result :: rest) index ctx
  = forEach_result rest (S index) (ctx ++ block index result).
Proof.
  unfold block. simpl forEach_result.
  destruct (section (metadata result)) as [s|]; [destruct (truthy s)|];
    f_equal; string_eq.
Qed.

Lemma block_shows (index : nat) (result : SearchResult) :
  occurs_in_order (shown result) (block index result).
Proof.
  unfold shown, section_heading, block.
  destruct (section (metadata result)) as [s|]; [destruct (truthy s)|];
    cbn [app occurs_in_order].
  - exists ("## Document " ++ string_of_nat (index + 1) ++ ": "), 
      (nl ++ ("### " ++ s ++ nl) ++ (content (metadata result) ++ nl ++ nl)
          ++ ("*Source: " ++ filename (metadata result) ++ "*" ++ nl ++ nl)).
    split; [string_eq|].
    exists nl, (nl ++ (content (metadata result) ++ nl ++ nl)
                   ++ ("*Source: " ++ filename (metadata result) ++ "*" ++ nl ++ nl)).
    split; [string_eq|].
    exists nl, (nl ++ nl ++ ("*Source: " ++ filename (metadata result) ++ "*" ++ nl ++ nl)).
    split; [string_eq|].
    exists (nl ++ nl), (nl ++ nl).
    split; [string_eq | exact I].
  - exists ("## Document " ++ string_of_nat (index + 1) ++ ": "),
      (nl ++ (content (metadata result) ++ nl ++ nl)
          ++ ("*Source: " ++ filename (metadata result) ++ "*" ++ nl ++ nl)).
    split; [string_eq|].
    exists nl, (nl ++ nl ++ ("*Source: " ++ filename (metadata result) ++ "*" ++ nl ++ nl)).
    split; [string_eq|].
    exists (nl ++ nl), (nl ++ nl).
    split; [string_eq | exact I].
  - exists ("## Document " ++ string_of_nat (index + 1) ++ ": "),
      (nl ++ (content (metadata result) ++ nl ++ nl)
          ++ ("*Source: " ++ filename (metadata result) ++ "*" ++ nl ++ nl)).
    split; [string_eq|].
    exists nl, (nl ++ nl ++ ("*Source: " ++ filename (metadata result) ++ "*" ++ nl ++ nl)).
    split; [string_eq|].
    exists (nl ++ nl), (nl ++ nl).
    split; [string_eq | exact I].
Qed.

(** The loop appends to the context a text that shows every result, in
    the order of the list. *)
Lemma forEach_result_shows :
  forall (results : list SearchResult) (index : nat) (ctx : string),
  exists added : string,
    forEach_result results index ctx = ctx ++ added
    /\ occurs_in_order (flat_map shown results) added.
Proof.
  induction results as [|result rest IH]; intros index ctx.
  - exists "". simpl. rewrite append_nil_r. split; [reflexivity | exact I].
  - rewrite forEach_result_step.
    destruct (IH (S index) (ctx ++ block index result)) as (added & Heq & Hocc).
    exists (block index result ++ added). rewrite Heq, append_assoc.
    split; [reflexivity|].
    change (flat_map shown (result :: rest))
      with (shown result ++ flat_map shown rest)%list.
    apply occurs_in_order_app; [apply block_shows | exact Hocc].
Qed.
End Blocks.

(** C6, as stated, fails: a result whose [section] field is present and
    is the empty string gets no section heading; the formatted context
    has no heading marker at all. *)
Lemma formatDocumentForRAG_empty_section_no_heading :
  VectorStore.section (VectorStore.metadata result_with_empty_section) = Some ""
  /\ includes "###"
       (DocumentProcessor.formatDocumentForRAG [result_with_empty_section])
     = false
  /\ forall before after : string,
      DocumentProcessor.formatDocumentForRAG [result_with_empty_section]
      <> before ++ "###" ++ after.
Proof.
  split; [reflexivity|].
  assert (H : includes "###"
                (DocumentProcessor.formatDocumentForRAG [result_with_empty_section])
              = false) by (vm_compute; reflexivity).
  split; [exact H|].
  intros before after Heq. rewrite Heq, includes_app in H. discriminate.
Qed.

(** C6, amended.  [formatDocumentForRAG] returns the empty string for
    the empty list.  For a list that is not empty it returns the fixed
    preamble followed by a text in which, result after result in the
    order of the list, there are the title, the heading of the section
    when the section field is present and not the empty string, the
    content as it is, and the source marker with the file name. *)
Theorem formatDocumentForRAG_shows_results :
  DocumentProcessor.formatDocumentForRAG [] = ""
  /\ forall (result : VectorStore.SearchResult)
            (rest : list VectorStore.SearchResult),
      exists body : string,
        DocumentProcessor.formatDocumentForRAG (result :: rest)
        = DocumentProcessor.preamble ++ body
        /\ occurs_in_order (flat_map shown (result :: rest)) body.
Proof.
  split; [reflexivity|]. intros result rest.
  unfold DocumentProcessor.formatDocumentForRAG. simpl Nat.eqb.
  cbv iota. apply forEach_result_shows.
Qed.

Lemma formatDocumentForRAG_truthy (result : VectorStore.SearchResult)
      (rest : list VectorStore.SearchResult) :
  truthy (DocumentProcessor.formatDocumentForRAG (result :: rest)) = true.
Proof.
  unfold DocumentProcessor.formatDocumentForRAG. simpl Nat.eqb. cbv iota.
  destruct (forEach_result_shows (result :: rest) 0 DocumentProcessor.preamble)
    as (added & -> & _).
  reflexivity.
Qed.

(* ================================================================== *)
(** ** The chat route *)
(* ================================================================== *)

Section Chat.
Import ChatRoute.
Variable svc : Services.


(** What the search leaves in [relevantResults]; nothing when it throws. *)
Let found (m : string) : list VectorStore.SearchResult :=
  match searchSimilar svc m 2 with
  | Returns searchResults => filter relevant searchResults
  | Throws _ => []
  end.

(** The prompt built from it. *)
Let prompt_for (m : string) : string :=
  match found m with
  | [] => createPromptWithoutContext m
  | _ :: _ => createPromptWithContext
                (DocumentProcessor.formatDocumentForRAG (found m)) m
  end.

(** A request with a message: the search is called, then the language
    model with the prompt built from what the search left; the response
    is the model's text with the sources left, or the 500 response when
    the model throws. *)
Lemma handle_message (m : string) :
  m <> "" ->
  handle svc (request_with m)
  = (Returns
       match generateText svc MODEL (prompt_for m) with
       | Returns text =>
           {| body := ChatBody text
                        match found m with
                        | [] => None
                        | _ :: _ => Some (map source_of (found m))
                        end;
              status := 200 |}
       | Throws _ =>
           {| body := ErrorBody "Failed to generate response"; status := 500 |}
       end,
     [CallSearchSimilar m 2; CallGenerateText MODEL (prompt_for m)]).
Proof.
  intros Hm. destruct m as [|a m]; [congruence|].
  unfold prompt_for, found, handle, request_with, POST, search_context,
    try_catch, bind, ret, await.
  cbn [json truthy_opt truthy negb app].
  destruct (searchSimilar svc (String a m) 2) as [searchResults|e].
  - destruct (filter relevant searchResults) as [|result rest] eqn:Hfound.
    + cbn [List.length Nat.ltb Nat.leb truthy app].
      destruct (generateText svc MODEL (createPromptWithoutContext (String a m)));
        reflexivity.
    + cbn [List.length Nat.ltb Nat.leb app].
      rewrite formatDocumentForRAG_truthy.
      destruct (generateText svc MODEL
                  (createPromptWithContext
                     (DocumentProcessor.formatDocumentForRAG (result :: rest))
                     (String a m)));
        [|reflexivity].
      cbn [List.length map Nat.ltb Nat.leb]. reflexivity.
  - cbn [List.length Nat.ltb Nat.leb truthy app].
    destruct (generateText svc MODEL (createPromptWithoutContext (String a m)));
      reflexivity.
Qed.
End Chat.




(** C8, as stated, fails: when the search throws and the language model
    throws too, the response is the 500 one, not a 200 one. *)
Lemma POST_search_down_model_down :
  ChatRoute.searchSimilar services_all_down "disk full" 2
  = ChatRoute.Throws "index down"
  /\ ChatRoute.handle services_all_down (request_with "disk full")
     = (ChatRoute.Returns
          {| ChatRoute.body := ChatRoute.ErrorBody "Failed to generate response";
             ChatRoute.status := 500 |},
        [ChatRoute.CallSearchSimilar "disk full" 2;
         ChatRoute.CallGenerateText
           ChatRoute.MODEL
           (ChatRoute.createPromptWithoutContext "disk full")]).
Proof. split; reflexivity. Qed.

(** C8, amended.  When the search throws on a request with a message that
    is not empty, the error goes no further: the handler builds the
    prompt without context (system prompt, question, and the note that no
    procedures were found), calls the language model with it, and, when
    the model returns, answers 200 with the model's text and no [sources]
    field; when the model throws, it answers 500. *)
Theorem POST_search_failure_swallowed
        (svc : ChatRoute.Services) (m error : string) :
  m <> "" ->
  ChatRoute.searchSimilar svc m 2 = ChatRoute.Throws error ->
  ChatRoute.handle svc (request_with m)
  = (ChatRoute.Returns
       match ChatRoute.generateText svc ChatRoute.MODEL
                                    (ChatRoute.createPromptWithoutContext m) with
       | ChatRoute.Returns text =>
           {| ChatRoute.body := ChatRoute.ChatBody text None;
              ChatRoute.status := 200 |}
       | ChatRoute.Throws _ =>
           {| ChatRoute.body := ChatRoute.ErrorBody "Failed to generate response";
              ChatRoute.status := 500 |}
       end,
     [ChatRoute.CallSearchSimilar m 2;
      ChatRoute.CallGenerateText ChatRoute.MODEL
                                 (ChatRoute.createPromptWithoutContext m)])
  /\ ChatRoute.createPromptWithoutContext m
     = Prompt.SYSTEM_PROMPT ++ nl ++ nl
       ++ "User Question: " ++ m ++ nl ++ nl
       ++ "Note: No relevant incident response procedures were found in the knowledge base. Please provide general assistance.".
Proof.
  intros Hm Hsearch. split.
  - rewrite (handle_message svc m Hm). rewrite Hsearch. reflexivity.
  - unfold ChatRoute.createPromptWithoutContext, join. cbn [concat].
    string_eq.
Qed.

Lemma POST_search_failure_swallowed_witness :
  ChatRoute.handle services_search_down (request_with "disk full")
  = (ChatRoute.Returns
       {| ChatRoute.body := ChatRoute.ChatBody "Restart the consumer." None;
          ChatRoute.status := 200 |},
     [ChatRoute.CallSearchSimilar "disk full" 2;
      ChatRoute.CallGenerateText
        ChatRoute.MODEL (ChatRoute.createPromptWithoutContext "disk full")]).
Proof.
  assert (Hm : "disk full" <> "") by discriminate.
  exact (proj1 (POST_search_failure_swallowed
                  services_search_down "disk full" "index down" Hm eq_refl)).
Defined.

(** C2, as stated, fails: the search succeeds and its one result scores
    0.9, the language model throws, and the response, the 500 one, has
    no [sources] field. *)
Lemma POST_sources_lost_when_model_down :
  ChatRoute.searchSimilar services_model_down "disk full" 2
  = ChatRoute.Returns [result_with_empty_section]
  /\ (0.5 <= VectorStore.score result_with_empty_section)%Q
  /\ exists calls : list ChatRoute.Call,
      ChatRoute.handle services_model_down (request_with "disk full")
      = (ChatRoute.Returns
           {| ChatRoute.body := ChatRoute.ErrorBody "Failed to generate response";
              ChatRoute.status := 500 |},
         calls)
      /\ ChatRoute.has_sources
           {| ChatRoute.body := ChatRoute.ErrorBody "Failed to generate response";
              ChatRoute.status := 500 |}
         = false.
Proof.
  split; [reflexivity|]. split; [apply Qle_bool_imp_le; reflexivity|].
  eexists. split; [vm_compute; reflexivity | reflexivity].
Qed.

(** C2, amended.  When the search succeeds and the language model
    returns, the response is the 200 one with the model's text; it has a
    [sources] field if and only if some search result scores at least
    0.5, and the field then holds the results that score at least 0.5,
    each as its [{filename, title, section}], in the order of the search
    results, and no other. *)
Theorem POST_sources_threshold
        (svc : ChatRoute.Services) (m text : string)
        (searchResults : list VectorStore.SearchResult) :
  let relevantResults :=
    filter (fun result => Qle_bool 0.5 (VectorStore.score result)) searchResults in
  let prompt :=
    match relevantResults with
    | [] => ChatRoute.createPromptWithoutContext m
    | _ :: _ => ChatRoute.createPromptWithContext
                  (DocumentProcessor.formatDocumentForRAG relevantResults) m
    end in
  m <> "" ->
  ChatRoute.searchSimilar svc m 2 = ChatRoute.Returns searchResults ->
  ChatRoute.generateText svc ChatRoute.MODEL prompt = ChatRoute.Returns text ->
  exists sources : option (list ChatRoute.Source),
    ChatRoute.handle svc (request_with m)
    = (ChatRoute.Returns
         {| ChatRoute.body := ChatRoute.ChatBody text sources;
            ChatRoute.status := 200 |},
       [ChatRoute.CallSearchSimilar m 2;
        ChatRoute.CallGenerateText ChatRoute.MODEL prompt])
    /\ (sources <> None
        <-> exists result, In result searchResults
                           /\ (0.5 <= VectorStore.score result)%Q)
    /\ (sources <> None ->
        sources = Some (map ChatRoute.source_of relevantResults))
    /\ (forall result,
           In result relevantResults
           <-> In result searchResults /\ (0.5 <= VectorStore.score result)%Q).
Proof.
  intros relevantResults prompt Hm Hsearch Hmodel.
  assert (Hin : forall result,
             In result relevantResults
             <-> In result searchResults /\ (0.5 <= VectorStore.score result)%Q).
  { intros result. unfold relevantResults. rewrite filter_In, Qle_bool_iff.
    reflexivity. }
  rewrite (handle_message svc m Hm). rewrite Hsearch.
  change (filter ChatRoute.relevant searchResults) with relevantResults.
  fold prompt. rewrite Hmodel.
  eexists. split; [reflexivity|].
  destruct relevantResults as [|result rest] eqn:Hrel.
  - split; [|split].
    + split; [congruence|]. intros (result & Hres).
      apply Hin in Hres. destruct Hres.
    + congruence.
    + exact Hin.
  - split; [|split].
    + split; [|discriminate]. intros _. exists result. apply Hin. left. reflexivity.
    + reflexivity.
    + exact Hin.
Qed.

Lemma POST_sources_threshold_witness :
  exists sources : option (list ChatRoute.Source),
    ChatRoute.handle services_up (request_with "disk full")
    = (ChatRoute.Returns
         {| ChatRoute.body := ChatRoute.ChatBody "Restart the consumer." sources;
            ChatRoute.status := 200 |},
       [ChatRoute.CallSearchSimilar "disk full" 2;
        ChatRoute.CallGenerateText
          ChatRoute.MODEL
          (ChatRoute.createPromptWithContext
             (DocumentProcessor.formatDocumentForRAG [result_with_empty_section])
             "disk full")])
    /\ (sources <> None ->
        sources = Some [{| ChatRoute.filename := "f.md";
                           ChatRoute.title := "T";
                           ChatRoute.section := Some "" |}]).
Proof.
  assert (Hm : "disk full" <> "") by discriminate.
  destruct (POST_sources_threshold services_up "disk full"
              "Restart the consumer." [result_with_empty_section]
              Hm eq_refl eq_refl)
    as (sources & Heq & _ & Hsources & _).
  exists sources. split; assumption.
Defined.

(* ================================================================== *)
(** ** simpleHash and generateEmbedding *)
(* ================================================================== *)

Lemma to_int32_range (z : Z) : (- 2 ^ 31 <= to_int32 z < 2 ^ 31)%Z.
Proof.
  unfold to_int32.
  pose proof (Z.mod_pos_bound (z + 2 ^ 31) (2 ^ 32) ltac:(lia)). lia.
Qed.

Lemma to_int32_small (z : Z) :
  (- 2 ^ 31 <= z < 2 ^ 31)%Z -> to_int32 z = z.
Proof.
  intros H. unfold to_int32. rewrite Z.mod_small by lia. lia.
Qed.

Lemma to_int32_add_l (a b : Z) : to_int32 (to_int32 a + b) = to_int32 (a + b).
Proof.
  unfold to_int32.
  replace ((a + 2 ^ 31) mod 2 ^ 32 - 2 ^ 31 + b + 2 ^ 31)%Z
    with ((a + 2 ^ 31) mod 2 ^ 32 + b)%Z by lia.
  rewrite Zplus_mod_idemp_l. do 2 f_equal. lia.
Qed.

(** One round multiplies the hash by 31, adds the code unit, and wraps
    to 32 bits. *)
Lemma hash_round_rolling (hash : Z) (c : ascii) :
  (- 2 ^ 31 <= hash < 2 ^ 31)%Z ->
  hash_round hash c = to_int32 (31 * hash + charCode c).
Proof.
  intros H. unfold hash_round, band, shl.
  rewrite Z.land_diag, (to_int32_small hash H).
  change (5 mod 32)%Z with 5%Z. rewrite Z.shiftl_mul_pow2 by lia.
  replace (to_int32 (hash * 2 ^ 5) - hash + charCode c)%Z
    with (to_int32 (hash * 2 ^ 5) + (charCode c - hash))%Z by lia.
  rewrite to_int32_add_l. f_equal. lia.
Qed.

Lemma hash_round_range (hash : Z) (c : ascii) :
  (- 2 ^ 31 <= hash_round hash c < 2 ^ 31)%Z.
Proof. unfold hash_round, band. rewrite Z.land_diag. apply to_int32_range. Qed.

Lemma hash_loop_range (str : string) :
  forall hash : Z,
    (- 2 ^ 31 <= hash < 2 ^ 31)%Z ->
    (- 2 ^ 31 <= hash_loop str hash < 2 ^ 31)%Z.
Proof.
  induction str as [|c str IH]; intros hash H; simpl; [exact H|].
  apply IH, hash_round_range.
Qed.

Lemma hash_loop_rolling (str : string) :
  forall hash : Z,
    (- 2 ^ 31 <= hash < 2 ^ 31)%Z ->
    hash_loop str hash
    = fold_left (fun h c => to_int32 (31 * h + charCode c))
                (list_ascii_of_string str) hash.
Proof.
  induction str as [|c str IH]; intros hash H; simpl; [reflexivity|].
  rewrite IH by apply hash_round_range.
  rewrite (hash_round_rolling hash c H). reflexivity.
Qed.

Lemma embedding_loop_entries (hash : Z) :
  forall (n : nat) (i : Z) (embedding : list R),
    embedding_loop hash n i embedding
    = (embedding
       ++ map (fun k => ((sin (IZR (hash + (i + Z.of_nat k))) + 1) / 2)%R)
              (seq 0 n))%list.
Proof.
  induction n as [|n IH]; intros i embedding.
  - simpl. rewrite app_nil_r. reflexivity.
  - cbn [embedding_loop]. rewrite IH, <- app_assoc. f_equal.
    change (seq 0 (S n)) with (0 :: seq 1 n).
    rewrite <- seq_shift, map_cons, map_map. cbn [app]. f_equal.
    + do 4 f_equal. lia.
    + apply map_ext. intros k. do 4 f_equal. lia.
Qed.

(** C9.  The hash-based [generateEmbedding] returns 384 numbers; entry
    [i] is [(sin(hash + i) + 1) / 2], a number between 0 and 1, where
    [hash] is [simpleHash(text)]: the absolute value of the rolling hash
    that, from 0, multiplies by 31 and adds each code unit, wrapping to a
    signed 32-bit integer at every step. *)
Theorem generateEmbedding_hash_based (text : string) :
  List.length (generateEmbedding text) = 384
  /\ generateEmbedding text
     = map (fun i => ((sin (IZR (simpleHash text + Z.of_nat i)) + 1) / 2)%R)
           (seq 0 384)
  /\ Forall (fun x => (0 <= x <= 1)%R) (generateEmbedding text)
  /\ simpleHash text
     = Z.abs (fold_left (fun h c => to_int32 (31 * h + charCode c))
                        (list_ascii_of_string text) 0%Z)
  /\ (0 <= simpleHash text <= 2 ^ 31)%Z.
Proof.
  assert (Heq : generateEmbedding text
                = map (fun i => ((sin (IZR (simpleHash text + Z.of_nat i)) + 1) / 2)%R)
                      (seq 0 384)).
  { unfold generateEmbedding. rewrite embedding_loop_entries. reflexivity. }
  split; [rewrite Heq, length_map, length_seq; reflexivity|].
  split; [exact Heq|]. split; [|split].
  - rewrite Heq. apply Forall_forall. intros x Hx.
    apply in_map_iff in Hx as (i & <- & _).
    pose proof (SIN_bound (IZR (simpleHash text + Z.of_nat i))). lra.
  - unfold simpleHash. rewrite hash_loop_rolling by lia. reflexivity.
  - unfold simpleHash.
    pose proof (hash_loop_range text 0%Z ltac:(lia)). lia.
Qed.

(* ================================================================== *)
(** ** More on chunkText *)
(* ================================================================== *)

Section JoinSplit.
Variable sep : ascii.

(** Joining what was split gives the string back. *)
Lemma join_split (s : string) : join (String sep "") (split sep s) = s.
Proof.
  unfold split, join. induction s as [|c s IH]; [reflexivity|].
  simpl split_pieces. destruct (split_pieces sep s) as [w ws].
  destruct (Ascii.eqb_spec c sep) as [->|Hne].
  - change (concat (String sep "") ("" :: w :: ws))
      with ("" ++ String sep (concat (String sep "") (w :: ws))).
    rewrite IH. reflexivity.
  - destruct ws as [|w' ws]; simpl in *; rewrite <- IH; reflexivity.
Qed.

Lemma join_app (l1 l2 : list string) :
  l1 <> [] -> l2 <> [] ->
  join (String sep "") (l1 ++ l2)
  = join (String sep "") l1 ++ String sep (join (String sep "") l2).
Proof.
  unfold join. intros H1 H2. induction l1 as [|x l1 IH]; [congruence|].
  destruct l1 as [|y l1].
  - destruct l2 as [|z l2]; [congruence|]. reflexivity.
  - change (concat (String sep "") ((x :: y :: l1) ++ l2))
      with (x ++ String sep (concat (String sep "") ((y :: l1) ++ l2))).
    rewrite IH by discriminate.
    change (concat (String sep "") (x :: y :: l1))
      with (x ++ String sep (concat (String sep "") (y :: l1))).
    rewrite !append_assoc. reflexivity.
Qed.

(** A run of pieces, joined, occurs in the join of the whole list. *)
Lemma join_occurs (a w b : list string) :
  w <> [] ->
  occurs_in (join (String sep "") w) (join (String sep "") (a ++ w ++ b)).
Proof.
  intros Hw. unfold occurs_in.
  assert (Hwb : (w ++ b)%list <> []) by (destruct w; [congruence | discriminate]).
  destruct a as [|x a]; destruct b as [|y b]; rewrite ?app_nil_r, ?app_nil_l.
  - exists "", "". rewrite append_nil_r. reflexivity.
  - exists "", (String sep (join (String sep "") (y :: b))).
    rewrite join_app by (try assumption; discriminate). reflexivity.
  - exists (join (String sep "") (x :: a) ++ String sep ""), "".
    rewrite join_app by (try assumption; discriminate).
    rewrite append_nil_r, append_assoc. reflexivity.
  - exists (join (String sep "") (x :: a) ++ String sep ""),
      (String sep (join (String sep "") (y :: b))).
    rewrite (join_app (x :: a)) by (try assumption; discriminate).
    rewrite (join_app w (y :: b)) by (try assumption; discriminate).
    rewrite !append_assoc. reflexivity.
Qed.
End JoinSplit.

Lemma occurs_in_refl (s : string) : occurs_in s s.
Proof. exists "", "". rewrite append_nil_r. reflexivity. Qed.

Lemma occurs_in_trans (a b c : string) :
  occurs_in a b -> occurs_in b c -> occurs_in a c.
Proof.
  intros (p & q & ->) (p' & q' & ->).
  exists (p' ++ p), (q ++ q'). rewrite !append_assoc. reflexivity.
Qed.

(** A window of the words of a text, joined, occurs in the text. *)
Lemma window_occurs (text : string) (n i : nat) :
  0 < n -> i < List.length (words text) ->
  occurs_in (join " " (window (words text) n i)) text.
Proof.
  intros Hn Hi. unfold window.
  pose proof (join_occurs " "%char (firstn i (words text))
                (firstn n (skipn i (words text)))
                (skipn n (skipn i (words text)))
                (window_nonempty _ n i Hn Hi)) as H.
  rewrite (firstn_skipn n (skipn i (words text))) in H.
  rewrite (firstn_skipn i (words text)) in H.
  unfold words in H at 2. rewrite join_split in H. exact H.
Qed.

Lemma slice_occurs (text : string) (i j : Z) :
  occurs_in (join " " (slice (words text) i j)) text.
Proof.
  unfold slice.
  set (k := Z.to_nat (relative_index (Z.of_nat (List.length (words text))) i)).
  set (n := Z.to_nat (relative_index (Z.of_nat (List.length (words text))) j
                      - relative_index (Z.of_nat (List.length (words text))) i)).
  destruct (firstn n (skipn k (words text))) as [|w ws] eqn:Hw.
  - exists "", text. reflexivity.
  - rewrite <- Hw.
    pose proof (join_occurs " "%char (firstn k (words text))
                  (firstn n (skipn k (words text)))
                  (skipn n (skipn k (words text)))) as H.
    rewrite (firstn_skipn n (skipn k (words text))) in H.
    rewrite (firstn_skipn k (words text)) in H.
    unfold words in H at 2. rewrite join_split in H.
    apply H. rewrite Hw. discriminate.
Qed.

Lemma chunkLoop_occurs (text : string) (chunkSize overlap : Z) :
  forall (fuel : nat) (i : Z) (acc chunks : list string),
    Forall (fun c => occurs_in c text) acc ->
    chunkLoop fuel (words text) chunkSize overlap i acc = Some chunks ->
    Forall (fun c => occurs_in c text) chunks.
Proof.
  induction fuel as [|fuel IH]; intros i acc chunks Hacc H; [discriminate|].
  simpl in H.
  assert (Hacc' : Forall (fun c => occurs_in c text)
                         (acc ++ [join " " (slice (words text) i (i + chunkSize))])).
  { apply Forall_app. split; [exact Hacc|].
    constructor; [apply slice_occurs | constructor]. }
  destruct (i <? Z.of_nat (List.length (words text)))%Z.
  - destruct (i + chunkSize >=? Z.of_nat (List.length (words text)))%Z.
    + injection H as <-. exact Hacc'.
    + exact (IH _ _ _ Hacc' H).
  - injection H as <-. exact Hacc.
Qed.

(** X1.  Whatever the sizes, every chunk [chunkText] returns occurs in the
    text character for character: chunking never alters, reorders or
    invents text. *)
Theorem chunkText_chunks_verbatim
        (text : string) (chunkSize overlap : Z) (chunks : list string) :
  chunkText text chunkSize overlap = Some chunks ->
  Forall (fun c => occurs_in c text) chunks.
Proof.
  unfold chunkText, chunkText_fuel.
  destruct (Z.of_nat (List.length (words text)) <=? chunkSize)%Z.
  - intros [= <-]. constructor; [apply occurs_in_refl | constructor].
  - apply chunkLoop_occurs. constructor.
Qed.

Lemma chunkText_chunks_verbatim_witness :
  Forall (fun c => occurs_in c "one two three four five")
         ["one two three"; "three four five"].
Proof.
  exact (chunkText_chunks_verbatim "one two three four five" 3 1
           ["one two three"; "three four five"] eq_refl).
Defined.

(** X2.  With an overlap below the chunk size no word is lost: word
    number [j] of the text is word number [j - k * (chunkSize - overlap)]
    of some chunk number [k]. *)
Theorem chunkText_loses_no_word (text : string) (chunkSize overlap : nat) :
  overlap < chunkSize ->
  exists chunks : list string,
    chunkText text (Z.of_nat chunkSize) (Z.of_nat overlap) = Some chunks
    /\ forall (j : nat) (w : string),
        nth_error (words text) j = Some w ->
        exists (k : nat) (c : string),
          nth_error chunks k = Some c
          /\ k * (chunkSize - overlap) <= j
          /\ nth_error (words c) (j - k * (chunkSize - overlap)) = Some w.
Proof.
  intros Hov.
  destruct (Nat.le_gt_cases (List.length (words text)) chunkSize) as [Hshort|Hlong].
  - exists [text]. split; [apply chunkText_whole; lia|].
    intros j w Hj. exists 0, text. simpl. rewrite Nat.sub_0_r.
    split; [reflexivity|]. split; [lia | exact Hj].
  - destruct (chunkText_windows text chunkSize overlap Hlong Hov)
      as (m & Heq & Hin & Hlast & Hreach).
    eexists. split; [exact Heq|]. intros j w Hj.
    assert (Hjlen : j < List.length (words text))
      by (apply nth_error_Some; congruence).
    set (step := chunkSize - overlap) in *.
    assert (Hstep : 0 < step) by (unfold step; lia).
    assert (Hk : exists k, k <= m /\ k * step <= j < k * step + chunkSize).
    { destruct (Nat.le_gt_cases (j / step) m) as [Hle|Hgt].
      - exists (j / step). split; [exact Hle|].
        pose proof (Nat.div_mod j step ltac:(lia)) as Hdm.
        pose proof (Nat.mod_upper_bound j step ltac:(lia)) as Hmod.
        unfold step in *. nia.
      - exists m. split; [lia|].
        assert (S m * step <= j).
        { pose proof (Nat.div_mod j step ltac:(lia)) as Hdm.
          assert (S m <= j / step) by lia. nia. }
        simpl in *. lia. }
    destruct Hk as (k & Hkm & Hlo & Hhi).
    exists k, (join " " (window (words text) chunkSize (k * step))).
    split; [|split; [exact Hlo|]].
    + rewrite nth_error_map, nth_error_seq.
      destruct (Nat.ltb_spec k (S m)); [reflexivity | lia].
    + rewrite words_window by lia.
      unfold window. rewrite nth_error_firstn.
      destruct (Nat.ltb_spec (j - k * step) chunkSize); [|lia].
      rewrite nth_error_skipn.
      replace (k * step + (j - k * step)) with j by lia. exact Hj.
Qed.

Lemma chunkText_loses_no_word_witness :
  exists chunks : list string,
    chunkText "one two three four five" (Z.of_nat 3) (Z.of_nat 1) = Some chunks
    /\ forall (j : nat) (w : string),
        nth_error (words "one two three four five") j = Some w ->
        exists (k : nat) (c : string),
          nth_error chunks k = Some c
          /\ k * (3 - 1) <= j
          /\ nth_error (words c) (j - k * (3 - 1)) = Some w.
Proof.
  apply (chunkText_loses_no_word "one two three four five" 3 1). lia.
Defined.

(** X3.  [chunkText] fails to return exactly when the text has more than
    [chunkSize] words and the overlap is not below the chunk size: then
    the loop never ends, however long it runs; otherwise it returns
    within one round per word plus one. *)
Theorem chunkText_returns_unless_stuck (text : string) (chunkSize overlap : Z) :
  ((chunkSize < Z.of_nat (List.length (words text)))%Z ->
   (chunkSize <= overlap)%Z ->
   forall fuel : nat, chunkText_fuel fuel text chunkSize overlap = None)
  /\ ((Z.of_nat (List.length (words text)) <= chunkSize)%Z
      \/ (overlap < chunkSize)%Z ->
      exists chunks : list string,
        chunkText text chunkSize overlap = Some chunks
        /\ forall fuel : nat,
            S (List.length (words text)) <= fuel ->
            chunkText_fuel fuel text chunkSize overlap = Some chunks).
Proof.
  split.
  - intros Hlong Hov fuel. unfold chunkText_fuel.
    destruct (Z.leb_spec (Z.of_nat (List.length (words text))) chunkSize); [lia|].
    apply chunkLoop_diverges; [apply words_nonempty | assumption | assumption | lia].
  - intros Hok.
    destruct (chunkText text chunkSize overlap) as [chunks|] eqn:Heq.
    + exists chunks. split; [reflexivity|]. intros fuel Hfuel.
      unfold chunkText, chunkText_fuel in *.
      destruct (Z.of_nat (List.length (words text)) <=? chunkSize)%Z;
        [exact Heq|].
      exact (chunkLoop_fuel_mono _ _ _ _ _ _ _ _ Hfuel Heq).
    + apply chunkText_diverges_iff in Heq. lia.
Qed.

Lemma chunkText_returns_unless_stuck_witness :
  (forall fuel : nat, chunkText_fuel fuel "a b c" 2 2 = None)
  /\ exists chunks : list string, chunkText "a b c" 2 1 = Some chunks.
Proof.
  split.
  - apply (proj1 (chunkText_returns_unless_stuck "a b c" 2 2)); simpl; lia.
  - destruct (proj2 (chunkText_returns_unless_stuck "a b c" 2 1))
      as (chunks & Heq & _); [right; lia|].
    exists chunks. exact Heq.
Defined.

(* ================================================================== *)
(** ** More on createDocumentChunks *)
(* ================================================================== *)

Lemma concat_empty_cons (x : string) (l : list string) :
  concat "" (x :: l) = x ++ concat "" l.
Proof. destruct l; simpl; [rewrite append_nil_r|]; reflexivity. Qed.

Lemma split_sections_from_concat (s : string) :
  forall prev : ascii,
    fst (split_sections_from prev s) ++ concat "" (snd (split_sections_from prev s))
    = s.
Proof.
  induction s as [|c s IH]; intros prev; [reflexivity|].
  simpl split_sections_from. specialize (IH c).
  destruct (split_sections_from c s) as [w ws]. simpl in IH.
  destruct (is_line_terminator prev && header_ahead (String c s)); simpl fst; simpl snd.
  - rewrite concat_empty_cons. simpl. rewrite IH. reflexivity.
  - simpl. rewrite IH. reflexivity.
Qed.

(** No piece ends right after a [#]. *)
Lemma split_sections_from_hash (s : string) :
  split_sections_from "#" s
  = match s with
    | EmptyString => (EmptyString, [])
    | String c s' =>
        (String c (fst (split_sections_from c s')), snd (split_sections_from c s'))
    end.
Proof.
  destruct s as [|c s']; [reflexivity|]. simpl.
  destruct (split_sections_from c s'). reflexivity.
Qed.

(** A piece cut where the lookahead holds still has its header start. *)
Lemma header_ahead_piece (c : ascii) (s : string) :
  header_ahead (String c s) = true ->
  header_ahead (String c (fst (split_sections_from c s))) = true.
Proof.
  unfold header_ahead, hashes_1_3.
  destruct (Ascii.eqb_spec c "#") as [->|Hne].
  2:{ destruct c as [[] [] [] [] [] [] [] []]; try discriminate.
      congruence. }
  rewrite split_sections_from_hash.
  destruct s as [|c1 s1]; [discriminate|]. cbn [fst].
  destruct (Ascii.eqb_spec c1 "#") as [->|Hne1].
  2:{ destruct c1 as [[] [] [] [] [] [] [] []]; try congruence;
        simpl; intros H; exact H. }
  rewrite split_sections_from_hash.
  destruct s1 as [|c2 s2]; [discriminate|]. cbn [fst].
  destruct (Ascii.eqb_spec c2 "#") as [->|Hne2].
  2:{ destruct c2 as [[] [] [] [] [] [] [] []]; try congruence;
        simpl; intros H; exact H. }
  rewrite split_sections_from_hash.
  destruct s2 as [|c3 s3]; [discriminate|]. cbn [fst].
  destruct c3 as [[] [] [] [] [] [] [] []]; simpl; intros H; exact H.
Qed.

Lemma split_sections_from_headers (s : string) :
  forall prev : ascii,
    Forall (fun piece => header_ahead piece = true)
           (snd (split_sections_from prev s)).
Proof.
  induction s as [|c s IH]; intros prev; [constructor|].
  simpl split_sections_from. specialize (IH c).
  pose proof (header_ahead_piece c s) as Hpiece.
  destruct (split_sections_from c s) as [w ws]. simpl in IH, Hpiece.
  destruct (is_line_terminator prev); cbn [andb]; [|exact IH].
  destruct (header_ahead (String c s)); cbn [snd]; [|exact IH].
  constructor; [exact (Hpiece eq_refl) | exact IH].
Qed.

(** X4.  Splitting a document into sections loses nothing: the sections,
    one after the other, are the document; every section after the first
    begins with a header (one to three [#] and a whitespace character);
    and no section of a document that is not empty is empty. *)
Theorem split_sections_partition (content : string) :
  exists (first : string) (rest : list string),
    split_sections content = first :: rest
    /\ first ++ concat "" rest = content
    /\ Forall (fun section => header_ahead section = true) rest
    /\ (first = "" <-> content = "")
    /\ Forall (fun section => section <> "") rest.
Proof.
  destruct content as [|c s].
  - exists "", []. repeat split; constructor.
  - pose proof (split_sections_from_concat s c) as Hcat.
    pose proof (split_sections_from_headers s c) as Hhead.
    unfold split_sections.
    destruct (split_sections_from c s) as [w ws]. simpl in Hcat, Hhead.
    exists (String c w), ws. split; [reflexivity|].
    split; [simpl; rewrite Hcat; reflexivity|].
    split; [exact Hhead|]. split; [split; discriminate|].
    eapply Forall_impl; [|exact Hhead].
    intros piece Hpiece ->. discriminate.
Qed.

Section ChunkInvariant.
Variables filename title : string.
Variable I : list DocumentChunk -> Prop.

Lemma forEach_textChunk_invariant (sectionTitle : option string) (si : nat)
      (all : list string) :
  (forall (chunks : list DocumentChunk) (ci : nat) (chunk : string),
      In chunk all ->
      trim chunk <> "" ->
      I chunks ->
      I (chunks ++ [pushed_chunk filename title sectionTitle si ci chunk
                                 (List.length chunks)])) ->
  forall (textChunks : list string) (ci : nat) (chunks : list DocumentChunk),
    incl textChunks all ->
    I chunks ->
    I (forEach_textChunk filename title sectionTitle si textChunks ci chunks).
Proof.
  intros Hstep. induction textChunks as [|chunk rest IH];
    intros ci chunks Hincl Hchunks; [exact Hchunks|].
  simpl forEach_textChunk.
  assert (Hrest : incl rest all) by (intros x Hx; apply Hincl; right; exact Hx).
  destruct (trim chunk) as [|a t] eqn:Htrim; simpl Nat.ltb; cbv iota.
  - apply IH; assumption.
  - apply IH; [assumption|].
    apply (Hstep chunks ci chunk); [apply Hincl; left; reflexivity| |exact Hchunks].
    rewrite Htrim. discriminate.
Qed.

Lemma forEach_section_invariant (all : list string) :
  (forall (chunks : list DocumentChunk) (section : string)
          (textChunks : list string) (si ci : nat) (chunk : string),
      In section all ->
      chunkText (trim section) 500 50 = Some textChunks ->
      In chunk textChunks ->
      trim chunk <> "" ->
      I chunks ->
      I (chunks ++ [pushed_chunk filename title (sectionTitle_of section)
                                 si ci chunk (List.length chunks)])) ->
  forall (sections : list string) (si : nat) (chunks result : list DocumentChunk),
    incl sections all ->
    I chunks ->
    forEach_section filename title sections si chunks = Some result ->
    I result.
Proof.
  intros Hstep. induction sections as [|section rest IH];
    intros si chunks result Hincl Hchunks Hres.
  - injection Hres as <-. exact Hchunks.
  - simpl in Hres.
    destruct (chunkText (trim section) 500 50) as [textChunks|] eqn:Htc;
      [|discriminate].
    refine (IH (S si) _ result _ _ Hres);
      [intros x Hx; apply Hincl; right; exact Hx|].
    apply (forEach_textChunk_invariant _ _ textChunks);
      [|apply incl_refl | exact Hchunks].
    intros chunks' ci chunk Hin Hnb Hc.
    apply (Hstep chunks' section textChunks si ci chunk); try assumption.
    apply Hincl. left. reflexivity.
Qed.
End ChunkInvariant.

Lemma trimStart_suffix (s : string) : exists pre, s = pre ++ trimStart s.
Proof.
  induction s as [|c s [pre IH]]; [exists ""; reflexivity|].
  simpl. destruct (is_whitespace c).
  - exists (String c pre). simpl. rewrite <- IH. reflexivity.
  - exists "". reflexivity.
Qed.

Lemma trimEnd_prefix (s : string) : exists post, s = trimEnd s ++ post.
Proof.
  induction s as [|c s [post IH]]; [exists ""; reflexivity|].
  simpl. destruct (trimEnd s) as [|d t] eqn:Ht.
  - destruct (is_whitespace c).
    + exists (String c s). reflexivity.
    + exists post. simpl in *. rewrite <- IH. reflexivity.
  - exists post. simpl in *. rewrite <- IH. reflexivity.
Qed.

(** What [trim] returns occurs in its argument. *)
Lemma trim_occurs (s : string) : occurs_in (trim s) s.
Proof.
  unfold trim. destruct (trimStart_suffix s) as [pre Hpre].
  destruct (trimEnd_prefix (trimStart s)) as [post Hpost].
  exists pre, post. rewrite <- Hpost. exact Hpre.
Qed.

Lemma concat_empty_occurs (x : string) (l : list string) :
  In x l -> occurs_in x (concat "" l).
Proof.
  induction l as [|y l IH]; intros Hin; [destruct Hin|].
  rewrite concat_empty_cons. destruct Hin as [->|Hin].
  - exists "", (concat "" l). reflexivity.
  - destruct (IH Hin) as (before & after & ->).
    exists (y ++ before), after. rewrite append_assoc. reflexivity.
Qed.

(** Every section occurs in the document. *)
Lemma split_sections_occurs (content section : string) :
  In section (split_sections content) -> occurs_in section content.
Proof.
  intros Hin.
  assert (H : concat "" (split_sections content) = content).
  { destruct content as [|c s]; [reflexivity|].
    pose proof (split_sections_from_concat s c) as Hcat.
    unfold split_sections. destruct (split_sections_from c s) as [w ws].
    rewrite concat_empty_cons. simpl in *. rewrite Hcat. reflexivity. }
  rewrite <- H. apply concat_empty_occurs, Hin.
Qed.

Lemma chunkText_500_50_occurs (text : string) (textChunks : list string) :
  chunkText text 500 50 = Some textChunks ->
  Forall (fun c => occurs_in c text) textChunks.
Proof.
  unfold chunkText, chunkText_fuel.
  destruct (Z.of_nat (List.length (words text)) <=? 500)%Z.
  - intros [= <-]. constructor; [apply occurs_in_refl | constructor].
  - apply chunkLoop_occurs. constructor.
Qed.

Lemma createDocumentChunks_first_pass (content filename title : string) :
  exists first : list DocumentChunk,
    forEach_section filename title (split_sections content) 0 [] = Some first
    /\ createDocumentChunks content filename title
       = Some (map (set_totalChunks (List.length first)) first).
Proof.
  destruct (createDocumentChunks_placed content filename title)
    as (first & tags & Hfirst & Heq & _).
  exists first. split; assumption.
Qed.

(** X5.  In the list [createDocumentChunks] returns, the chunk at position
    [k] has [metadata.chunkIndex] equal to [k]. *)
Theorem createDocumentChunks_chunkIndex (content filename title : string) :
  exists chunks : list DocumentChunk,
    createDocumentChunks content filename title = Some chunks
    /\ forall (k : nat) (chunk : DocumentChunk),
        nth_error chunks k = Some chunk ->
        chunkIndex (metadata chunk) = k.
Proof.
  destruct (createDocumentChunks_first_pass content filename title)
    as (first & Hfirst & Heq).
  eexists. split; [exact Heq|].
  assert (Hinv : forall k chunk,
             nth_error first k = Some chunk -> chunkIndex (metadata chunk) = k).
  { apply (forEach_section_invariant filename title
             (fun chunks => forall k chunk,
                  nth_error chunks k = Some chunk ->
                  chunkIndex (metadata chunk) = k)
             (split_sections content))
      with (sections := split_sections content) (si := 0) (chunks := []);
      [|apply incl_refl| |exact Hfirst].
    - intros chunks section textChunks si ci chunk _ _ _ _ Hchunks k c Hk.
      destruct (Nat.lt_ge_cases k (List.length chunks)) as [Hlt|Hge].
      + rewrite nth_error_app1 in Hk by exact Hlt. exact (Hchunks k c Hk).
      + rewrite nth_error_app2 in Hk by exact Hge.
        destruct (k - List.length chunks) as [|d] eqn:Hd.
        * injection Hk as <-. simpl. lia.
        * destruct d; discriminate.
    - intros [|k] chunk Hk; discriminate. }
  intros k chunk Hk. rewrite nth_error_map in Hk.
  destruct (nth_error first k) as [chunk0|] eqn:Hk0; [|discriminate].
  injection Hk as <-. simpl. exact (Hinv k chunk0 Hk0).
Qed.

(** X6.  Every chunk [createDocumentChunks] returns has a content that is
    not blank and occurs in the document character for character, in the
    trimmed text of one of its sections; its metadata carry the file name
    and the title given, and as section the title of the header of that
    section. *)
Theorem createDocumentChunks_content_verbatim (content filename title : string) :
  exists chunks : list DocumentChunk,
    createDocumentChunks content filename title = Some chunks
    /\ Forall (fun chunk =>
                 trim (Embeddings.content chunk) <> ""
                 /\ occurs_in (Embeddings.content chunk) content
                 /\ Embeddings.filename (metadata chunk) = filename
                 /\ Embeddings.title (metadata chunk) = title
                 /\ exists section : string,
                     In section (split_sections content)
                     /\ occurs_in (Embeddings.content chunk) (trim section)
                     /\ Embeddings.section (metadata chunk)
                        = sectionTitle_of section)
              chunks.
Proof.
  destruct (createDocumentChunks_first_pass content filename title)
    as (first & Hfirst & Heq).
  eexists. split; [exact Heq|].
  set (P := fun chunk : DocumentChunk =>
              trim (Embeddings.content chunk) <> ""
              /\ occurs_in (Embeddings.content chunk) content
              /\ Embeddings.filename (metadata chunk) = filename
              /\ Embeddings.title (metadata chunk) = title
              /\ exists section : string,
                  In section (split_sections content)
                  /\ occurs_in (Embeddings.content chunk) (trim section)
                  /\ Embeddings.section (metadata chunk)
                     = sectionTitle_of section).
  assert (Hinv : Forall P first).
  { apply (forEach_section_invariant filename title (Forall P)
             (split_sections content))
      with (sections := split_sections content) (si := 0) (chunks := []);
      [|apply incl_refl|constructor|exact Hfirst].
    intros chunks section textChunks si ci chunk Hsec Htc Hin Hnb Hchunks.
    apply Forall_app. split; [exact Hchunks|].
    constructor; [|constructor].
    assert (Hocc : occurs_in chunk (trim section)).
    { apply (proj1 (Forall_forall _ _) (chunkText_500_50_occurs _ _ Htc)), Hin. }
    unfold P. simpl. split; [exact Hnb|]. split.
    - apply (occurs_in_trans _ (trim section)); [exact Hocc|].
      apply (occurs_in_trans _ section); [apply trim_occurs|].
      apply split_sections_occurs, Hsec.
    - split; [reflexivity|]. split; [reflexivity|].
      exists section. repeat split; assumption. }
  apply Forall_forall. intros chunk Hin.
  apply in_map_iff in Hin as (chunk0 & <- & Hin0).
  exact (proj1 (Forall_forall _ _) Hinv chunk0 Hin0).
Qed.

Lemma trimEnd_empty_blank (s : string) : trimEnd s = "" -> blank s.
Proof.
  induction s as [|c s IH]; [intros _; exact I|].
  simpl. destruct (trimEnd s); [|discriminate].
  destruct (is_whitespace c) eqn:Hc; [|discriminate].
  intros _. split; [reflexivity | apply IH; reflexivity].
Qed.

Lemma trimStart_blank (s : string) : blank (trimStart s) -> blank s.
Proof.
  induction s as [|c s IH]; [intros _; exact I|].
  simpl. destruct (is_whitespace c) eqn:Hc.
  - intros H. split; [reflexivity | exact (IH H)].
  - intros [H _]. congruence.
Qed.

(** [trim] returns the empty string only for a blank string. *)
Lemma trim_empty_blank (s : string) : trim s = "" -> blank s.
Proof. intros H. apply trimStart_blank, trimEnd_empty_blank, H. Qed.

Lemma blank_free_of_hash (s : string) : blank s -> free_of "#"%char s.
Proof.
  induction s as [|c s IH]; [intros _; exact I|].
  intros [Hc Hs]. split; [|exact (IH Hs)].
  intros ->. discriminate.
Qed.

Lemma header_ahead_needs_hash (c : ascii) (s : string) :
  c <> "#"%char -> header_ahead (String c s) = false.
Proof.
  intros Hne. unfold header_ahead, hashes_1_3.
  destruct c as [[] [] [] [] [] [] [] []]; try reflexivity. congruence.
Qed.

Lemma header_here_needs_hash (c : ascii) (s : string) :
  c <> "#"%char -> header_here (String c s) = None.
Proof.
  intros Hne. unfold header_here, hashes_1_3.
  destruct c as [[] [] [] [] [] [] [] []]; try reflexivity. congruence.
Qed.

(** Without a [#] there is one section, and it has no title. *)
Lemma split_sections_from_no_hash (s : string) :
  free_of "#"%char s ->
  forall prev : ascii, split_sections_from prev s = (s, []).
Proof.
  induction s as [|c s IH]; intros Hfree prev; [reflexivity|].
  destruct Hfree as [Hc Hs]. simpl. rewrite (IH Hs c).
  rewrite (header_ahead_needs_hash c s Hc), andb_false_r. reflexivity.
Qed.

Lemma split_sections_no_hash (s : string) :
  free_of "#"%char s -> split_sections s = [s].
Proof.
  destruct s as [|c s]; [reflexivity|]. intros [Hc Hs].
  unfold split_sections. rewrite (split_sections_from_no_hash s Hs c).
  reflexivity.
Qed.

Lemma header_search_no_hash (s : string) :
  free_of "#"%char s -> forall b : bool, header_search b s = None.
Proof.
  induction s as [|c s IH]; intros Hfree b.
  - destruct b; reflexivity.
  - destruct Hfree as [Hc Hs].
    destruct b; cbn [header_search];
      rewrite ?(header_here_needs_hash c s Hc); apply IH; exact Hs.
Qed.

(** X7.  A document that is blank, the empty one included, gives no
    chunk at all. *)
Theorem createDocumentChunks_blank (content filename title : string) :
  trim content = "" ->
  createDocumentChunks content filename title = Some [].
Proof.
  intros Hblank. unfold createDocumentChunks.
  rewrite (split_sections_no_hash content)
    by (apply blank_free_of_hash, trim_empty_blank, Hblank).
  simpl forEach_section. rewrite Hblank. reflexivity.
Qed.

Lemma createDocumentChunks_blank_witness :
  createDocumentChunks (" " ++ nl ++ " ") "f.md" "T" = Some [].
Proof. apply createDocumentChunks_blank. reflexivity. Defined.

Lemma trimEnd_idempotent (s : string) : trimEnd (trimEnd s) = trimEnd s.
Proof.
  induction s as [|c s IH]; [reflexivity|].
  simpl. destruct (trimEnd s) as [|d t] eqn:Ht.
  - destruct (is_whitespace c) eqn:Hc; [reflexivity|].
    simpl. rewrite Hc. reflexivity.
  - change (trimEnd (String c (String d t)))
      with (match trimEnd (String d t) with
            | EmptyString =>
                if is_whitespace c then EmptyString else String c EmptyString
            | t' => String c t'
            end).
    rewrite IH. reflexivity.
Qed.

(** What [trimStart] returns is empty or begins with a character that
    is not whitespace; [trimEnd] keeps such a beginning. *)
Lemma trimStart_head (s : string) :
  trimStart s = ""
  \/ exists c t, trimStart s = String c t /\ is_whitespace c = false.
Proof.
  induction s as [|c s IH]; [left; reflexivity|].
  simpl. destruct (is_whitespace c) eqn:Hc; [exact IH|].
  right. exists c, s. split; [reflexivity | exact Hc].
Qed.

Lemma trimEnd_head (c : ascii) (s : string) :
  is_whitespace c = false -> exists t, trimEnd (String c s) = String c t.
Proof.
  intros Hc. simpl. destruct (trimEnd s) as [|d t].
  - rewrite Hc. exists "". reflexivity.
  - exists (String d t). reflexivity.
Qed.

(** Trimming twice is trimming once. *)
Lemma trim_idempotent (s : string) : trim (trim s) = trim s.
Proof.
  unfold trim at 2 3.
  destruct (trimStart_head s) as [H|(c & t & H & Hc)]; rewrite H.
  - reflexivity.
  - destruct (trimEnd_head c t Hc) as [t' Ht']. unfold trim.
    rewrite Ht'. simpl trimStart. rewrite Hc. rewrite <- Ht'.
    apply trimEnd_idempotent.
Qed.

(** X8.  A document without any [#], not blank and of at most 500 words
    once trimmed, gives exactly one chunk: its trimmed text, under the id
    [filename_0_0], without section, with index 0 of 1. *)
Theorem createDocumentChunks_single (content filename title : string) :
  free_of "#"%char content ->
  trim content <> "" ->
  List.length (words (trim content)) <= 500 ->
  createDocumentChunks content filename title
  = Some [{| id := filename ++ "_0_0";
             Embeddings.content := trim content;
             metadata := {| Embeddings.filename := filename;
                            Embeddings.title := title;
                            section := None;
                            chunkIndex := 0;
                            totalChunks := 1 |} |}].
Proof.
  intros Hfree Hnb Hshort. unfold createDocumentChunks.
  rewrite (split_sections_no_hash content Hfree).
  simpl forEach_section.
  rewrite (chunkText_whole (trim content) 500 50) by lia.
  unfold sectionTitle_of. rewrite (header_search_no_hash content Hfree true).
  cbn [forEach_textChunk].
  rewrite trim_idempotent.
  destruct (trim content) as [|a t] eqn:Htrim; [congruence|].
  reflexivity.
Qed.

Lemma createDocumentChunks_single_witness :
  createDocumentChunks (" restart the consumer" ++ nl) "f.md" "T"
  = Some [{| id := "f.md_0_0";
             Embeddings.content := "restart the consumer";
             metadata := {| Embeddings.filename := "f.md";
                            Embeddings.title := "T";
                            section := None;
                            chunkIndex := 0;
                            totalChunks := 1 |} |}].
Proof.
  apply (createDocumentChunks_single (" restart the consumer" ++ nl) "f.md" "T").
  - simpl. repeat split; discriminate.
  - discriminate.
  - simpl. lia.
Defined.

(* ================================================================== *)
(** ** More on the embeddings *)
(* ================================================================== *)

Lemma generateEmbeddings_loop_map (texts : list string) :
  forall embeddings : list (list R),
    generateEmbeddings_loop texts embeddings
    = (embeddings ++ map generateEmbedding texts)%list.
Proof.
  induction texts as [|text rest IH]; intros embeddings; simpl.
  - rewrite app_nil_r. reflexivity.
  - rewrite IH, <- app_assoc. reflexivity.
Qed.

Lemma generateEmbedding_entries (text : string) :
  generateEmbedding text
  = map (fun i => ((sin (IZR (simpleHash text + Z.of_nat i)) + 1) / 2)%R)
        (seq 0 384).
Proof. unfold generateEmbedding. rewrite embedding_loop_entries. reflexivity. Qed.

(** X9.  [generateEmbeddings] returns one embedding per text, in the order
    of the texts: entry [i] is the embedding of text [i], and has 384
    numbers. *)
Theorem generateEmbeddings_one_per_text (texts : list string) :
  List.length (generateEmbeddings texts) = List.length texts
  /\ (forall (i : nat) (text : string),
         nth_error texts i = Some text ->
         nth_error (generateEmbeddings texts) i = Some (generateEmbedding text))
  /\ Forall (fun embedding => List.length embedding = 384)
            (generateEmbeddings texts).
Proof.
  unfold generateEmbeddings. rewrite generateEmbeddings_loop_map. simpl app.
  split; [apply length_map|]. split.
  - intros i text Hi. rewrite nth_error_map, Hi. reflexivity.
  - apply Forall_forall. intros e He. apply in_map_iff in He as (text & <- & _).
    rewrite generateEmbedding_entries, length_map, length_seq. reflexivity.
Qed.

Lemma generateEmbeddings_one_per_text_witness :
  nth_error (generateEmbeddings ["disk full"; "queue backlog"]) 1
  = Some (generateEmbedding "queue backlog").
Proof.
  exact (proj1 (proj2 (generateEmbeddings_one_per_text
                         ["disk full"; "queue backlog"]))
               1 "queue backlog" eq_refl).
Defined.

(** X10.  The hash-based embedding carries nothing of the text but its
    hash: when the hash of [b] is the hash of [a] plus [d], the embedding
    of [b] is the embedding of [a] moved by [d] places; texts with the
    same hash ([d = 0]) have the same embedding. *)
Theorem generateEmbedding_shift (a b : string) (d i : nat) :
  simpleHash b = (simpleHash a + Z.of_nat d)%Z ->
  i + d < 384 ->
  nth_error (generateEmbedding b) i = nth_error (generateEmbedding a) (i + d).
Proof.
  intros Hhash Hi. rewrite !generateEmbedding_entries, !nth_error_map,
    !nth_error_seq.
  destruct (Nat.ltb_spec i 384); [|lia].
  destruct (Nat.ltb_spec (i + d) 384); [|lia].
  simpl. rewrite Hhash. do 5 f_equal. lia.
Qed.

Lemma generateEmbedding_shift_witness :
  nth_error (generateEmbedding "c") 5 = nth_error (generateEmbedding "a") (5 + 2).
Proof.
  apply (generateEmbedding_shift "a" "c" 2 5); [reflexivity | lia].
Defined.

(* ================================================================== *)
(** ** More on formatDocumentForRAG *)
(* ================================================================== *)

(** X11.  [formatDocumentForRAG] returns the empty string for the empty
    list only: the caller's test [context ? ... : ...] tells whether
    there were results. *)
Theorem formatDocumentForRAG_empty_iff
        (searchResults : list VectorStore.SearchResult) :
  DocumentProcessor.formatDocumentForRAG searchResults = ""
  <-> searchResults = [].
Proof.
  split.
  - destruct searchResults as [|result rest]; [reflexivity|].
    intros H. pose proof (formatDocumentForRAG_truthy result rest) as Ht.
    rewrite H in Ht. discriminate.
  - intros ->. reflexivity.
Qed.

Lemma forEach_result_numbered :
  forall (results : list VectorStore.SearchResult) (index : nat) (ctx : string),
  exists added : string,
    DocumentProcessor.forEach_result results index ctx = ctx ++ added
    /\ occurs_in_order (numbered_headings index results) added.
Proof.
  induction results as [|result rest IH]; intros index ctx.
  - exists "". simpl. rewrite append_nil_r. split; [reflexivity | exact I].
  - rewrite forEach_result_step.
    match goal with
    | |- context [DocumentProcessor.forEach_result rest (S index) (ctx ++ ?b)] =>
        destruct (IH (S index) (ctx ++ b)) as (added & Heq & Hocc);
        exists (b ++ added)
    end.
    rewrite Heq, append_assoc. split; [reflexivity|].
    cbn [numbered_headings occurs_in_order].
    set (tail := (VectorStore.content (VectorStore.metadata result) ++ nl ++ nl)
                 ++ ("*Source: "
                     ++ VectorStore.filename (VectorStore.metadata result)
                     ++ "*" ++ nl ++ nl)).
    destruct (VectorStore.section (VectorStore.metadata result)) as [s|];
      [destruct (truthy s)|].
    + exists "", ((("### " ++ s ++ nl) ++ tail) ++ added).
      split; [unfold tail; string_eq | apply occurs_in_order_skip, Hocc].
    + exists "", (tail ++ added).
      split; [unfold tail; string_eq | apply occurs_in_order_skip, Hocc].
    + exists "", (tail ++ added).
      split; [unfold tail; string_eq | apply occurs_in_order_skip, Hocc].
Qed.

(** X12.  In the formatted context the results are numbered from 1 in
    the order of the list: after the preamble come, one after the other,
    the heading lines [## Document 1: title], [## Document 2: title],
    and so on. *)
Theorem formatDocumentForRAG_numbers_results
        (result : VectorStore.SearchResult)
        (rest : list VectorStore.SearchResult) :
  exists body : string,
    DocumentProcessor.formatDocumentForRAG (result :: rest)
    = DocumentProcessor.preamble ++ body
    /\ occurs_in_order (numbered_headings 0 (result :: rest)) body.
Proof.
  unfold DocumentProcessor.formatDocumentForRAG. simpl Nat.eqb. cbv iota.
  apply forEach_result_numbered.
Qed.

(* ================================================================== *)
(** ** More on the chat route *)
(* ================================================================== *)


Lemma filter_all_below (results : list VectorStore.SearchResult) :
  Forall (fun result => (VectorStore.score result < 0.5)%Q) results ->
  filter ChatRoute.relevant results = [].
Proof.
  induction 1 as [|result rest Hlt _ IH]; [reflexivity|].
  simpl. rewrite IH. unfold ChatRoute.relevant.
  destruct (Qle_bool ChatRoute.SIMILARITY_THRESHOLD (VectorStore.score result))
    eqn:Hle; [|reflexivity].
  apply Qle_bool_iff in Hle. unfold ChatRoute.SIMILARITY_THRESHOLD in Hle.
  exfalso. exact (Qle_not_lt _ _ Hle Hlt).
Qed.

(** X14.  Results that all score below 0.5 never reach the language
    model: the handler then prompts it exactly as when the search finds
    nothing, with the prompt without context, and cites no source. *)
Theorem POST_low_scores_ungrounded
        (svc : ChatRoute.Services) (m : string)
        (searchResults : list VectorStore.SearchResult) :
  m <> "" ->
  ChatRoute.searchSimilar svc m 2 = ChatRoute.Returns searchResults ->
  Forall (fun result => (VectorStore.score result < 0.5)%Q) searchResults ->
  ChatRoute.handle svc (request_with m)
  = (ChatRoute.Returns
       match ChatRoute.generateText svc ChatRoute.MODEL
                                    (ChatRoute.createPromptWithoutContext m) with
       | ChatRoute.Returns text =>
           {| ChatRoute.body := ChatRoute.ChatBody text None;
              ChatRoute.status := 200 |}
       | ChatRoute.Throws _ =>
           {| ChatRoute.body := ChatRoute.ErrorBody "Failed to generate response";
              ChatRoute.status := 500 |}
       end,
     [ChatRoute.CallSearchSimilar m 2;
      ChatRoute.CallGenerateText ChatRoute.MODEL
                                 (ChatRoute.createPromptWithoutContext m)]).
Proof.
  intros Hm Hsearch Hlow.
  rewrite (handle_message svc m Hm). rewrite Hsearch.
  rewrite (filter_all_below searchResults Hlow). reflexivity.
Qed.

Lemma POST_low_scores_ungrounded_witness :
  ChatRoute.handle services_low_score (request_with "disk full")
  = (ChatRoute.Returns
       {| ChatRoute.body := ChatRoute.ChatBody "Restart the consumer." None;
          ChatRoute.status := 200 |},
     [ChatRoute.CallSearchSimilar "disk full" 2;
      ChatRoute.CallGenerateText
        ChatRoute.MODEL (ChatRoute.createPromptWithoutContext "disk full")]).
Proof.
  assert (Hm : "disk full" <> "") by discriminate.
  assert (Hlow : Forall (fun result => (VectorStore.score result < 0.5)%Q)
                        [result_scoring_low]).
  { constructor; [reflexivity | constructor]. }
  exact (POST_low_scores_ungrounded services_low_score "disk full"
           [result_scoring_low] Hm eq_refl Hlow).
Defined.

Lemma occurs_in_order_one (n before after : string) :
  occurs_in_order [n] (before ++ n ++ after).
Proof. exists before, after. split; [reflexivity | exact I]. Qed.

(** X15.  When some result scores at least 0.5, the prompt given to the
    language model has, in this order: the system prompt, the preamble of
    the context, then for every result that scores at least 0.5, in the
    order of the search, its title, section heading if any, content and
    source marker, then the user's question and the closing
    instructions. *)
Theorem POST_grounded_prompt
        (svc : ChatRoute.Services) (m : string)
        (searchResults : list VectorStore.SearchResult) :
  let relevantResults :=
    filter (fun result => Qle_bool 0.5 (VectorStore.score result)) searchResults in
  m <> "" ->
  ChatRoute.searchSimilar svc m 2 = ChatRoute.Returns searchResults ->
  relevantResults <> [] ->
  exists (response : ChatRoute.NextResponse) (prompt : string),
    ChatRoute.handle svc (request_with m)
    = (ChatRoute.Returns response,
       [ChatRoute.CallSearchSimilar m 2;
        ChatRoute.CallGenerateText ChatRoute.MODEL prompt])
    /\ occurs_in_order
         ([Prompt.SYSTEM_PROMPT; DocumentProcessor.preamble]
            ++ flat_map shown relevantResults
            ++ [("User Question: " ++ m)%string; Prompt.RAG_INSTRUCTIONS])%list
         prompt.
Proof.
  intros relevantResults Hm Hsearch Hrel.
  rewrite (handle_message svc m Hm). rewrite Hsearch.
  change (filter ChatRoute.relevant searchResults) with relevantResults.
  destruct relevantResults as [|result rest] eqn:Hr; [congruence|].
  eexists. eexists. split; [reflexivity|].
  destruct (forEach_result_shows (result :: rest) 0 DocumentProcessor.preamble)
    as (body & Hbody & Hshown).
  unfold ChatRoute.createPromptWithContext, join. cbn [concat].
  unfold DocumentProcessor.formatDocumentForRAG. simpl Nat.eqb. cbv iota.
  rewrite Hbody.
  replace (Prompt.SYSTEM_PROMPT ++ nl ++ "" ++ nl
           ++ (DocumentProcessor.preamble ++ body) ++ nl ++ "" ++ nl
           ++ ("User Question:" ++ " " ++ m) ++ nl ++ "" ++ nl
           ++ Prompt.RAG_INSTRUCTIONS)
    with (("" ++ Prompt.SYSTEM_PROMPT ++ nl ++ nl)
          ++ ("" ++ DocumentProcessor.preamble ++ "")
          ++ body
          ++ ((nl ++ nl) ++ ("User Question: " ++ m) ++ nl ++ nl)
          ++ ("" ++ Prompt.RAG_INSTRUCTIONS ++ ""))
    by string_eq.
  change ([Prompt.SYSTEM_PROMPT; DocumentProcessor.preamble]
            ++ flat_map shown (result :: rest)
            ++ [("User Question: " ++ m)%string; Prompt.RAG_INSTRUCTIONS])%list
    with ([Prompt.SYSTEM_PROMPT]
            ++ [DocumentProcessor.preamble]
            ++ flat_map shown (result :: rest)
            ++ [("User Question: " ++ m)%string]
            ++ [Prompt.RAG_INSTRUCTIONS])%list.
  repeat (apply occurs_in_order_app;
          [first [apply occurs_in_order_one | exact Hshown]|]).
  apply occurs_in_order_one.
Qed.

Lemma POST_grounded_prompt_witness :
  exists (response : ChatRoute.NextResponse) (prompt : string),
    ChatRoute.handle services_up (request_with "disk full")
    = (ChatRoute.Returns response,
       [ChatRoute.CallSearchSimilar "disk full" 2;
        ChatRoute.CallGenerateText ChatRoute.MODEL prompt])
    /\ occurs_in_order
         [Prompt.SYSTEM_PROMPT; DocumentProcessor.preamble;
          "T"; "c"; "*Source: f.md*";
          "User Question: disk full"; Prompt.RAG_INSTRUCTIONS]
         prompt.
Proof.
  assert (Hm : "disk full" <> "") by discriminate.
  apply (POST_grounded_prompt services_up "disk full"
           [result_with_empty_section] Hm eq_refl).
  discriminate.
Defined.

Section Unfiltered.
Import ChatRoute.
Variable svc : Services.

(** What both variants without a threshold do with a message: as the
    handler with the threshold, every result kept. *)
Lemma POST_top_message (m : string) :
  m <> "" ->
  let respond (topK : Z) :=
    let found := match searchSimilar svc m topK with
                 | Returns searchResults => searchResults
                 | Throws _ => []
                 end in
    let prompt := match found with
                  | [] => createPromptWithoutContext m
                  | _ :: _ => createPromptWithContext
                                (DocumentProcessor.formatDocumentForRAG found) m
                  end in
    (Returns
       match generateText svc MODEL prompt with
       | Returns text =>
           {| body := ChatBody text
                        match found with
                        | [] => None
                        | _ :: _ => Some (map source_of found)
                        end;
              status := 200 |}
       | Throws _ =>
           {| body := ErrorBody "Failed to generate response"; status := 500 |}
       end,
     [CallSearchSimilar m topK; CallGenerateText MODEL prompt]) in
  ChatRouteUnfiltered.POST_top5 svc (request_with m) [] = respond 5%Z
  /\ ChatRouteUnfiltered.POST_top1 svc (request_with m) [] = respond 1%Z.
Proof.
  intros Hm respond. destruct m as [|a m]; [congruence|].
  assert (Hwith : forall context,
             ChatRouteUnfiltered.SYSTEM_PROMPT ++ nl ++ nl
             ++ context ++ nl ++ nl
             ++ "User Question: " ++ String a m ++ nl ++ nl
             ++ "Please provide a helpful response based on the above documentation. If the documentation is relevant, reference it in your answer. If not relevant, provide general assistance but mention that no specific incident procedures were found."
             = createPromptWithContext context (String a m)).
  { intros context. unfold createPromptWithContext, join. cbn [concat].
    change ChatRouteUnfiltered.SYSTEM_PROMPT with Prompt.SYSTEM_PROMPT.
    unfold Prompt.RAG_INSTRUCTIONS. string_eq. }
  assert (Hwithout :
            ChatRouteUnfiltered.SYSTEM_PROMPT ++ nl ++ nl
            ++ "User Question: " ++ String a m ++ nl ++ nl
            ++ "Note: No relevant incident response procedures were found in the knowledge base. Please provide general assistance."
            = createPromptWithoutContext (String a m)).
  { unfold createPromptWithoutContext, join. cbn [concat].
    change ChatRouteUnfiltered.SYSTEM_PROMPT with Prompt.SYSTEM_PROMPT.
    string_eq. }
  unfold respond, ChatRouteUnfiltered.POST_top5, ChatRouteUnfiltered.POST_top1,
    ChatRouteUnfiltered.search_context, request_with,
    try_catch, bind, ret, await.
  cbn [json truthy_opt truthy negb app].
  rewrite Hwithout.
  split.
  - destruct (searchSimilar svc (String a m) 5) as [[|result rest]|e].
    + cbn [List.length Nat.ltb Nat.leb truthy app].
      destruct (generateText svc MODEL (createPromptWithoutContext (String a m)));
        reflexivity.
    + cbn [List.length Nat.ltb Nat.leb app].
      rewrite formatDocumentForRAG_truthy, Hwith.
      destruct (generateText svc MODEL
                  (createPromptWithContext
                     (DocumentProcessor.formatDocumentForRAG (result :: rest))
                     (String a m)));
        [|reflexivity].
      cbn [List.length map Nat.ltb Nat.leb]. reflexivity.
    + cbn [List.length Nat.ltb Nat.leb truthy app].
      destruct (generateText svc MODEL (createPromptWithoutContext (String a m)));
        reflexivity.
  - destruct (searchSimilar svc (String a m) 1) as [[|result rest]|e].
    + cbn [List.length Nat.ltb Nat.leb truthy app].
      destruct (generateText svc MODEL (createPromptWithoutContext (String a m)));
        reflexivity.
    + cbn [List.length Nat.ltb Nat.leb app].
      rewrite formatDocumentForRAG_truthy.
      destruct (generateText svc MODEL
                  (createPromptWithContext
                     (DocumentProcessor.formatDocumentForRAG (result :: rest))
                     (String a m)));
        [|reflexivity].
      cbn [List.length map Nat.ltb Nat.leb]. reflexivity.
    + cbn [List.length Nat.ltb Nat.leb truthy app].
      destruct (generateText svc MODEL (createPromptWithoutContext (String a m)));
        reflexivity.
Qed.
End Unfiltered.

(** X16.  The variants of the handler without a threshold, the one that
    asks for 5 candidates and writes its prompts inline and the one that
    asks for 1, keep every result of the search whatever its score: when
    the search returns results and the language model returns, both
    answer 200 with every result as a source, in order, having prompted
    the model with the context of all of them; the inline prompt is the
    text [createPromptWithContext] builds. *)
Theorem POST_unfiltered_cites_all
        (svc : ChatRoute.Services) (m text : string) (topK : Z)
        (searchResults : list VectorStore.SearchResult) :
  let prompt :=
    ChatRoute.createPromptWithContext
      (DocumentProcessor.formatDocumentForRAG searchResults) m in
  let answer :=
    (ChatRoute.Returns
       {| ChatRoute.body :=
            ChatRoute.ChatBody text (Some (map ChatRoute.source_of searchResults));
          ChatRoute.status := 200 |},
     [ChatRoute.CallSearchSimilar m topK;
      ChatRoute.CallGenerateText ChatRoute.MODEL prompt]) in
  m <> "" ->
  searchResults <> [] ->
  ChatRoute.searchSimilar svc m topK = ChatRoute.Returns searchResults ->
  ChatRoute.generateText svc ChatRoute.MODEL prompt = ChatRoute.Returns text ->
  (topK = 5%Z -> ChatRouteUnfiltered.POST_top5 svc (request_with m) [] = answer)
  /\ (topK = 1%Z -> ChatRouteUnfiltered.POST_top1 svc (request_with m) [] = answer).
Proof.
  intros prompt answer Hm Hne Hsearch Hmodel.
  destruct (POST_top_message svc m Hm) as [H5 H1].
  destruct searchResults as [|result rest]; [congruence|].
  unfold prompt, answer in *. cbv zeta in H5, H1.
  split; intros ->.
  - rewrite H5, Hsearch, Hmodel. reflexivity.
  - rewrite H1, Hsearch, Hmodel. reflexivity.
Qed.

Lemma POST_unfiltered_cites_all_witness :
  ChatRouteUnfiltered.POST_top5 services_low_score (request_with "disk full") []
  = (ChatRoute.Returns
       {| ChatRoute.body :=
            ChatRoute.ChatBody
              "Restart the consumer."
              (Some [{| ChatRoute.filename := "g.md";
                        ChatRoute.title := "G";
                        ChatRoute.section := Some "Intro" |}]);
          ChatRoute.status := 200 |},
     [ChatRoute.CallSearchSimilar "disk full" 5;
      ChatRoute.CallGenerateText
        ChatRoute.MODEL
        (ChatRoute.createPromptWithContext
           (DocumentProcessor.formatDocumentForRAG [result_scoring_low])
           "disk full")]).
Proof.
  assert (Hm : "disk full" <> "") by discriminate.
  assert (Hne : [result_scoring_low] <> []) by discriminate.
  exact (proj1 (POST_unfiltered_cites_all services_low_score "disk full"
                  "Restart the consumer." 5 [result_scoring_low]
                  Hm Hne eq_refl eq_refl)
               eq_refl).
Defined.

(* ================================================================== *)
(** ** Promises *)
(* ================================================================== *)

Section AsyncFacts.
Import Async.
Context {W A : Type}.

Lemma rethrowing_eq (m : M W A) (w : W) : rethrowing m w = m w.
Proof.
  unfold rethrowing, try_catch, throw.
  destruct (m w) as [[[a|e] w']|]; reflexivity.
Qed.
End AsyncFacts.

(* ================================================================== *)
(** ** The vector store *)
(* ================================================================== *)

Section VectorStoreFacts.
Import Async VectorStoreClient.
Variable svc : Services.

(** [getIndex] returns; it only ever makes the client and the handle,
    leaves a handle behind when it resolves, and rejects only for want
    of the API key, having done nothing. *)
Lemma getIndex_cases (w : World) :
  exists (outcome : promise unit) (w' : World) (connect : list Call),
    getIndex svc w = Some (outcome, w')
    /\ calls w' = (calls w ++ connect)%list
    /\ Forall (fun c => connects c = true) connect
    /\ (outcome = Resolved tt -> index w' = true)
    /\ (forall e, outcome = Rejected e ->
          e = "PINECONE_API_KEY environment variable is not set"
          /\ connect = [] /\ w' = w).
Proof.
  unfold getIndex, getPinecone, bind, throw, ret.
  destruct (index w) eqn:Hi; simpl.
  - exists (Resolved tt), w, []. rewrite app_nil_r.
    split; [reflexivity|]. split; [reflexivity|]. split; [constructor|].
    split; [intros _; exact Hi | discriminate].
  - destruct (pinecone w) eqn:Hp; simpl.
    + eexists (Resolved tt), _, [PcIndex INDEX_NAME].
      split; [reflexivity|]. split; [reflexivity|].
      split; [repeat constructor|].
      split; [reflexivity | discriminate].
    + destruct (truthy_opt (PINECONE_API_KEY svc)) eqn:Hk; simpl.
      * eexists (Resolved tt), _, [NewPinecone _; PcIndex INDEX_NAME].
        split; [reflexivity|]. simpl. rewrite <- app_assoc.
        split; [reflexivity|]. split; [repeat constructor|].
        split; [reflexivity | discriminate].
      * eexists (Rejected _), w, []. rewrite app_nil_r.
        split; [reflexivity|]. split; [reflexivity|]. split; [constructor|].
        split; [discriminate|].
        intros e [= <-]. repeat split.
Qed.

End VectorStoreFacts.

(** X17.  What [searchSimilar] makes of a match that carries a vector as
    [upsertDocuments] sent it: the id, the score and the metadata of the
    document, the section apart, which comes back missing when it was
    missing or the empty string.  A document whose section is not the
    empty string gets its metadata back unchanged. *)
Theorem searchSimilar_reads_back_upserted
        (doc : VectorStoreClient.VectorDocument) (score : Q) :
  let result := VectorStoreClient.to_result
                  (stored_match (VectorStoreClient.to_vector doc) score) in
  let sent := VectorStoreClient.metadata doc in
  VectorStore.id result = VectorStoreClient.id doc
  /\ VectorStore.score result = score
  /\ VectorStore.filename (VectorStore.metadata result) = VectorStore.filename sent
  /\ VectorStore.title (VectorStore.metadata result) = VectorStore.title sent
  /\ VectorStore.content (VectorStore.metadata result) = VectorStore.content sent
  /\ VectorStore.chunkIndex (VectorStore.metadata result) = VectorStore.chunkIndex sent
  /\ VectorStore.totalChunks (VectorStore.metadata result) = VectorStore.totalChunks sent
  /\ VectorStore.section (VectorStore.metadata result)
     = section_or_missing (VectorStore.section sent)
  /\ (VectorStore.section sent <> Some "" -> VectorStore.metadata result = sent).
Proof.
  destruct doc as [i v [f t c s ci tc]]. cbn.
  repeat (split; [reflexivity|]).
  split.
  - destruct s as [[|a s]|]; reflexivity.
  - intros Hs. destruct s as [[|a s]|]; [congruence | reflexivity | reflexivity].
Qed.

Section SearchSimilarFacts.
Import Async VectorStoreClient.

Lemma to_result_section (m : Match.t) :
  VectorStore.section (VectorStore.metadata (to_result m)) <> Some "".
Proof.
  unfold to_result. cbn.
  destruct (Match.metadata m) as [md|]; [|discriminate].
  destruct (Match.section md) as [[|a s]|]; discriminate.
Qed.

(** X18.  [searchSimilar] always returns.  Its first call asks for the
    embedding of the query, and no call it makes changes the store.  When
    the embedding is rejected, it rejects with the same error and has made
    no other call, nor the client.  When it resolves, its last call was
    the query, with that embedding, [topK] and the filter, after the
    calls that make the handle if there was none; the results are the
    matches of the response, each converted by [to_result], in their
    order (none when the response has no matches), and no result has the
    empty string as its section. *)
Theorem searchSimilar_outcomes
        (svc : Services) (query_ : string) (topK : Z) (filter : option string)
        (w : World) :
  exists (outcome : promise (list VectorStore.SearchResult)) (w' : World)
         (later : list Call),
    searchSimilar svc query_ topK filter w = Some (outcome, w')
    /\ calls w' = (calls w ++ GenerateEmbedding query_ :: later)%list
    /\ Forall (fun c => writes c = false) later
    /\ (forall e, generateEmbedding svc (calls w) query_ = Rejected e ->
          outcome = Rejected e /\ later = []
          /\ pinecone w' = pinecone w /\ index w' = index w)
    /\ (forall results, outcome = Resolved results ->
          Forall (fun r => VectorStore.section (VectorStore.metadata r) <> Some "")
                 results
          /\ exists (embedding : list R) (matches : option (list Match.t))
                    (connect : list Call),
               generateEmbedding svc (calls w) query_ = Resolved embedding
               /\ Forall (fun c => connects c = true) connect
               /\ index w' = true
               /\ later = (connect ++ [IdxQuery embedding topK filter])%list
               /\ query svc (calls w ++ GenerateEmbedding query_ :: connect)%list
                        embedding topK filter
                  = Resolved matches
               /\ results = map to_result
                                (match matches with Some ms => ms | None => [] end)).
Proof.
  unfold searchSimilar. rewrite rethrowing_eq.
  unfold bind at 1. unfold call at 1.
  destruct (generateEmbedding svc (calls w) query_) as [embedding|e] eqn:He.
  - set (w1 := {| pinecone := pinecone w; index := index w;
                  calls := (calls w ++ [GenerateEmbedding query_])%list |}).
    destruct (getIndex_cases svc w1)
      as (o & w2 & connect & Hget & Hcalls & Hconn & Hindex & Hrej).
    unfold bind at 1. rewrite Hget.
    destruct o as [[]|e].
    + unfold bind, call, ret.
      destruct (query svc (calls w2) embedding topK filter) as [matches|e] eqn:Hq.
      * eexists _, _, (connect ++ [IdxQuery embedding topK filter])%list.
        split; [reflexivity|]. cbn [calls]. rewrite Hcalls. subst w1. cbn [calls].
        split; [rewrite <- !app_assoc; reflexivity|].
        split.
        { apply Forall_app. split.
          - eapply Forall_impl; [|exact Hconn].
            intros [] Hc; try discriminate; reflexivity.
          - repeat constructor. }
        split; [discriminate|].
        intros results [= <-]. split.
        { destruct matches as [ms|]; [|constructor].
          apply Forall_forall. intros r Hin.
          apply in_map_iff in Hin as (m & <- & _). apply to_result_section. }
        exists embedding, matches, connect.
        split; [reflexivity|]. split; [exact Hconn|].
        split; [exact (Hindex eq_refl)|]. split; [reflexivity|].
        split; [|destruct matches; reflexivity].
        rewrite <- Hq. f_equal. rewrite Hcalls. cbn [calls].
        rewrite <- app_assoc. reflexivity.
      * eexists _, _, (connect ++ [IdxQuery embedding topK filter])%list.
        split; [reflexivity|]. cbn [calls]. rewrite Hcalls. subst w1. cbn [calls].
        split; [rewrite <- !app_assoc; reflexivity|].
        split.
        { apply Forall_app. split.
          - eapply Forall_impl; [|exact Hconn].
            intros [] Hc; try discriminate; reflexivity.
          - repeat constructor. }
        split; discriminate.
    + destruct (Hrej e eq_refl) as (_ & -> & ->).
      eexists _, _, []. split; [reflexivity|].
      subst w1. cbn [calls].
      split; [reflexivity|]. split; [constructor|]. split; discriminate.
  - eexists _, _, []. split; [reflexivity|]. cbn [calls pinecone index].
    split; [reflexivity|]. split; [constructor|].
    split; [|discriminate].
    intros e' [= <-]. repeat split.
Qed.

End SearchSimilarFacts.

Section UpsertFacts.
Import Async VectorStoreClient.

Lemma map_seq_S {B} (f : nat -> B) (k n : nat) :
  map f (seq k (S n)) = (map f (seq k n) ++ [f (k + n)])%list.
Proof. rewrite seq_S, map_app. reflexivity. Qed.




End UpsertFacts.

Section DeleteAllFacts.
Import Async VectorStoreClient.



End DeleteAllFacts.

Section InitializeFacts.
Import Async VectorStoreClient.

Lemma polls_app (a b : list Call) : polls (a ++ b) = polls a + polls b.
Proof.
  induction a as [|c a IH]; [reflexivity|].
  destruct c; cbn [app polls]; rewrite IH; reflexivity.
Qed.

Lemma polls_connects (l : list Call) :
  Forall (fun c => connects c = true) l -> polls l = 0.
Proof.
  induction 1 as [|c l Hc _ IH]; [reflexivity|].
  destruct c; try discriminate; exact IH.
Qed.

Section Waiting.
Variable svc : Services.
Variable ready_at : nat.
Hypothesis not_ready_before :
  forall h, polls h < ready_at -> describeIndex svc h <> Resolved true.
Hypothesis ready_then :
  forall h, polls h = ready_at -> describeIndex svc h = Resolved true.

(** The loop polls until the store reports the index as ready: [k] polls
    that do not, each followed by a pause, then the one that does. *)
Lemma wait_until_ready_spec :
  forall (k : nat) (w : World),
    polls (calls w) + k = ready_at ->
    (forall fuel, fuel <= k -> wait_until_ready svc fuel w = None)
    /\ (forall fuel, k < fuel ->
          exists delays : list Z,
            List.length delays = k
            /\ Forall (fun ms => ms = 1000%Z \/ ms = 2000%Z) delays
            /\ waited svc (calls w) delays
            /\ wait_until_ready svc fuel w
               = Some (Resolved tt,
                       {| pinecone := pinecone w; index := index w;
                          calls := (calls w ++ waits delays
                                    ++ [PcDescribeIndex INDEX_NAME])%list |})).
Proof.
  induction k as [|k IH]; intros w Hk.
  - split; intros fuel Hfuel.
    + replace fuel with 0 by lia. reflexivity.
    + destruct fuel as [|fuel]; [lia|].
      exists []. split; [reflexivity|]. split; [constructor|].
      split; [exact I|].
      cbn [wait_until_ready]. unfold bind, try_catch, call, ret.
      rewrite (ready_then (calls w)) by lia. reflexivity.
  - assert (Hstep : exists ms,
               ((describeIndex svc (calls w) = Resolved false /\ ms = 1000%Z)
                \/ (exists e, describeIndex svc (calls w) = Rejected e
                               /\ ms = 2000%Z))
               /\ forall fuel,
                    wait_until_ready svc (S fuel) w
                    = wait_until_ready svc fuel
                        {| pinecone := pinecone w; index := index w;
                           calls := (calls w ++ [PcDescribeIndex INDEX_NAME;
                                                 SetTimeout ms])%list |}).
    { pose proof (not_ready_before (calls w) ltac:(lia)) as Hnot.
      destruct (describeIndex svc (calls w)) as [[|]|e] eqn:Hd.
      - congruence.
      - exists 1000%Z. split; [left; split; reflexivity|]. intros fuel.
        cbn [wait_until_ready]. unfold bind, try_catch, call, ret.
        rewrite Hd. cbn [negb pinecone index calls].
        rewrite <- app_assoc. reflexivity.
      - exists 2000%Z. split; [right; exists e; split; reflexivity|]. intros fuel.
        cbn [wait_until_ready]. unfold bind, try_catch, call, ret.
        rewrite Hd. cbn [negb pinecone index calls].
        rewrite <- app_assoc. reflexivity. }
    destruct Hstep as (ms & Hms & Hstep).
    match type of Hstep with
    | forall fuel, _ = wait_until_ready _ _ ?w1 =>
        destruct (IH w1) as [Hnone Hsome]
    end.
    { cbn [calls]. rewrite polls_app. cbn [polls]. lia. }
    split; intros fuel Hfuel.
    + destruct fuel as [|fuel]; [reflexivity|].
      rewrite Hstep. apply Hnone. lia.
    + destruct fuel as [|fuel]; [lia|].
      destruct (Hsome fuel ltac:(lia)) as (delays & Hlen & Hall & Hwaited & Hrun).
      exists (ms :: delays). split; [simpl; lia|].
      split; [constructor; [destruct Hms as [[_ ->]|(e & _ & ->)]; auto | assumption]|].
      split; [split; [exact Hms | exact Hwaited]|].
      rewrite Hstep, Hrun. cbn [pinecone index calls waits flat_map app].
      rewrite <- app_assoc. reflexivity.
Qed.
End Waiting.

(** X21.  [initializeIndex], when the index is not listed and can be
    created, waits for it without limit.  If [describeIndex] reports the
    index as ready on poll number [k] (from 0) and on none before, then
    the loop has not ended after [k] rounds, and with more fuel it ends:
    [initializeIndex] resolves with the handle made, having listed the
    indexes, created the index with dimension 1536, polled [k] times in
    vain, pausing 1000 ms after a poll that resolved and 2000 ms after a
    poll that was rejected, and polled once more. *)
Theorem initializeIndex_waits_until_ready
        (svc : Services) (w : World) (k : nat) :
  pinecone w = true \/ truthy_opt (PINECONE_API_KEY svc) = true ->
  (forall h, exists indexes,
      listIndexes svc h = Resolved indexes /\ index_exists indexes = false) ->
  (forall h, createIndex svc h = Resolved tt) ->
  (forall h, polls h < polls (calls w) + k ->
             describeIndex svc h <> Resolved true) ->
  (forall h, polls h = polls (calls w) + k ->
             describeIndex svc h = Resolved true) ->
  forall fuel : nat,
    (fuel <= k -> initializeIndex svc fuel w = None)
    /\ (k < fuel ->
        exists (w' : World) (connect connect' : list Call) (delays : list Z),
          initializeIndex svc fuel w = Some (Resolved tt, w')
          /\ pinecone w' = true /\ index w' = true
          /\ calls w'
             = (calls w ++ connect
                ++ [PcListIndexes;
                    PcCreateIndex INDEX_NAME 1536 "cosine" "aws" "us-east-1"]
                ++ waits delays
                ++ [PcDescribeIndex INDEX_NAME] ++ connect')%list
          /\ List.length delays = k
          /\ Forall (fun ms => ms = 1000%Z \/ ms = 2000%Z) delays
          /\ Forall (fun c => connects c = true) connect
          /\ Forall (fun c => connects c = true) connect'
          /\ waited svc
                    (calls w ++ connect
                     ++ [PcListIndexes;
                         PcCreateIndex INDEX_NAME 1536 "cosine" "aws" "us-east-1"])%list
                    delays).
Proof.
  intros Hkey Hlist Hcreate Hnot Hready fuel.
  assert (Hpc : exists connect,
             Forall (fun c => connects c = true) connect
             /\ getPinecone svc w
                = Some (Resolved tt,
                        {| pinecone := true; index := index w;
                           calls := (calls w ++ connect)%list |})).
  { unfold getPinecone, ret. destruct (pinecone w) eqn:Hp; cbn [negb].
    - exists []. split; [constructor|]. rewrite app_nil_r.
      destruct w; simpl in *; subst; reflexivity.
    - destruct Hkey as [Hkey|Hkey]; [discriminate|]. rewrite Hkey. cbn [negb].
      eexists [_]. split; [|reflexivity]. repeat constructor. }
  destruct Hpc as (connect & Hconn & Hpc).
  set (w1 := {| pinecone := true; index := index w;
                calls := (calls w ++ connect)%list |}) in *.
  destruct (Hlist (calls w1)) as (indexes & Hl & Hex).
  set (w3 := {| pinecone := true; index := index w;
                calls := ((calls w ++ connect) ++ [PcListIndexes])
                         ++ [PcCreateIndex INDEX_NAME 1536 "cosine" "aws" "us-east-1"]
              |}%list).
  assert (Hhead :
             initializeIndex svc fuel w
             = (_ <~ wait_until_ready svc fuel ;; getIndex svc) w3).
  { unfold initializeIndex. rewrite rethrowing_eq.
    unfold bind at 1. rewrite Hpc.
    unfold bind at 1. unfold call at 1. rewrite Hl.
    cbn [pinecone index calls]. rewrite Hex. cbn [negb].
    unfold bind at 1. unfold bind at 1. unfold call at 1.
    rewrite Hcreate. reflexivity. }
  assert (Hpolls : polls (calls w3) + k = polls (calls w) + k).
  { subst w3. cbn [calls]. rewrite !polls_app, (polls_connects connect Hconn).
    cbn [polls]. lia. }
  destruct (wait_until_ready_spec svc (polls (calls w) + k) Hnot Hready k w3 Hpolls)
    as [Hnone Hsome].
  split; intros Hfuel.
  - rewrite Hhead. unfold bind. rewrite (Hnone fuel Hfuel). reflexivity.
  - destruct (Hsome fuel Hfuel) as (delays & Hlen & Hall & Hwaited & Hrun).
    assert (Hwaited' : waited svc
                         (calls w ++ connect
                          ++ [PcListIndexes;
                              PcCreateIndex INDEX_NAME 1536 "cosine" "aws" "us-east-1"])%list
                         delays).
    { subst w3. cbn [calls] in Hwaited. rewrite <- !app_assoc in Hwaited.
      exact Hwaited. }
    rewrite Hhead. unfold bind. rewrite Hrun.
    unfold getIndex, getPinecone, bind, ret. cbn [pinecone index calls negb].
    destruct (index w) eqn:Hi; cbn [negb].
    + eexists _, connect, [], delays. split; [reflexivity|].
      cbn [pinecone index calls].
      split; [reflexivity|]. split; [reflexivity|].
      split; [subst w3; cbn [calls]; rewrite <- ?app_assoc; reflexivity|].
      repeat split; try assumption. constructor.
    + eexists _, connect, [PcIndex INDEX_NAME], delays. split; [reflexivity|].
      cbn [pinecone index calls].
      split; [reflexivity|]. split; [reflexivity|].
      split; [subst w3; cbn [calls]; rewrite <- ?app_assoc; reflexivity|].
      repeat split; try assumption. repeat constructor.
Qed.

Lemma initializeIndex_waits_until_ready_witness :
  initializeIndex store_getting_ready 2 fresh_world = None
  /\ exists w' : World,
       initializeIndex store_getting_ready 3 fresh_world = Some (Resolved tt, w')
       /\ index w' = true
       /\ polls (calls w') = 3.
Proof.
  assert (H := fun fuel =>
            initializeIndex_waits_until_ready store_getting_ready fresh_world 2
              (or_intror eq_refl)
              (fun h => ex_intro _ (Some []) (conj eq_refl eq_refl))
              (fun h => eq_refl)
              ltac:(intros h Hh; simpl in *;
                    destruct (polls h) as [|[|n]]; [discriminate | discriminate | lia])
              ltac:(intros h Hh; simpl in *; rewrite Hh; reflexivity)
              fuel).
  split.
  - apply (H 2). lia.
  - destruct (proj2 (H 3)) as (w' & connect & connect' & delays & Hrun & _ & Hi & Hc
                               & Hlen & _ & Hconn & Hconn' & _); [lia|].
    exists w'. split; [exact Hrun|]. split; [exact Hi|].
    rewrite Hc. rewrite !polls_app.
    rewrite (polls_connects connect Hconn), (polls_connects connect' Hconn').
    cbn [polls fresh_world calls].
    assert (Hw : forall d, polls (waits d) = List.length d).
    { induction d as [|x d IHd]; [reflexivity|]. simpl. rewrite IHd. reflexivity. }
    rewrite Hw, Hlen. reflexivity.
Defined.

End InitializeFacts.

(* ================================================================== *)
(** ** Loading and processing the documents *)
(* ================================================================== *)

Section KMAFacts.
Import Async.
Variable svc : VectorStoreClient.Services.

Lemma embed_chunks_spec :
  forall (chunks : list DocumentChunk)
         (vectorDocuments : list VectorStoreClient.VectorDocument)
         (w : VectorStoreClient.World),
  exists (outcome : promise (list VectorStoreClient.VectorDocument))
         (w' : VectorStoreClient.World) (n : nat),
    KMA.embed_chunks svc chunks vectorDocuments w = Some (outcome, w')
    /\ VectorStoreClient.pinecone w' = VectorStoreClient.pinecone w
    /\ VectorStoreClient.index w' = VectorStoreClient.index w
    /\ VectorStoreClient.calls w'
       = (VectorStoreClient.calls w
          ++ map VectorStoreClient.GenerateEmbedding
                 (map content (firstn n chunks)))%list
    /\ (forall result, outcome = Resolved result ->
          n = List.length chunks
          /\ exists new, result = (vectorDocuments ++ new)%list
                         /\ Forall2 carries new chunks
                         /\ Forall (embedded_by svc) new)
    /\ (forall e, outcome = Rejected e ->
          exists (m : nat) (chunk : DocumentChunk),
            n = S m /\ nth_error chunks m = Some chunk
            /\ VectorStoreClient.generateEmbedding svc
                 (VectorStoreClient.calls w
                  ++ map VectorStoreClient.GenerateEmbedding
                         (map content (firstn m chunks)))%list
                 (content chunk)
               = Rejected e).
Proof.
  induction chunks as [|chunk rest IH]; intros acc w.
  - exists (Resolved acc), w, 0. cbn [KMA.embed_chunks firstn map].
    rewrite app_nil_r.
    do 4 (split; [reflexivity|]). split; [|discriminate].
    intros result [= <-]. split; [reflexivity|].
    exists []. rewrite app_nil_r. split; [reflexivity|]. split; constructor.
  - cbn [KMA.embed_chunks]. unfold bind at 1. unfold VectorStoreClient.call at 1.
    destruct (VectorStoreClient.generateEmbedding svc (VectorStoreClient.calls w)
                (content chunk)) as [embedding|e] eqn:He.
    + match goal with
      | |- context [KMA.embed_chunks svc rest ?acc' ?w1] =>
          destruct (IH acc' w1)
            as (o & w' & n & Hrun & Hp & Hi & Hcalls & Hres & Hrej)
      end.
      exists o, w', (S n). split; [exact Hrun|].
      split; [exact Hp|]. split; [exact Hi|].
      split.
      { rewrite Hcalls. cbn [VectorStoreClient.calls firstn map].
        rewrite <- app_assoc. reflexivity. }
      split.
      * intros result Ho.
        destruct (Hres result Ho) as (-> & new & -> & Hnew & Hvalues).
        split; [reflexivity|].
        eexists (_ :: new). rewrite <- app_assoc. split; [reflexivity|].
        split.
        -- constructor; [|exact Hnew]. repeat split.
        -- constructor; [|exact Hvalues].
           exists (VectorStoreClient.calls w). exact He.
      * intros e Ho. destruct (Hrej e Ho) as (m & chunk' & -> & Hnth & Hm).
        exists (S m), chunk'. split; [reflexivity|]. split; [exact Hnth|].
        cbn [VectorStoreClient.calls firstn map] in *.
        rewrite <- app_assoc in Hm. exact Hm.
    + eexists (Rejected e), _, 1. split; [reflexivity|].
      cbn [VectorStoreClient.pinecone VectorStoreClient.index VectorStoreClient.calls
           firstn map].
      do 3 (split; [reflexivity|]). split; [discriminate|].
      intros e' [= <-]. exists 0, chunk. split; [reflexivity|].
      split; [reflexivity|]. cbn [firstn map]. rewrite app_nil_r. exact He.
Qed.


End KMAFacts.


(** X23.  With [generateEmbedding] of [embeddings.ts] as the embedding
    service, [processKMADocument] resolves for every document, with one
    vector document per chunk; the values of each are the hash-based
    embedding of its content, and the vector [upsertDocuments] makes of
    it has 384 values. *)
Theorem processKMADocument_hash_embeddings
        (svc : VectorStoreClient.Services) (document : KMA.KMADocument)
        (w : VectorStoreClient.World) :
  (forall h text,
      VectorStoreClient.generateEmbedding svc h text
      = Async.Resolved (generateEmbedding text)) ->
  exists (processed : KMA.ProcessedDocument) (w' : VectorStoreClient.World)
         (chunks : list DocumentChunk),
    createDocumentChunks (KMA.content document) (KMA.filename document)
                         (KMA.title document)
    = Some chunks
    /\ KMA.processKMADocument svc document w = Some (Async.Resolved processed, w')
    /\ List.length (KMA.chunks processed) = List.length chunks
    /\ Forall (fun vectorDocument =>
                 VectorStoreClient.values vectorDocument
                 = generateEmbedding
                     (VectorStore.content (VectorStoreClient.metadata vectorDocument))
                 /\ List.length
                      (Vector.values (VectorStoreClient.to_vector vectorDocument))
                    = 384)
              (KMA.chunks processed).
Proof.
  intros Hhash.
  destruct (createDocumentChunks_placed (KMA.content document)
              (KMA.filename document) (KMA.title document))
    as (first & tags & _ & Heq & _ & _).
  set (chunks := map (set_totalChunks (List.length first)) first) in *.
  destruct (embed_chunks_spec svc chunks [] w)
    as (o & w' & n & Hrun & _ & _ & _ & Hres & Hrej).
  destruct o as [vds|e].
  2:{ destruct (Hrej e eq_refl) as (m & chunk & _ & _ & Hm).
      rewrite Hhash in Hm. discriminate. }
  destruct (Hres vds eq_refl) as (_ & new & -> & Hnew & Hvalues).
  exists {| KMA.document := document; KMA.chunks := new |}, w', chunks.
  split; [exact Heq|]. split.
  { unfold KMA.processKMADocument. rewrite rethrowing_eq, Heq.
    unfold Async.bind. rewrite Hrun. reflexivity. }
  cbn [KMA.chunks]. split; [exact (Forall2_length Hnew)|].
  eapply Forall_impl; [|exact Hvalues].
  intros vd (h & Hh). rewrite Hhash in Hh. injection Hh as Hh.
  split; [symmetry; exact Hh|].
  cbn [VectorStoreClient.to_vector Vector.values]. rewrite <- Hh.
  rewrite generateEmbedding_entries, length_map, length_seq. reflexivity.
Qed.

Lemma processKMADocument_hash_embeddings_witness :
  exists (processed : KMA.ProcessedDocument) (w' : VectorStoreClient.World),
    KMA.processKMADocument store_hashing (KMA.document processed_example) fresh_world
    = Some (Async.Resolved processed, w')
    /\ List.length (KMA.chunks processed) = 1.
Proof.
  destruct (processKMADocument_hash_embeddings
              store_hashing (KMA.document processed_example) fresh_world
              (fun h text => eq_refl))
    as (processed & w' & chunks & Hchunks & Hrun & Hlen & _).
  exists processed, w'. split; [exact Hrun|].
  rewrite Hlen. vm_compute in Hchunks. injection Hchunks as <-. reflexivity.
Defined.

Section LoadFacts.
Import Async.
Variable svc : VectorStoreClient.Services.

(** [loadKMADocument] makes one call, the reading of the file, and
    settles as that call does. *)
Lemma loadKMADocument_spec (filePath : string) (w : VectorStoreClient.World) :
  exists outcome : promise KMA.KMADocument,
    KMA.loadKMADocument svc filePath w
    = Some (outcome,
            {| VectorStoreClient.pinecone := VectorStoreClient.pinecone w;
               VectorStoreClient.index := VectorStoreClient.index w;
               VectorStoreClient.calls :=
                 (VectorStoreClient.calls w
                  ++ [VectorStoreClient.FsReadFile filePath])%list |})
    /\ (forall document, outcome = Resolved document ->
          exists content,
            VectorStoreClient.readFile svc (VectorStoreClient.calls w) filePath
            = Resolved content
            /\ loaded_from svc document filePath content)
    /\ (forall e, outcome = Rejected e ->
          VectorStoreClient.readFile svc (VectorStoreClient.calls w) filePath
          = Rejected e).
Proof.
  unfold KMA.loadKMADocument. rewrite rethrowing_eq.
  unfold bind, VectorStoreClient.call, ret.
  destruct (VectorStoreClient.readFile svc (VectorStoreClient.calls w) filePath)
    as [content|e].
  - eexists. split; [reflexivity|]. split; [|discriminate].
    intros document [= <-]. exists content. split; [reflexivity|].
    repeat split.
  - eexists. split; [reflexivity|]. split; [discriminate|].
    intros e' [= <-]. reflexivity.
Qed.

Lemma load_files_spec (kmaDir : string) :
  forall (files : list string) (documents : list KMA.KMADocument)
         (w : VectorStoreClient.World),
  let paths := map (VectorStoreClient.path_join svc kmaDir)
                   (filter (endsWith ".md") files) in
  exists (outcome : promise (list KMA.KMADocument))
         (w' : VectorStoreClient.World) (n : nat),
    KMA.load_files svc kmaDir files documents w = Some (outcome, w')
    /\ VectorStoreClient.calls w'
       = (VectorStoreClient.calls w
          ++ map VectorStoreClient.FsReadFile (firstn n paths))%list
    /\ (forall result, outcome = Resolved result ->
          n = List.length paths
          /\ exists new, result = (documents ++ new)%list
               /\ loaded_in_turn svc (VectorStoreClient.calls w) new paths)
    /\ (forall e, outcome = Rejected e ->
          exists (m : nat) (filePath : string),
            n = S m /\ nth_error paths m = Some filePath
            /\ VectorStoreClient.readFile svc
                 (VectorStoreClient.calls w
                  ++ map VectorStoreClient.FsReadFile (firstn m paths))%list
                 filePath
               = Rejected e).
Proof.
  induction files as [|file rest IH]; intros acc w; cbn zeta.
  - exists (Resolved acc), w, 0. cbn [KMA.load_files filter firstn map].
    rewrite app_nil_r.
    do 2 (split; [reflexivity|]). split; [|discriminate].
    intros result [= <-]. split; [reflexivity|].
    exists []. rewrite app_nil_r. split; [reflexivity | exact I].
  - cbn [KMA.load_files filter]. destruct (endsWith ".md" file) eqn:Hmd.
    + unfold bind at 1.
      destruct (loadKMADocument_spec (VectorStoreClient.path_join svc kmaDir file) w)
        as (o & Hload & Hres & Hrej).
      rewrite Hload. destruct o as [document|e].
      * match goal with
        | |- context [KMA.load_files svc kmaDir rest ?acc' ?w1] =>
            destruct (IH acc' w1) as (o & w' & n & Hrun & Hcalls & Hres' & Hrej')
        end.
        cbn zeta in *.
        exists o, w', (S n). split; [exact Hrun|].
        split.
        { rewrite Hcalls. cbn [VectorStoreClient.calls firstn map].
          rewrite <- app_assoc. reflexivity. }
        split.
        -- intros result Ho. destruct (Hres' result Ho) as (-> & new & -> & Hnew).
           split; [cbn [map List.length]; reflexivity|].
           exists (document :: new). rewrite <- app_assoc.
           split; [reflexivity|]. cbn [map loaded_in_turn].
           split; [exact (Hres document eq_refl) | exact Hnew].
        -- intros e Ho. destruct (Hrej' e Ho) as (m & filePath & -> & Hnth & Hm).
           exists (S m), filePath. split; [reflexivity|].
           split; [exact Hnth|].
           cbn [VectorStoreClient.calls firstn map] in *.
           rewrite <- app_assoc in Hm. exact Hm.
      * eexists (Rejected e), _, 1. split; [reflexivity|].
        cbn [VectorStoreClient.calls firstn map].
        split; [reflexivity|]. split; [discriminate|].
        intros e' [= <-].
        exists 0, (VectorStoreClient.path_join svc kmaDir file).
        split; [reflexivity|]. split; [reflexivity|].
        cbn [firstn map]. rewrite app_nil_r. exact (Hrej e eq_refl).
    + apply IH.
Qed.

End LoadFacts.

(** X24.  [loadAllKMADocuments] always returns.  It lists the directory
    once, then reads files of it only: those whose name ends in ".md", by
    their path under the directory, in the order of the listing, stopping
    at the first that cannot be read.  When the listing is rejected it
    rejects with that error and reads nothing.  When it resolves, every
    such file was read and there is one document per file, in that order:
    its content is the text [readFile] resolved with for the path of the
    file, at its turn; its file name is the base name of the path; its
    title and alert type are those extracted from the two.  When it
    rejects after the listing, the error is that of the last file
    read. *)
Theorem loadAllKMADocuments_reads_md_files
        (svc : VectorStoreClient.Services) (kmaDir : string)
        (w : VectorStoreClient.World) :
  exists (outcome : Async.promise (list KMA.KMADocument))
         (w' : VectorStoreClient.World) (read : list string),
    KMA.loadAllKMADocuments svc kmaDir w = Some (outcome, w')
    /\ VectorStoreClient.calls w'
       = (VectorStoreClient.calls w
          ++ VectorStoreClient.FsReaddir kmaDir
             :: map VectorStoreClient.FsReadFile read)%list
    /\ (forall e,
          VectorStoreClient.readdir svc (VectorStoreClient.calls w) kmaDir
          = Async.Rejected e ->
          outcome = Async.Rejected e /\ read = [])
    /\ (forall files,
          VectorStoreClient.readdir svc (VectorStoreClient.calls w) kmaDir
          = Async.Resolved files ->
          let paths := map (VectorStoreClient.path_join svc kmaDir)
                           (filter (endsWith ".md") files) in
          prefix_of read paths
          /\ (forall documents, outcome = Async.Resolved documents ->
                read = paths
                /\ loaded_in_turn
                     svc
                     (VectorStoreClient.calls w
                      ++ [VectorStoreClient.FsReaddir kmaDir])%list
                     documents paths)
          /\ (forall e, outcome = Async.Rejected e ->
                exists (m : nat) (filePath : string),
                  read = firstn (S m) paths
                  /\ nth_error paths m = Some filePath
                  /\ VectorStoreClient.readFile svc
                       (VectorStoreClient.calls w
                        ++ VectorStoreClient.FsReaddir kmaDir
                           :: map VectorStoreClient.FsReadFile (firstn m paths))%list
                       filePath
                     = Async.Rejected e)).
Proof.
  unfold KMA.loadAllKMADocuments. rewrite rethrowing_eq.
  unfold Async.bind at 1. unfold VectorStoreClient.call at 1.
  destruct (VectorStoreClient.readdir svc (VectorStoreClient.calls w) kmaDir)
    as [files|e].
  - match goal with
    | |- context [KMA.load_files svc kmaDir files [] ?w1] =>
        destruct (load_files_spec svc kmaDir files [] w1)
          as (o & w' & n & Hrun & Hcalls & Hres & Hrej)
    end.
    cbn zeta in *. cbn [VectorStoreClient.calls] in *.
    eexists o, w', _. split; [exact Hrun|].
    split; [rewrite Hcalls, <- app_assoc; reflexivity|].
    split; [discriminate|].
    intros files' [= <-]. split; [|split].
    + exists (skipn n (map (VectorStoreClient.path_join svc kmaDir)
                           (filter (endsWith ".md") files))).
      symmetry. apply firstn_skipn.
    + intros documents Ho. destruct (Hres documents Ho) as (-> & new & -> & Hnew).
      split; [apply firstn_all | exact Hnew].
    + intros e Ho. destruct (Hrej e Ho) as (m & filePath & -> & Hnth & Hm).
      exists m, filePath. split; [reflexivity|]. split; [exact Hnth|].
      rewrite <- app_assoc in Hm. exact Hm.
  - eexists (Async.Rejected e), _, []. split; [reflexivity|].
    cbn [VectorStoreClient.calls map].
    split; [reflexivity|]. split; [|discriminate].
    intros e' [= <-]. split; reflexivity.
Qed.

Lemma length_append (a b : string) :
  String.length (a ++ b) = String.length a + String.length b.
Proof. induction a as [|c a IH]; simpl; [reflexivity | rewrite IH; reflexivity]. Qed.

Lemma strip_md_app (stem : string) : KMA.strip_md (stem ++ ".md") = stem.
Proof.
  induction stem as [|c stem IH]; [reflexivity|].
  cbn [append KMA.strip_md]. fold (stem ++ ".md").
  destruct (String.eqb_spec (String c (stem ++ ".md")) ".md") as [Heq|_].
  - apply (f_equal String.length) in Heq. cbn [String.length] in Heq.
    rewrite length_append in Heq. cbn [String.length] in Heq. lia.
  - rewrite IH. reflexivity.
Qed.

Lemma join_underscores (s : string) :
  join " " (split "_"%char s) = KMA.underscores_to_spaces s.
Proof.
  unfold split, join. induction s as [|c s IH]; [reflexivity|].
  cbn [split_pieces KMA.underscores_to_spaces].
  destruct (split_pieces "_"%char s) as [w ws].
  destruct (Ascii.eqb c "_").
  - change (concat " " ("" :: w :: ws)) with ("" ++ String " " (concat " " (w :: ws))).
    rewrite IH. reflexivity.
  - destruct ws as [|w' ws]; simpl in *; rewrite <- IH; reflexivity.
Qed.

Lemma split_pieces_more (sep : ascii) (a b : string) :
  snd (split_pieces sep (a ++ String sep b)) <> [].
Proof.
  induction a as [|c a IH]; cbn [append split_pieces].
  - rewrite Ascii.eqb_refl. destruct (split_pieces sep b). discriminate.
  - destruct (split_pieces sep (a ++ String sep b)) as [w ws].
    destruct (Ascii.eqb c sep); [discriminate | exact IH].
Qed.

Lemma slice_from_1 {A} (x : A) (l : list A) :
  slice (x :: l) 1 (Z.of_nat (List.length (x :: l))) = l.
Proof.
  replace (Z.of_nat (List.length (x :: l)))
    with (Z.of_nat 1 + Z.of_nat (List.length l))%Z by (simpl List.length; lia).
  change 1%Z with (Z.of_nat 1) at 1. rewrite slice_window.
  cbn [skipn]. apply firstn_all.
Qed.

(** X25.  For a file name [number_a_b.md], in which [number] has no
    underscore, the alert type is made of the file name alone, whatever
    the content and its first header: the part after the first underscore,
    without ".md", its underscores turned into spaces and its words
    capitalised. *)
Theorem extractAlertType_from_filename (number a b content : string) :
  free_of "_"%char number ->
  KMA.extractAlertType (number ++ "_" ++ a ++ "_" ++ b ++ ".md") content
  = KMA.capitalize (KMA.underscores_to_spaces (a ++ "_" ++ b)).
Proof.
  intros Hnumber. unfold KMA.extractAlertType.
  replace (number ++ "_" ++ a ++ "_" ++ b ++ ".md")
    with ((number ++ "_" ++ a ++ "_" ++ b) ++ ".md")
    by (rewrite !append_assoc; reflexivity).
  rewrite strip_md_app. cbv zeta.
  unfold split at 1 2 3.
  change ("_" ++ a ++ "_" ++ b) with (String "_" (a ++ "_" ++ b)).
  rewrite (split_pieces_app "_"%char number (a ++ "_" ++ b) Hnumber).
  pose proof (split_pieces_more "_"%char a b) as Hmore.
  pose proof (join_underscores (a ++ "_" ++ b)) as Hjoin.
  unfold split in Hjoin.
  change ("_" ++ b) with (String "_" b) in *.
  destruct (split_pieces "_"%char (a ++ String "_" b)) as [w ws].
  cbn [fst snd] in *. destruct ws as [|w' ws]; [congruence|].
  rewrite slice_from_1. cbn [List.length Nat.ltb Nat.leb].
  rewrite Hjoin. reflexivity.
Qed.

Lemma extractAlertType_from_filename_witness :
  KMA.extractAlertType "07_lvds_message_backlog.md" "# Another title"
  = "Lvds Message Backlog".
Proof.
  exact (extractAlertType_from_filename "07" "lvds" "message_backlog"
           "# Another title" ltac:(simpl; repeat split; discriminate)).
Defined.

Lemma search_anywhere_found {A} (m : string -> option A) (s : string) (r : A) :
  KMA.search_anywhere m s = Some r ->
  exists before here : string, s = before ++ here /\ m here = Some r.
Proof.
  induction s as [|c s IH]; cbn [KMA.search_anywhere].
  - destruct (m "") eqn:Hm; [|discriminate].
    intros [= <-]. exists "", "". split; [reflexivity | exact Hm].
  - destruct (m (String c s)) eqn:Hm.
    + intros [= <-]. exists "", (String c s). split; [reflexivity | exact Hm].
    + intros H. destruct (IH H) as (before & here & -> & Hhere).
      exists (String c before), here. split; [reflexivity | exact Hhere].
Qed.

Lemma literal_found {A} (lit : string) (k : string -> option A) (s : string) (r : A) :
  KMA.literal lit k s = Some r ->
  exists after : string, s = lit ++ after /\ k after = Some r.
Proof.
  revert s. induction lit as [|a lit IH]; intros s; cbn [KMA.literal].
  - intros H. exists s. split; [reflexivity | exact H].
  - destruct s as [|b s]; [discriminate|].
    destruct (Ascii.eqb_spec a b) as [<-|_]; [|discriminate].
    intros H. destruct (IH s H) as (after & -> & Hk).
    exists after. split; [reflexivity | exact Hk].
Qed.

Lemma spaces_star_found {A} (k : string -> option A) (s : string) (r : A) :
  spaces_star k s = Some r ->
  exists skipped after : string,
    s = skipped ++ after /\ blank skipped /\ k after = Some r.
Proof.
  induction s as [|c s IH]; cbn [spaces_star].
  - intros H. exists "", "". split; [reflexivity|]. split; [exact I | exact H].
  - destruct (is_whitespace c) eqn:Hc.
    + destruct (spaces_star k s) as [r'|] eqn:Hs.
      * intros [= <-]. destruct (IH eq_refl) as (skipped & after & -> & Hb & Hk).
        exists (String c skipped), after. split; [reflexivity|].
        split; [split; assumption | exact Hk].
      * intros H. exists "", (String c s).
        split; [reflexivity|]. split; [exact I | exact H].
    + intros H. exists "", (String c s).
      split; [reflexivity|]. split; [exact I | exact H].
Qed.

Lemma dots_line (s : string) :
  single_line (dots s) /\ exists after : string, s = dots s ++ after.
Proof.
  induction s as [|c s (Hline & after & Hafter)]; cbn [dots].
  - split; [exact I | exists ""; reflexivity].
  - destruct (is_line_terminator c) eqn:Hc.
    + split; [exact I | exists (String c s); reflexivity].
    + split; [split; assumption|].
      exists after. cbn [append]. rewrite <- Hafter. reflexivity.
Qed.

Lemma dots_plus_found (s group1 : string) :
  dots_plus s = Some group1 ->
  single_line group1
  /\ (exists (c : ascii) (after : string),
        s = String c after /\ is_line_terminator c = false)
  /\ exists after : string, s = group1 ++ after.
Proof.
  destruct s as [|c s]; cbn [dots_plus]; [discriminate|].
  destruct (is_line_terminator c) eqn:Hc; [discriminate|].
  intros [= <-]. destruct (dots_line s) as (Hline & after & Hafter).
  split; [split; assumption|].
  split; [exists c, s; split; [reflexivity | exact Hc]|].
  exists after. cbn [append]. rewrite <- Hafter. reflexivity.
Qed.

Lemma single_line_app (a b : string) :
  single_line (a ++ b) <-> single_line a /\ single_line b.
Proof.
  induction a as [|c a IH]; cbn [append single_line]; tauto.
Qed.

Lemma single_line_occurs (piece whole : string) :
  occurs_in piece whole -> single_line whole -> single_line piece.
Proof.
  intros (before & after & ->) H.
  apply single_line_app in H as [_ H]. apply single_line_app in H as [H _].
  exact H.
Qed.

Lemma search_anywhere_complete {A} (m : string -> option A)
      (before here : string) :
  m here <> None -> KMA.search_anywhere m (before ++ here) <> None.
Proof.
  intros Hm. induction before as [|c before IH]; cbn [append].
  - destruct here as [|c here]; cbn [KMA.search_anywhere];
      destruct (m _); [discriminate | congruence | discriminate | congruence].
  - cbn [KMA.search_anywhere].
    destruct (m (String c (before ++ here))); [discriminate | exact IH].
Qed.

Lemma literal_app {A} (lit : string) (k : string -> option A) (after : string) :
  KMA.literal lit k (lit ++ after) = k after.
Proof.
  induction lit as [|a lit IH]; cbn [append KMA.literal]; [reflexivity|].
  rewrite Ascii.eqb_refl. exact IH.
Qed.

Lemma spaces_star_text (skipped : string) (c : ascii) (rest : string) :
  blank skipped -> is_line_terminator c = false ->
  spaces_star dots_plus (skipped ++ String c rest) <> None.
Proof.
  intros Hblank Hc. induction skipped as [|b skipped IH]; cbn [append].
  - cbn [spaces_star]. destruct (is_whitespace c).
    + destruct (spaces_star dots_plus rest); [discriminate|].
      cbn [dots_plus]. rewrite Hc. discriminate.
    + cbn [dots_plus]. rewrite Hc. discriminate.
  - destruct Hblank as [Hb Hblank]. cbn [spaces_star]. rewrite Hb.
    specialize (IH Hblank).
    destruct (spaces_star dots_plus (skipped ++ String c rest));
      [discriminate | congruence].
Qed.

Lemma labelled_field (label content : string) :
  field_of label content (KMA.labelled label content).
Proof.
  unfold KMA.labelled, field_of.
  destruct (KMA.search_anywhere
              (KMA.literal label (spaces_star dots_plus)) content)
    as [group1|] eqn:Hsearch.
  - apply search_anywhere_found in Hsearch as (before & here & -> & Hhere).
    apply literal_found in Hhere as (after & -> & Hafter).
    apply spaces_star_found in Hafter as (skipped & rest & -> & Hblank & Hrest).
    apply dots_plus_found in Hrest as (Hline & (c & tail & Hc & Hnot) & rest' & Hgroup).
    split.
    + split; [discriminate|]. intros Hno. exfalso. apply Hno.
      exists before, skipped, c, tail. rewrite <- Hc.
      split; [reflexivity|]. split; assumption.
    + intros value [= <-].
      split; [apply trim_idempotent|].
      split; [exact (single_line_occurs _ _ (trim_occurs group1) Hline)|].
      exists before, (skipped ++ rest). split; [reflexivity|].
      apply (occurs_in_trans _ group1); [apply trim_occurs|].
      exists skipped, rest'. rewrite Hgroup. reflexivity.
  - split; [|discriminate]. split; [|reflexivity].
    intros _ (before & skipped & c & rest & -> & Hblank & Hc).
    revert Hsearch. apply search_anywhere_complete.
    rewrite literal_app. apply spaces_star_text; assumption.
Qed.

(** X26.  [extractMetadataFromContent] leaves [alertType] unset.  Each of
    the fields system, severity, alert duration and scope is unset
    exactly when no occurrence of its label in the content is followed,
    after whitespace if any (line ends included), by a character that is
    not a line terminator; when set, it is a trimmed string without line
    terminator, found in the content after an occurrence of the label. *)
Theorem extractMetadataFromContent_fields (content : string) :
  let metadata := KMA.extractMetadataFromContent content in
  KMA.alertType metadata = None
  /\ field_of "**System**:" content (KMA.system metadata)
  /\ field_of "**Severity**:" content (KMA.severity metadata)
  /\ field_of "**Alert Duration**:" content (KMA.alertDuration metadata)
  /\ field_of "**Scope**:" content (KMA.scope metadata).
Proof.
  cbv zeta. unfold KMA.extractMetadataFromContent.
  cbn [KMA.alertType KMA.system KMA.severity KMA.alertDuration KMA.scope].
  split; [reflexivity|]. do 3 (split; [apply labelled_field|]).
  apply labelled_field.
Qed.

Lemma h1_here_found (s group1 : string) :
  KMA.h1_here s = Some group1 ->
  single_line group1
  /\ exists (skipped : string) (c : ascii) (rest after : string),
       s = "#" ++ skipped ++ String c rest
       /\ skipped <> "" /\ blank skipped /\ is_line_terminator c = false
       /\ String c rest = group1 ++ after.
Proof.
  unfold KMA.h1_here. destruct s as [|h s]; [discriminate|].
  destruct (Ascii.eqb_spec h "#") as [->|Hne].
  2:{ destruct h as [[] [] [] [] [] [] [] []]; try discriminate. congruence. }
  unfold spaces_plus. destruct s as [|b s]; [discriminate|].
  destruct (is_whitespace b) eqn:Hb; [|discriminate].
  intros H. apply spaces_star_found in H as (skipped & rest & -> & Hblank & Hrest).
  apply dots_plus_found in Hrest as (Hline & (c & tail & -> & Hc) & after & Hgroup).
  split; [exact Hline|].
  exists (String b skipped), c, tail, after.
  split; [reflexivity|]. split; [discriminate|].
  split; [split; assumption|]. split; assumption.
Qed.

Lemma h1_here_text (skipped : string) (c : ascii) (rest : string) :
  skipped <> "" -> blank skipped -> is_line_terminator c = false ->
  KMA.h1_here ("#" ++ skipped ++ String c rest) <> None.
Proof.
  intros Hne Hblank Hc. destruct skipped as [|b skipped]; [congruence|].
  destruct Hblank as [Hb Hblank].
  cbn [append KMA.h1_here]. unfold spaces_plus. rewrite Hb.
  apply spaces_star_text; assumption.
Qed.

Lemma h1_search_found (s group1 : string) :
  forall line_start : bool,
    KMA.h1_search line_start s = Some group1 ->
    single_line group1 /\ occurs_in group1 s
    /\ exists (before skipped : string) (c : ascii) (rest : string),
         s = before ++ "#" ++ skipped ++ String c rest
         /\ line_start_after line_start before = true
         /\ skipped <> "" /\ blank skipped /\ is_line_terminator c = false.
Proof.
  induction s as [|a s IH]; intros line_start; cbn [KMA.h1_search].
  - destruct line_start; cbn [KMA.h1_here]; discriminate.
  - destruct (if line_start then KMA.h1_here (String a s) else None)
      as [t|] eqn:Hhere.
    + intros [= ->]. destruct line_start; [|discriminate].
      apply h1_here_found in Hhere
        as (Hline & skipped & c & rest & after & Hs & Hne & Hblank & Hc & Hgroup).
      split; [exact Hline|]. split.
      * exists ("#" ++ skipped), after. rewrite Hs, Hgroup. reflexivity.
      * exists "", skipped, c, rest. repeat split; assumption.
    + intros H. destruct (IH _ H)
        as (Hline & (pre & post & Hocc)
            & before & skipped & c & rest & Hs & Hstart & Hne & Hblank & Hc).
      split; [exact Hline|]. split.
      * exists (String a pre), post. rewrite Hocc. reflexivity.
      * exists (String a before), skipped, c, rest. rewrite Hs.
        repeat split; assumption.
Qed.

Lemma h1_search_complete (before skipped : string) (c : ascii) (rest : string) :
  skipped <> "" -> blank skipped -> is_line_terminator c = false ->
  forall line_start : bool,
    line_start_after line_start before = true ->
    KMA.h1_search line_start (before ++ "#" ++ skipped ++ String c rest) <> None.
Proof.
  intros Hne Hblank Hc.
  pose proof (h1_here_text skipped c rest Hne Hblank Hc) as Hhere.
  induction before as [|a before IH]; intros line_start Hstart.
  - cbn [line_start_after] in Hstart. subst line_start.
    change ("" ++ "#" ++ skipped ++ String c rest)
      with (String "#" (skipped ++ String c rest)) in *.
    cbn [KMA.h1_search].
    change ("#" ++ skipped ++ String c rest)
      with (String "#" (skipped ++ String c rest)) in Hhere.
    destruct (KMA.h1_here (String "#" (skipped ++ String c rest)));
      [cbv beta iota; discriminate | congruence].
  - cbn [append KMA.h1_search].
    match goal with
    | |- match ?here with _ => _ end <> None =>
        destruct here; [discriminate|]
    end.
    apply IH. exact Hstart.
Qed.

(** X27.  When some line of the content starts with [#], then whitespace
    (line ends included), then a character that is not a line
    terminator, [extractTitleFromContent] takes the title from the
    content alone: it is a trimmed string without line terminator that
    occurs in the content, the same for every file name.  Otherwise the
    title is made of the file name: without its ".md", its underscores
    turned into spaces, its words capitalised. *)
Theorem extractTitleFromContent_sources (content filename : string) :
  let title := KMA.extractTitleFromContent content filename in
  (has_h1 content ->
   trim title = title /\ single_line title /\ occurs_in title content
   /\ forall filename' : string,
        KMA.extractTitleFromContent content filename' = title)
  /\ (~ has_h1 content ->
      title = KMA.capitalize (KMA.underscores_to_spaces (KMA.strip_md filename))).
Proof.
  cbv zeta. unfold KMA.extractTitleFromContent.
  destruct (KMA.h1_search true content) as [group1|] eqn:Hsearch.
  - apply h1_search_found in Hsearch as (Hline & Hocc & Hh1).
    split.
    + intros _. split; [apply trim_idempotent|].
      split; [exact (single_line_occurs _ _ (trim_occurs group1) Hline)|].
      split; [|reflexivity].
      exact (occurs_in_trans _ _ _ (trim_occurs group1) Hocc).
    + intros Hno. exfalso. apply Hno. exact Hh1.
  - split; [|reflexivity].
    intros (before & skipped & c & rest & -> & Hstart & Hne & Hblank & Hc).
    exfalso. revert Hsearch.
    apply h1_search_complete; assumption.
Qed.

(* ================================================================== *)
(** ** The indexing route *)
(* ================================================================== *)

Lemma length_flat_map {A B} (f : A -> list B) (l : list A) :
  List.length (flat_map f l) = list_sum (map (fun x => List.length (f x)) l).
Proof.
  induction l as [|x l IH]; [reflexivity|].
  cbn [flat_map map list_sum]. rewrite length_app, IH. reflexivity.
Qed.

(** The cases of an awaited call of [f] in the goal: it resolves, it
    rejects, it does not return. *)
Ltac await_cases f :=
  match goal with
  | |- context [f ?w0] =>
      let H := fresh "Hrun" in
      destruct (f w0) as [[[? | ?e] ?w1] |] eqn:H
  end.

Ltac await_cases_with f :=
  match goal with
  | |- context [f ?x ?w0] =>
      let H := fresh "Hrun" in
      destruct (f x w0) as [[[? | ?e] ?w1] |] eqn:H
  end.

Section IndexRouteFacts.
Import Async IndexRoute.

(** A run that answers with the body of success went through all the
    steps; its numbers are those of the documents that were processed. *)
Lemma POST_index_success
      {W : Type}
      (deleteIndex initializeIndex deleteAllDocuments : M W unit)
      (processAllKMADocuments : M W (list KMA.ProcessedDocument))
      (upsertDocuments : list VectorStoreClient.VectorDocument -> M W unit)
      (request : NextRequest) (log log' : list Invocation) (w w' : W)
      (message : string) (stats : Stats) (status_ : Z) :
  POST deleteIndex initializeIndex deleteAllDocuments processAllKMADocuments
       upsertDocuments request (log, w)
  = Some (Resolved {| body := Success message stats; status := status_ |},
          (log', w')) ->
  exists (processedDocuments : list KMA.ProcessedDocument) (before : list Invocation),
    log' = (before ++ [UpsertDocuments (flat_map KMA.chunks processedDocuments)])%list
    /\ stats
       = {| totalDocuments := List.length processedDocuments;
            totalChunks := List.length (flat_map KMA.chunks processedDocuments);
            documents :=
              map (fun doc =>
                     {| filename := KMA.filename (KMA.document doc);
                        title := KMA.title (KMA.document doc);
                        alertType := KMA.alertType (KMA.metadata (KMA.document doc));
                        chunks := List.length (KMA.chunks doc) |})
                  processedDocuments |}.
Proof.
  unfold POST, try_catch, bind. cbn beta.
  destruct (json request) as [parsed|e]; [|discriminate].
  destruct (or_false (forceRecreate parsed));
    destruct (or_false (reindex parsed)); cbn [andb negb];
    unfold invoke, ret; cbn [fst snd].
  all: repeat first [ await_cases deleteIndex
                    | await_cases initializeIndex
                    | await_cases deleteAllDocuments
                    | await_cases processAllKMADocuments
                    | await_cases_with upsertDocuments ];
    try discriminate.
  all: cbn [fst snd]; intros [= <- <- <- <- <-].
  all: eexists _, _; split; reflexivity.
Qed.



(** X29.  When the indexing route answers with the body of success, its
    statistics agree with what it did: [totalChunks] is the number of
    vector documents it gave to [upsertDocuments], its last invocation,
    and the sum of the [chunks] counts of the documents listed, and
    [totalDocuments] is the number of documents listed. *)
Theorem POST_index_stats_consistent
        {W : Type}
        (deleteIndex initializeIndex deleteAllDocuments : M W unit)
        (processAllKMADocuments : M W (list KMA.ProcessedDocument))
        (upsertDocuments : list VectorStoreClient.VectorDocument -> M W unit)
        (request : NextRequest) (log log' : list Invocation) (w w' : W)
        (message : string) (stats : Stats) (status_ : Z) :
  POST deleteIndex initializeIndex deleteAllDocuments processAllKMADocuments
       upsertDocuments request (log, w)
  = Some (Resolved {| body := Success message stats; status := status_ |},
          (log', w')) ->
  exists upserted : list VectorStoreClient.VectorDocument,
    last log' InitializeIndex = UpsertDocuments upserted
    /\ totalChunks stats = List.length upserted
    /\ totalChunks stats = list_sum (map chunks (documents stats))
    /\ totalDocuments stats = List.length (documents stats).
Proof.
  intros H. apply POST_index_success in H as (docs & before & -> & ->).
  exists (flat_map KMA.chunks docs). cbn [totalChunks totalDocuments documents].
  split; [apply last_last|]. split; [reflexivity|].
  split; [|rewrite length_map; reflexivity].
  rewrite map_map. cbn [chunks]. apply length_flat_map.
Qed.

Lemma POST_index_stats_consistent_witness :
  exists (message : string) (stats : Stats),
    POST idle idle idle (finds [processed_example]) (fun _ => idle)
         request_reindex ([], tt)
    = Some (Resolved {| body := Success message stats; status := 200 |},
            ([InitializeIndex; DeleteAllDocuments; ProcessAllKMADocuments;
              UpsertDocuments (KMA.chunks processed_example)], tt))
    /\ totalChunks stats = 2
    /\ totalDocuments stats = 1.
Proof.
  eexists _, _. split; [reflexivity|].
  destruct (POST_index_stats_consistent
              idle idle idle (finds [processed_example]) (fun _ => idle)
              request_reindex [] _ tt tt _ _ _ eq_refl)
    as (upserted & Hlast & Hchunks & _ & Hdocs).
  split; [|exact Hdocs].
  rewrite Hchunks. injection Hlast as <-. reflexivity.
Defined.

End IndexRouteFacts.

Section LinkedFacts.
Import Async VectorStoreClient.

(** X30.  With [reindex] set and [forceRecreate] not, the route empties
    the store before it reads the documents.  When the index exists and
    holds vectors, the deletion succeeds and the directory of the
    documents cannot be listed, the route answers 500 with the error of
    the listing, after [initializeIndex], [deleteAllDocuments] and
    [processAllKMADocuments]: [deleteAll] has been called, and nothing
    has been upserted. *)
Theorem POST_reindex_empties_store_first
        (svc : Services) (fuel : nat) (request : IndexRoute.NextRequest)
        (parsed : IndexRoute.RequestBody) (e : string)
        (log : list IndexRoute.Invocation) (w : World) :
  IndexRoute.json request = Resolved parsed ->
  IndexRoute.reindex parsed = Some true ->
  IndexRoute.or_false (IndexRoute.forceRecreate parsed) = false ->
  pinecone w = true \/ truthy_opt (PINECONE_API_KEY svc) = true ->
  (forall h, exists indexes,
      listIndexes svc h = Resolved indexes /\ index_exists indexes = true) ->
  (forall h, exists count,
      describeIndexStats svc h = Resolved (Some count) /\ (0 < count)%Z) ->
  (forall h, deleteAll svc h = Resolved tt) ->
  (forall h, readdir svc h "public/docs/kma" = Rejected e) ->
  exists (w' : World) (connect connect' : list Call),
    IndexRoute.POST_with_library svc fuel request (log, w)
    = Some (Resolved {| IndexRoute.body :=
                          IndexRoute.Failure "Failed to index documents" e;
                        IndexRoute.status := 500 |},
            ((log ++ [IndexRoute.InitializeIndex; IndexRoute.DeleteAllDocuments;
                      IndexRoute.ProcessAllKMADocuments])%list, w'))
    /\ calls w'
       = (calls w ++ connect ++ [PcListIndexes] ++ connect'
          ++ [IdxDescribeIndexStats; IdxDeleteAll; FsReaddir "public/docs/kma"])%list
    /\ Forall (fun c => connects c = true) connect
    /\ Forall (fun c => connects c = true) connect'.
Proof.
  intros Hjson Hre Hforce Hkey Hlist Hstats Hdel Hdir.
  unfold IndexRoute.POST_with_library, IndexRoute.POST, try_catch.
  unfold bind at 1. cbn beta. rewrite Hjson, Hre, Hforce.
  cbn [IndexRoute.or_false andb negb].
  unfold bind at 1. unfold bind at 1. unfold ret at 1.
  unfold bind at 1. unfold IndexRoute.invoke at 1. cbn [fst snd].
  (* initializeIndex *)
  unfold initializeIndex. rewrite rethrowing_eq.
  assert (Hpc : exists connect,
             Forall (fun c => connects c = true) connect
             /\ getPinecone svc w
                = Some (Resolved tt,
                        {| pinecone := true; index := index w;
                           calls := (calls w ++ connect)%list |})).
  { unfold getPinecone, ret. destruct (pinecone w) eqn:Hp; cbn [negb].
    - exists []. split; [constructor|]. rewrite app_nil_r.
      destruct w; simpl in *; subst; reflexivity.
    - destruct Hkey as [Hkey|Hkey]; [discriminate|]. rewrite Hkey. cbn [negb].
      eexists [_]. split; [|reflexivity]. repeat constructor. }
  destruct Hpc as (connect & Hconn & Hpc).
  unfold bind at 1. rewrite Hpc.
  unfold bind at 1. unfold call at 1. cbn [pinecone index calls].
  destruct (Hlist (calls w ++ connect)%list) as (indexes & -> & ->).
  cbn [negb]. unfold bind at 1. unfold ret at 1.
  match goal with
  | |- context [getIndex svc ?w1] =>
      destruct (getIndex_cases svc w1)
        as (o & w2 & connect' & Hget & Hcalls & Hconn' & Hindex & Hrej)
  end.
  rewrite Hget. destruct o as [[]|e0].
  2:{ destruct (Hrej e0 eq_refl) as (_ & _ & ->).
      revert Hget. unfold getIndex, getPinecone, bind, ret.
      cbn [pinecone index negb]. destruct (index w); discriminate. }
  specialize (Hindex eq_refl). cbn [calls] in Hcalls.
  (* deleteAllDocuments *)
  unfold bind at 1. unfold IndexRoute.invoke at 1. cbn [fst snd].
  unfold deleteAllDocuments, try_catch. unfold bind at 1.
  unfold getIndex at 1. rewrite Hindex. cbn [negb]. unfold ret at 1.
  unfold bind at 1. unfold call at 1.
  destruct (Hstats (calls w2)) as (count & -> & Hcount).
  destruct (Z.gtb_spec count 0) as [_|Hle]; [|lia].
  unfold call at 1. cbn [calls]. rewrite Hdel.
  (* processAllKMADocuments *)
  unfold bind at 1. unfold IndexRoute.invoke at 1. cbn [fst snd].
  unfold KMA.processAllKMADocuments, KMA.loadAllKMADocuments.
  rewrite !rethrowing_eq. unfold bind at 1. rewrite rethrowing_eq.
  unfold bind at 1. unfold call at 1. cbn [calls]. rewrite Hdir.
  cbn [pinecone index calls]. rewrite <- !app_assoc. cbn [app].
  eexists _, connect, connect'. split; [reflexivity|].
  cbn [calls]. rewrite Hcalls.
  split; [rewrite <- !app_assoc; reflexivity|].
  split; assumption.
Qed.

Lemma POST_reindex_empties_store_first_witness :
  exists w' : World,
    IndexRoute.POST_with_library store_without_documents 1 request_reindex
                                       ([], fresh_world)
    = Some (Resolved {| IndexRoute.body :=
                          IndexRoute.Failure "Failed to index documents" "ENOENT";
                        IndexRoute.status := 500 |},
            ([IndexRoute.InitializeIndex; IndexRoute.DeleteAllDocuments;
              IndexRoute.ProcessAllKMADocuments], w'))
    /\ In IdxDeleteAll (calls w').
Proof.
  destruct (POST_reindex_empties_store_first
              store_without_documents 1 request_reindex _ "ENOENT" [] fresh_world
              eq_refl eq_refl eq_refl (or_intror eq_refl)
              (fun h => ex_intro _ _ (conj eq_refl eq_refl))
              (fun h => ex_intro _ 3%Z (conj eq_refl eq_refl))
              (fun h => eq_refl) (fun h => eq_refl))
    as (w' & connect & connect' & Hrun & Hcalls & _).
  exists w'. split; [exact Hrun|].
  rewrite Hcalls. rewrite !in_app_iff. right. right. right. right.
  right. left. reflexivity.
Defined.

End LinkedFacts.
